(** * roll_dep.py: the dependency-roll pipeline and its commit message

    A shallow embedding of [roll_dep.py].  Python [str] values are Rocq
    strings whose characters are read as code points below 256; lists are
    lists; the [rolls] dictionary is an insertion-ordered association list;
    external commands, the file system and the standard streams are an
    explicit world threaded through an exception monad that also records
    every observable event. *)

From Stdlib Require Import ZArith Ascii String.
From stdpp Require Import base list strings pretty sorting.

Local Arguments String.append : simpl nomatch.

(** ** Python string primitives *)

Module Py.

Definition LF : ascii := "010"%char.
Definition CR : ascii := "013"%char.

Definition ascii_eqb (a b : ascii) : bool := Ascii.eqb a b.

(** Characters at which [str.splitlines] breaks a line. *)
Definition is_linebreak (c : ascii) : bool :=
  match c with
  | "010" | "011" | "012" | "013" | "028" | "029" | "030" | "133" => true
  | _ => false
  end%char.

(** [str.isspace] on one character: what [strip()] and [rstrip()] remove. *)
Definition is_space (c : ascii) : bool :=
  match c with
  | "009" | "010" | "011" | "012" | "013"
  | "028" | "029" | "030" | "031" | " " | "133" | "160" => true
  | _ => false
  end%char.

Definition is_empty (s : string) : bool :=
  match s with "" => true | _ => false end.

(** [s[:n]] and [s[n:]] for a constant [n >= 0]. *)
Fixpoint take (n : nat) (s : string) : string :=
  match n, s with
  | S n', String c s' => String c (take n' s')
  | _, _ => ""
  end.

Fixpoint drop (n : nat) (s : string) : string :=
  match n, s with
  | S n', String _ s' => drop n' s'
  | _, _ => s
  end.

(** [s.startswith(p)]: the rest of [s] after [p], when [p] is a prefix. *)
Fixpoint strip_prefix (p s : string) : option string :=
  match p, s with
  | "", _ => Some s
  | String a p', String b s' =>
      if ascii_eqb a b then strip_prefix p' s' else None
  | String _ _, "" => None
  end.

Definition startswith (p s : string) : bool :=
  match strip_prefix p s with Some _ => true | None => false end.

Definition endswith (p s : string) : bool :=
  (String.length p <=? String.length s)%nat &&
  String.eqb (drop (String.length s - String.length p) s) p.

(** [sub in s]. *)
Fixpoint contains (sub s : string) : bool :=
  match s with
  | "" => is_empty sub
  | String _ s' => startswith sub s || contains sub s'
  end.

(** [s.rstrip(chars)], [s.lstrip(chars)] with the set of characters as a
    predicate. *)
Fixpoint rstrip_of (p : ascii → bool) (s : string) : string :=
  match s with
  | "" => ""
  | String c s' =>
      let r := rstrip_of p s' in
      if is_empty r && p c then "" else String c r
  end.

Fixpoint lstrip_of (p : ascii → bool) (s : string) : string :=
  match s with
  | "" => ""
  | String c s' => if p c then lstrip_of p s' else s
  end.

Definition rstrip (s : string) : string := rstrip_of is_space s.
Definition strip (s : string) : string := rstrip_of is_space (lstrip_of is_space s).

(** [s.split(c)] for a one-character separator. *)
Fixpoint split (c : ascii) (s : string) : list string :=
  match s with
  | "" => [""]
  | String a s' =>
      if ascii_eqb a c then "" :: split c s'
      else match split c s' with
           | h :: t => String a h :: t
           | [] => [String a ""]
           end
  end.

(** [sep.join(l)]. *)
Fixpoint join (sep : string) (l : list string) : string :=
  match l with
  | [] => ""
  | [x] => x
  | x :: l' => x +:+ sep +:+ join sep l'
  end.

(** [s.splitlines(keepends)]: a line ends at a line break (CR LF counts as
    one); a last line without a break is kept, an empty tail is not. *)
Fixpoint splitlines (keepends : bool) (s : string) : list string :=
  let cons_char c rest :=
    match rest with
    | h :: t => String c h :: t
    | [] => [String c ""]
    end in
  match s with
  | "" => []
  | String c s' =>
      if is_linebreak c then
        match s' with
        | String d s'' =>
            if ascii_eqb c CR && ascii_eqb d LF
            then (if keepends then String c (String d "") else "") :: splitlines keepends s''
            else (if keepends then String c "" else "") :: splitlines keepends s'
        | "" => [if keepends then String c "" else ""]
        end
      else cons_char c (splitlines keepends s')
  end.

(** [s.replace(old, new)]: every non-overlapping occurrence, leftmost
    first.  [skip] counts the characters of an occurrence still to pass. *)
Fixpoint replace_from (old new : string) (skip : nat) (s : string) : string :=
  match s with
  | "" => ""
  | String c s' =>
      match skip with
      | S n => replace_from old new n s'
      | O =>
          if startswith old s
          then new +:+ replace_from old new (String.length old - 1) s'
          else String c (replace_from old new 0 s')
      end
  end.

Definition replace (old new s : string) : string :=
  match old with
  | "" => (* an empty pattern matches between all characters *)
      new +:+ (fix go s := match s with
                            | "" => ""
                            | String c s' => String c (new +:+ go s')
                            end) s
  | _ => replace_from old new 0 s
  end.

(** [l[:j]] and [l[i:]] on lists, with Python's negative indices. *)
Definition slice_to {A} (l : list A) (j : Z) : list A :=
  if (j <? 0)%Z then List.firstn (Z.to_nat (Z.max (Z.of_nat (length l) + j) 0)) l
  else List.firstn (Z.to_nat j) l.

Definition slice_from {A} (l : list A) (i : Z) : list A :=
  if (i <? 0)%Z then List.skipn (Z.to_nat (Z.max (Z.of_nat (length l) + i) 0)) l
  else List.skipn (Z.to_nat i) l.

(** [a // b] for [b > 0] is floor division, as [Z.div]. *)
Definition floordiv (a b : Z) : Z := (a / b)%Z.

(** ['%d' % n] for a length or a count. *)
Definition str_of_nat (n : nat) : string := pretty n.

(** Truth value of a string or [None]. *)
Definition truthy (o : option string) : bool :=
  match o with Some s => negb (is_empty s) | None => false end.

(** [sorted(l)]: a stable sort that compares with [<] only. *)
Section Sorted.
Context {A : Type} (ltb : A → A → bool).

Fixpoint insert_sorted (x : A) (l : list A) : list A :=
  match l with
  | [] => [x]
  | y :: l' => if ltb y x then y :: insert_sorted x l' else x :: y :: l'
  end.

Fixpoint sorted (l : list A) : list A :=
  match l with
  | [] => []
  | x :: l' => insert_sorted x (sorted l')
  end.
End Sorted.

(** Order of strings (by code points) and of tuples (lexicographic). *)
Definition str_ltb (a b : string) : bool := String.ltb a b.

Definition pair_ltb {A B} (eqa : A → A → bool) (lta : A → A → bool)
    (ltb : B → B → bool) (x y : A * B) : bool :=
  if eqa x.1 y.1 then ltb x.2 y.2 else lta x.1 y.1.

End Py.


Definition NL : string := String Py.LF "".

(** ** The regular expressions of the script

    The fragment of Python's [re] that the three patterns use, with its
    backtracking semantics: alternatives are tried left to right, a
    repetition of a character class is greedy and gives characters back one
    at a time.  [prev] is the character before the current position
    ([None] at the start of the text), which decides [^].  The groups are
    collected in the order in which they close, which is their number in
    Python as long as no group is inside another, as in these patterns. *)

Module Re.

Inductive regex : Type :=
| Lit (s : string)              (* literal text *)
| Class (p : ascii → bool)      (* one character of a class *)
| Star (p : ascii → bool)       (* [class]*, greedy *)
| Plus (p : ascii → bool)       (* [class]+, greedy *)
| Cat (r1 r2 : regex)
| Alt (r1 r2 : regex)
| Group (r : regex)             (* capturing group *)
| Bol                           (* ^ *)
| Eol.                          (* $ *)

Definition cont (A : Type) : Type := option ascii → string → list string → option A.

Fixpoint last_char (s : string) (prev : option ascii) : option ascii :=
  match s with
  | "" => prev
  | String c s' => last_char s' (Some c)
  end.

(** Greedy repetition: take one more character of the class when that
    leads to a match, stop here otherwise. *)
Fixpoint star {A} (p : ascii → bool) (prev : option ascii) (s : string)
    (caps : list string) (k : cont A) : option A :=
  match s with
  | String c s' =>
      if p c then
        match star p (Some c) s' caps k with
        | Some r => Some r
        | None => k prev s caps
        end
      else k prev s caps
  | "" => k prev s caps
  end.

Definition at_bol (multiline : bool) (prev : option ascii) : bool :=
  match prev with
  | None => true
  | Some c => multiline && Py.ascii_eqb c Py.LF
  end.

Definition at_eol (multiline : bool) (s : string) : bool :=
  match s with
  | "" => true
  | String c s' => Py.ascii_eqb c Py.LF && (multiline || Py.is_empty s')
  end.

Fixpoint run {A} (multiline : bool) (r : regex) (prev : option ascii)
    (s : string) (caps : list string) (k : cont A) : option A :=
  match r with
  | Lit l =>
      match Py.strip_prefix l s with
      | Some s' => k (last_char l prev) s' caps
      | None => None
      end
  | Class p =>
      match s with
      | String c s' => if p c then k (Some c) s' caps else None
      | "" => None
      end
  | Star p => star p prev s caps k
  | Plus p =>
      match s with
      | String c s' => if p c then star p (Some c) s' caps k else None
      | "" => None
      end
  | Cat r1 r2 =>
      run multiline r1 prev s caps
        (λ prev' s' caps', run multiline r2 prev' s' caps' k)
  | Alt r1 r2 =>
      match run multiline r1 prev s caps k with
      | Some x => Some x
      | None => run multiline r2 prev s caps k
      end
  | Group r0 =>
      run multiline r0 prev s caps
        (λ prev' s' caps',
           k prev' s' (caps' ++ [Py.take (String.length s - String.length s') s]))
  | Bol => if at_bol multiline prev then k prev s caps else None
  | Eol => if at_eol multiline s then k prev s caps else None
  end.

(** A match at the current position: the text after it and the groups. *)
Definition match_at (multiline : bool) (r : regex) (prev : option ascii)
    (s : string) : option (string * list string) :=
  run multiline r prev s [] (λ _ s' caps, Some (s', caps)).

(** [re.match(r, s)] as a truth value. *)
Definition matches (multiline : bool) (r : regex) (s : string) : bool :=
  match match_at multiline r None s with Some _ => true | None => false end.

(** [re.sub(r, repl, s)] where [repl] builds the replacement from the
    groups: scan left to right, replace the leftmost match, go on after it.
    [skip] counts the characters of a match still to pass. *)
Fixpoint sub_from (multiline : bool) (r : regex) (repl : list string → string)
    (skip : nat) (prev : option ascii) (s : string) : string :=
  match s with
  | "" => ""
  | String c s' =>
      match skip with
      | S n => sub_from multiline r repl n (Some c) s'
      | O =>
          match match_at multiline r prev s with
          | Some (rest, caps) =>
              let used := String.length s - String.length rest in
              match used with
              | O => repl caps +:+ String c (sub_from multiline r repl 0 (Some c) s')
              | S n => repl caps +:+ sub_from multiline r repl n (Some c) s'
              end
          | None => String c (sub_from multiline r repl 0 (Some c) s')
          end
      end
  end.

Definition sub (multiline : bool) (r : regex) (repl : list string → string)
    (s : string) : string :=
  sub_from multiline r repl 0 None s.

(** Character classes.  On the characters of the model, which are below
    256, the decimal digits of [\d] are 0 to 9. *)
Definition digit (c : ascii) : bool :=
  (48 <=? nat_of_ascii c)%nat && (nat_of_ascii c <=? 57)%nat.
Definition hex_lower (c : ascii) : bool :=
  digit c || ((97 <=? nat_of_ascii c)%nat && (nat_of_ascii c <=? 102)%nat).
Definition not_char (x : ascii) (c : ascii) : bool := negb (Py.ascii_eqb c x).

Fixpoint seq (l : list regex) : regex :=
  match l with
  | [] => Lit ""
  | [r] => r
  | r :: l' => Cat r (seq l')
  end.

(** Four digits, "-", two digits, "-", two digits and a space. *)
Definition date_space : regex :=
  seq [Class digit; Class digit; Class digit; Class digit; Lit "-";
       Class digit; Class digit; Lit "-"; Class digit; Class digit; Lit " "].

End Re.

(** ** Module constants *)

(** [_ROLL_SUBJECT]: a log line "<date> <author> <subject>" whose subject is
    that of an automatic roll. *)
Definition _ROLL_SUBJECT : Re.regex :=
  Re.seq
    [Re.Bol; Re.date_space; Re.Plus (Re.not_char " "); Re.Lit " ";
     Re.Group
       (Re.Alt
          (Re.seq [Re.Lit "Roll "; Re.Plus (Re.not_char " "); Re.Lit " ";
                   Re.Plus Re.hex_lower; Re.Lit ".."; Re.Plus Re.hex_lower;
                   Re.Lit " ("; Re.Plus Re.digit; Re.Lit " commits)"])
          (Re.Lit "Roll recipe dependencies (trivial)."));
     Re.Eol].

(** The pattern of line 126, in multi-line mode: at the start of a line a
    first group (the date, a space, one or more characters other than "@"),
    then "@" and one or more characters other than a space, then a second
    group (a space and the rest of the line), then the end of the line. *)
Definition AUTHOR_DOMAIN : Re.regex :=
  Re.seq
    [Re.Bol;
     Re.Group (Re.Cat Re.date_space (Re.Plus (Re.not_char "@")));
     Re.Lit "@"; Re.Plus (Re.not_char " ");
     Re.Group (Re.Cat (Re.Lit " ") (Re.Star (Re.not_char Py.LF)));
     Re.Eol].

(** The pattern of line 87: "https://", any number of characters other
    than "/", then ".googlesource.com/". *)
Definition GOOGLESOURCE : Re.regex :=
  Re.seq [Re.Lit "https://"; Re.Star (Re.not_char "/"); Re.Lit ".googlesource.com/"].

Definition roll_subject_match (l : string) : bool :=
  Re.matches false _ROLL_SUBJECT l.

(** [re.sub(AUTHOR_DOMAIN, r'\1\2', logs)]. *)
Definition strip_author_domain (logs : string) : string :=
  Re.sub true AUTHOR_DOMAIN (λ caps, Py.join "" (List.firstn 2 caps)) logs.


(** ** Pure functions of the script *)

(** [get_log_url(upstream_url, head, tot)] *)
Definition get_log_url (upstream_url head tot : string) : option string :=
  if Re.matches false GOOGLESOURCE upstream_url then
    (* gitiles *)
    Some (upstream_url +:+ "/+log/" +:+ Py.take 12 head +:+ ".." +:+ Py.take 12 tot)
  else if Py.startswith "https://github.com/" upstream_url then
    let upstream_url := Py.rstrip_of (Py.ascii_eqb "/") upstream_url in
    let upstream_url :=
      if Py.endswith ".git" upstream_url
      then Py.take (String.length upstream_url - String.length ".git") upstream_url
      else upstream_url in
    Some (upstream_url +:+ "/compare/" +:+ Py.take 12 head +:+ "..." +:+ Py.take 12 tot)
  else None.

(** [should_show_log(upstream_url)] *)
Definition should_show_log (upstream_url : string) : bool :=
  (* Skip logs for very active projects. *)
  if Py.endswith "/v8/v8.git" upstream_url then false
  else if Py.contains "webrtc" upstream_url then false
  else true.

(** The parts of [generate_commit_message], in the order of the source. *)
Definition commit_range (head roll_to : string) : string :=
  head +:+ ".." +:+ roll_to.

Definition commit_range_for_header (head roll_to : string) : string :=
  Py.take 9 head +:+ ".." +:+ Py.take 9 roll_to.

Definition log_cmd (head roll_to : string) : list string :=
  ["git"; "log"; commit_range head roll_to; "--date=short"; "--no-merges"].

(** [lines]: the output of git log, stripped on the right, authors without
    their domain, one entry per line. *)
Definition log_lines (git_log : string) : list string :=
  Py.splitlines false (strip_author_domain (Py.rstrip git_log)).

(** [cleaned_lines]: the entries that are not trivial rolls. *)
Definition clean_lines (lines : list string) : list string :=
  List.filter (λ l, negb (roll_subject_match l)) lines.

Definition header (dependency head roll_to : string)
    (lines cleaned_lines : list string) : string :=
  let nb_commits := length lines in
  let rolls := nb_commits - length cleaned_lines in
  "Roll " +:+ dependency +:+ "/ " +:+ commit_range_for_header head roll_to
    +:+ " (" +:+ Py.str_of_nat nb_commits +:+ " commit"
    +:+ (if (1 <? nb_commits)%nat then "s" else "")
    +:+ (if negb (rolls =? 0)%nat
         then "; " +:+ Py.str_of_nat rolls +:+ " trivial rolls" else "")
    +:+ ")" +:+ NL +:+ NL.

(** [log_section] as it stands before line 147: the URL if there is one
    and the git log command, with the range shortened. *)
Definition log_section_head (log_url : option string) (head roll_to : string) : string :=
  let log_section :=
    if Py.truthy log_url then default "" log_url +:+ NL +:+ NL else "" in
  let log_section := log_section +:+ "$ " +:+ Py.join " " (log_cmd head roll_to) +:+ " " in
  let log_section := log_section +:+ "--format='%ad %ae %s'" +:+ NL in
  Py.replace (commit_range head roll_to) (commit_range_for_header head roll_to)
    log_section.

(** Lines 148 to 152: [logs], cut in the middle when it has more than
    [log_limit] entries. *)
Definition trim_logs (log_limit : Z) (cleaned_lines : list string) : string :=
  let logs := Py.join NL cleaned_lines +:+ NL in
  if (log_limit <? Z.of_nat (length cleaned_lines))%Z then
    (* Keep the first N/2 log entries and last N/2 entries. *)
    let lines := Py.splitlines true logs in
    let lines := Py.slice_to lines (Py.floordiv log_limit 2)
                 ++ ["(...)" +:+ NL]
                 ++ Py.slice_from lines (Py.floordiv (- log_limit) 2) in
    Py.join "" lines
  else logs.

(** [generate_commit_message] once the two git commands have answered:
    [upstream_url] is the stripped output of git config and [git_log] the
    output of git log. *)
Definition commit_message (dependency head roll_to : string) (no_log : bool)
    (log_limit : Z) (upstream_url git_log : string) : string :=
  let log_url := get_log_url upstream_url head roll_to in
  let lines := log_lines git_log in
  let cleaned_lines := clean_lines lines in
  let log_section := log_section_head log_url head roll_to in
  let log_section :=
    if negb no_log && should_show_log upstream_url
    then log_section +:+ trim_logs log_limit cleaned_lines
    else log_section in
  header dependency head roll_to lines cleaned_lines +:+ log_section.

(** [gen_commit_msg(logs, cmdline, reviewers, bug)] *)
Definition gen_commit_msg (logs : list string) (cmdline : string)
    (reviewers : option (list string)) (bug : option string) : string :=
  let commit_msg :=
    if (1 <? length logs)%nat
    then "Rolling " +:+ Py.str_of_nat (length logs) +:+ " dependencies" +:+ NL +:+ NL
    else "" in
  let commit_msg := commit_msg +:+ Py.join (NL +:+ NL) logs in
  let commit_msg := commit_msg +:+ NL +:+ "Created with:" +:+ NL +:+ "  " +:+ cmdline +:+ NL in
  let commit_msg :=
    commit_msg +:+
    match reviewers with
    | Some (r :: rs) => "R=" +:+ Py.join "," (r :: rs) +:+ NL
    | _ => ""
    end in
  let commit_msg :=
    commit_msg +:+
    (if Py.truthy bug then NL +:+ "Bug: " +:+ default "" bug +:+ NL else "") in
  commit_msg.

(** Lines 263 to 268 of [main]: the reviewers, split at commas; the loop
    runs over the indices of the list it updates in place. *)
Definition flatten_reviewers (reviewer : list string) : list string :=
  List.concat (map (Py.split ",") reviewer).

Definition default_domain_at (reviewers : list string) (i : nat) : list string :=
  match reviewers !! i with
  | Some r =>
      if negb (Py.contains "@" r) then <[i := r +:+ "@chromium.org"]> reviewers
      else reviewers
  | None => reviewers
  end.

Definition parse_reviewers (reviewer : option (list string)) : option (list string) :=
  match reviewer with
  | Some (a :: l) =>
      let reviewers := flatten_reviewers (a :: l) in
      Some (fold_left default_domain_at (List.seq 0 (length reviewers)) reviewers)
  | _ => None
  end.

(** ** The [rolls] dictionary and the order of tuples *)

(** An entry of [rolls]: [(head, roll_to, full_dir)]. *)
Definition roll : Type := string * string * string.

Definition dict (V : Type) : Type := list (string * V).

(** [d[k] = v] *)
Fixpoint dict_set {V} (d : dict V) (k : string) (v : V) : dict V :=
  match d with
  | [] => [(k, v)]
  | (k', v') :: d' =>
      if String.eqb k' k then (k', v) :: d' else (k', v') :: dict_set d' k v
  end.

Definition dict_values {V} (d : dict V) : list V := map snd d.
Definition dict_items {V} (d : dict V) : list (string * V) := d.

Definition pair_eqb {A B} (eqa : A → A → bool) (eqb : B → B → bool)
    (x y : A * B) : bool :=
  eqa x.1 y.1 && eqb x.2 y.2.

Definition roll_ltb : roll → roll → bool :=
  Py.pair_ltb (pair_eqb String.eqb String.eqb)
    (Py.pair_ltb String.eqb Py.str_ltb Py.str_ltb) Py.str_ltb.

Definition item_ltb : string * roll → string * roll → bool :=
  Py.pair_ltb String.eqb Py.str_ltb roll_ltb.

(** ** The world outside the script *)

(** What the script raises.  [CalledProcessError] is the one of
    [subprocess2]; [NameError] is Python's, for a name that is not bound.
    Two kinds of failure are left out: the output of a command that is not
    valid UTF-8 (the [decode] of line 57) and a temporary file that cannot
    be made, written or removed (lines 217 to 222).  The runs of the model
    are the runs in which these steps succeed, and what is stated of a run
    that raises is stated of the exceptions below. *)
Inductive exn : Type :=
| Error (msg : string)
| AlreadyRolledError (msg : string)
| CalledProcessError (returncode : Z) (argv : list string)
| NameError (name : string).

(** What the script does that can be observed. *)
Inductive event : Type :=
| Exec (argv : list string) (cwd : option string) (returncode : Z)
| Stdout (text : string)
| Stderr (text : string)
| ParserError (msg : string)
| WriteTemp (name content : string)
| Remove (name : string).

(** The git commands that matter below, "git checkout --quiet <rev>" and
    "git commit --quiet --file <name>", told by their words. *)
Definition argv_is (argv : list string) (n : nat) (verb : string) : bool :=
  (length argv =? n)%nat && String.eqb (nth 0 argv "") "git"
  && String.eqb (nth 1 argv "") verb && String.eqb (nth 2 argv "") "--quiet".

Definition is_checkout (e : event) : bool :=
  match e with Exec argv _ _ => argv_is argv 4 "checkout" | _ => false end.

Definition is_commit (e : event) : bool :=
  match e with Exec argv _ _ => argv_is argv 5 "commit" | _ => false end.

(** A command that returned a code other than 0. *)
Definition failed (e : event) : bool :=
  match e with Exec _ _ rc => negb (rc =? 0)%Z | _ => false end.

(** The revision and the directory of a checkout. *)
Definition checkout_of (e : event) : option (string * option string) :=
  match e with
  | Exec argv cwd _ => if argv_is argv 4 "checkout" then Some (nth 3 argv "", cwd) else None
  | _ => None
  end.

Definition checkouts (ev : list event) : list (string * option string) :=
  omap checkout_of ev.

(** The host: processes ([subprocess2]), the file system ([os], [tempfile])
    and the constants of the installation ([sys.executable], [GCLIENT_PATH]).
    [spawn w argv cwd] runs a command and gives the world after it, the
    return code and the captured standard output. *)
Class Host : Type := {
  world : Type;
  spawn : world → list string → option string → world * (Z * string);
  isdir : world → string → bool;
  isfile : world → string → bool;
  getcwd : world → string;
  mktemp : world → string → world * string;
  unlink : world → string → world;
  executable : string;
  GCLIENT_PATH : string;
  path_join : string → string → string;
  normpath : string → string;
}.

Inductive result (A : Type) : Type :=
| Ok (a : A)
| Raise (e : exn).
Arguments Ok {A} a.
Arguments Raise {A} e.

Section Script.
Context `{H : Host}.

(** A computation: from a world to a result, the world after it and the
    events in the order they happened. *)
Definition M (A : Type) : Type := world → result A * world * list event.

Definition ret {A} (a : A) : M A := λ w, (Ok a, w, []).
Definition raise {A} (e : exn) : M A := λ w, (Raise e, w, []).
Definition bind {A B} (m : M A) (f : A → M B) : M B :=
  λ w, match m w with
       | (Ok a, w1, ev1) =>
           match f a w1 with (r, w2, ev2) => (r, w2, ev1 ++ ev2) end
       | (Raise e, w1, ev1) => (Raise e, w1, ev1)
       end.
(** [try: m  except: h] where [h] re-raises what it does not handle. *)
Definition try_except {A} (m : M A) (h : exn → M A) : M A :=
  λ w, match m w with
       | (Ok a, w1, ev1) => (Ok a, w1, ev1)
       | (Raise e, w1, ev1) =>
           match h e w1 with (r, w2, ev2) => (r, w2, ev1 ++ ev2) end
       end.
Definition emit (e : event) : M unit := λ w, (Ok tt, w, [e]).
Definition ask {A} (f : world → A) : M A := λ w, (Ok (f w), w, []).

Notation "x <- m ;; k" := (bind m (λ x, k))
  (at level 100, m at next level, right associativity).
Notation "m ;;; k" := (bind m (λ _, k))
  (at level 100, right associativity).

Fixpoint for_each {A} (l : list A) (body : A → M unit) : M unit :=
  match l with
  | [] => ret tt
  | x :: l' => body x ;;; for_each l' body
  end.

Fixpoint for_fold {A S} (l : list A) (s : S) (body : S → A → M S) : M S :=
  match l with
  | [] => ret s
  | x :: l' => s' <- body s x ;; for_fold l' s' body
  end.

(** [print(text)] *)
Definition print (text : string) : M unit := emit (Stdout (text +:+ NL)).

(** A name that no scope binds. *)
Definition unbound_name {A} (name : string) : M A := raise (NameError name).

(** [subprocess2.call]: run, record, give the return code and the output. *)
Definition call (argv : list string) (cwd : option string) : M (Z * string) :=
  λ w, let '(w', (rc, out)) := spawn w argv cwd in
       (Ok (rc, out), w', [Exec argv cwd rc]).

(** [check_output(argv, cwd=cwd)] *)
Definition check_output (argv : list string) (cwd : option string) : M string :=
  r <- call argv cwd ;;
  let '(rc, out) := r in
  if (rc =? 0)%Z then ret out else raise (CalledProcessError rc argv).

(** [check_call(argv, cwd=cwd)] *)
Definition check_call (argv : list string) (cwd : option string) : M unit :=
  r <- call argv cwd ;;
  let '(rc, _) := r in
  if (rc =? 0)%Z then ret tt else raise (CalledProcessError rc argv).

(** [is_pristine(root)] *)
Definition is_pristine (root : string) : M bool :=
  let diff_cmd := ["git"; "diff"; "--ignore-submodules"; "origin/main"] in
  d1 <- check_output diff_cmd (Some root) ;;
  if Py.is_empty (Py.strip d1) then
    d2 <- check_output (diff_cmd ++ ["--cached"]) (Some root) ;;
    ret (Py.is_empty (Py.strip d2))
  else ret false.

(** [gclient(args)] *)
Definition gclient (args : list string) : M string :=
  out <- check_output ([executable; GCLIENT_PATH] ++ args) None ;;
  ret (Py.strip out).

(** [generate_commit_message(full_dir, dependency, head, roll_to, no_log,
    log_limit)] *)
Definition generate_commit_message (full_dir dependency head roll_to : string)
    (no_log : bool) (log_limit : Z) : M string :=
  url <- check_output ["git"; "config"; "remote.origin.url"] (Some full_dir) ;;
  let upstream_url := Py.strip url in
  logs <- check_output
            (log_cmd head roll_to ++ ["--format=%ad %ae %s"; "--"]) (Some full_dir) ;;
  ret (commit_message dependency head roll_to no_log log_limit upstream_url logs).

(** [is_submoduled()] *)
Definition is_submoduled : M bool :=
  root <- gclient ["root"] ;;
  ask (λ w, isfile w (path_join root ".gitmodules")).

(** [get_submodule_rev(submodule_path)]: the body reads [submodule], which
    is bound neither in the function nor in the module. *)
Definition get_submodule_rev (submodule_path : string) : M string :=
  submodule <- unbound_name "submodule" ;;
  rev <- check_output ["git"; "submodule"; "status"; submodule] None ;;
  ret (Py.drop 1 (hd "" (Py.split " " rev))).

(** [calculate_roll(full_dir, dependency, roll_to)]: the call of
    [get_submodule_rev] reads [submodule_path], which is not bound either. *)
Definition calculate_roll (full_dir dependency roll_to : string) : M (string * string) :=
  submoduled <- is_submoduled ;;
  head <- (if submoduled then
             submodule_path <- unbound_name "submodule_path" ;;
             get_submodule_rev submodule_path
           else gclient ["getdep"; "-r"; dependency]) ;;
  (if Py.is_empty head then raise (Error (dependency +:+ " is unpinned."))
   else ret tt) ;;;
  check_call ["git"; "fetch"; "origin"; "--quiet"] (Some full_dir) ;;;
  (if String.eqb roll_to "origin/HEAD"
   then _ <- check_output ["git"; "remote"; "set-head"; "origin"; "-a"] (Some full_dir) ;;
        ret tt
   else ret tt) ;;;
  out <- check_output ["git"; "rev-parse"; roll_to] (Some full_dir) ;;
  ret (head, Py.strip out).

(** [finalize(commit_msg, current_dir, rolls)] *)
Definition checkout (r : roll) : M unit :=
  let '(_head, roll_to, full_dir) := r in
  check_call ["git"; "checkout"; "--quiet"; roll_to] (Some full_dir).

Definition finalize (commit_msg current_dir : string) (rolls : dict roll) : M unit :=
  print "Commit message:" ;;;
  print (Py.join NL (map (λ i, "    " +:+ i) (Py.splitlines false commit_msg))) ;;;
  (* Pull the dependency to the right revision. *)
  for_each (Py.sorted roll_ltb (dict_values rolls)) checkout ;;;
  check_call ["git"; "add"; "DEPS"] (Some current_dir) ;;;
  commit_filename <- (λ w, let '(w', name) := mktemp w commit_msg in
                           (Ok name, w', [WriteTemp name commit_msg])) ;;
  check_call ["git"; "commit"; "--quiet"; "--file"; commit_filename] (Some current_dir) ;;;
  (λ w, (Ok tt, unlink w commit_filename, [Remove commit_filename])).

Definition nil_or_none {A} (l : list A) : bool :=
  match l with [] => true | _ => false end.

(** The command line, as [argparse] hands it over. *)
Record args : Type := {
  ignore_dirty_tree : bool;
  reviewer : option (list string);
  bug : option string;
  no_log : bool;
  log_limit : Z;
  roll_to : string;
  key : list string;
  dep_path : list string;
}.

(** Lines 283 to 289: the directory of a dependency. *)
Definition find_dir (gclient_root current_dir dependency : string) : M string :=
  let full_dir := normpath (path_join gclient_root dependency) in
  found <- ask (λ w, isdir w full_dir) ;;
  if found then ret full_dir else
    print ("Dependency " +:+ dependency +:+ " not found at " +:+ full_dir) ;;;
    let full_dir := normpath (path_join current_dir dependency) in
    print ("Will look for relative dependency at " +:+ full_dir) ;;;
    found <- ask (λ w, isdir w full_dir) ;;
    if found then ret full_dir
    else raise (Error ("Directory not found: " +:+ dependency
                       +:+ " (" +:+ full_dir +:+ ")")).

(** Lines 291 to 299: what is done with the two revisions of a dependency,
    [nb] being [len(dependencies)]. *)
Definition record_roll (nb : nat) (rolls : dict roll)
    (dependency full_dir head roll_to : string) : M (dict roll) :=
  if String.eqb roll_to head then
    (if (nb =? 1)%nat then raise (AlreadyRolledError "No revision to roll!")
     else ret tt) ;;;
    print (dependency +:+ ": Already at latest commit " +:+ roll_to) ;;;
    ret rolls
  else
    print (dependency +:+ ": Rolling from " +:+ Py.take 10 head
           +:+ " to " +:+ Py.take 10 roll_to) ;;;
    ret (dict_set rolls dependency (head, roll_to, full_dir)).

(** The body of the first loop of [main], lines 282 to 299. *)
Definition roll_step (a : args) (gclient_root current_dir : string) (nb : nat)
    (rolls : dict roll) (dependency : string) : M (dict roll) :=
  full_dir <- find_dir gclient_root current_dir dependency ;;
  r <- calculate_roll full_dir dependency (roll_to a) ;;
  let '(head, roll_to) := r in
  record_roll nb rolls dependency full_dir head roll_to.

(** The body of the second loop of [main], lines 303 to 307. *)
Definition log_step (a : args) (acc : list string * list string)
    (item : string * roll) : M (list string * list string) :=
  let '(logs, setdep_args) := acc in
  let '(dependency, (head, roll_to, full_dir)) := item in
  log <- generate_commit_message full_dir dependency head roll_to
           (no_log a) (log_limit a) ;;
  ret (logs ++ [log], setdep_args ++ ["-r"; dependency +:+ "@" +:+ roll_to]).

(** Line 272: a path with "/" for every backslash and no "/" at its end,
    and the paths in order. *)
Definition normalized (d : string) : string :=
  Py.rstrip_of (Py.ascii_eqb "/") (Py.replace "\" "/" d).

Definition dependencies_of (a : args) : list string :=
  Py.sorted Py.str_ltb (map normalized (dep_path a)).

Definition cmdline_of (a : args) : string :=
  "roll-dep " +:+ Py.join " " (dependencies_of a)
    +:+ Py.join "" (map (λ k, " --key " +:+ k) (key a)).

(** Lines 276 to 278: the tree must be clean. *)
Definition check_clean (a : args) (current_dir : string) : M unit :=
  if negb (ignore_dirty_tree a) then
    pristine <- is_pristine current_dir ;;
    if negb pristine
    then raise (Error ("Ensure " +:+ current_dir
                       +:+ " is clean first (no non-merged commits)."))
    else ret tt
  else ret tt.

(** The [try] block of [main], lines 276 to 313. *)
Definition main_try (a : args) (gclient_root current_dir : string)
    (reviewers : option (list string)) : M unit :=
  let dependencies := dependencies_of a in
  check_clean a current_dir ;;;
  (* First gather all the information without modifying anything, except
     for a git fetch. *)
  rolls <- for_fold dependencies []
             (roll_step a gclient_root current_dir (length dependencies)) ;;
  r <- for_fold (Py.sorted item_ltb (dict_items rolls)) ([], []) (log_step a) ;;
  let '(logs, setdep_args) := r in
  (* DEPS is updated even if the repository uses submodules. *)
  gclient ("setdep" :: setdep_args) ;;;
  let commit_msg := gen_commit_msg logs (cmdline_of a) reviewers (bug a) in
  finalize commit_msg current_dir rolls.

(** The handlers of lines 314 to 318; any other exception goes on. *)
Definition main_except (e : exn) : M (option Z) :=
  match e with
  | Error msg =>
      emit (Stderr ("error: " +:+ msg +:+ NL)) ;;; ret (Some 1%Z)
  | AlreadyRolledError msg =>
      emit (Stderr ("error: " +:+ msg +:+ NL)) ;;; ret (Some 2%Z)
  | CalledProcessError _ _ => ret (Some 1%Z)
  | NameError _ => raise e
  end.

(** Lines 320 to 327: what [main] prints after a commit. *)
Definition main_epilogue (reviewers : option (list string)) : M Z :=
  print "" ;;;
  (match reviewers with
   | Some (_ :: _) => ret tt
   | _ =>
       print "You forgot to pass -r, make sure to insert a R=foo@example.com line" ;;;
       print "to the commit description before emailing." ;;;
       print ""
   end) ;;;
  print "Run:" ;;;
  print "  git cl upload --send-mail" ;;;
  ret 0%Z.

(** [main()]: the exit code.  [parser.error] reports and leaves with
    code 2. *)
Definition main (a : args) : M Z :=
  if (1 <? length (dep_path a))%nat && negb (String.eqb (roll_to a) "origin/HEAD")
  then emit (ParserError "Can't use multiple paths to roll simultaneously and --roll-to") ;;;
       ret 2%Z
  else if (1 <? length (dep_path a))%nat && negb (nil_or_none (key a))
  then emit (ParserError "Can't use multiple paths to roll simultaneously and --key") ;;;
       ret 2%Z
  else
    let reviewers := parse_reviewers (reviewer a) in
    gclient_root <- gclient ["root"] ;;
    current_dir <- ask getcwd ;;
    early <- try_except
               (main_try a gclient_root current_dir reviewers ;;; ret None)
               main_except ;;
    match early with
    | Some code => ret code
    | None => main_epilogue reviewers
    end.

(** *** Runs and their events *)

Definition events_of {A} (m : M A) (w : world) : list event := (m w).2.
Definition result_of {A} (m : M A) (w : world) : result A := (m w).1.1.

(** Every event of every run of [m] satisfies [P]. *)
Definition emits {A} (P : event → Prop) (m : M A) : Prop :=
  ∀ w, Forall P (events_of m w).

(** Neither a checkout nor a commit. *)
Definition quiet (e : event) : Prop := is_checkout e = false ∧ is_commit e = false.

Definition is_called_process_error {A} (r : result A) : Prop :=
  ∃ rc argv, r = Raise (CalledProcessError rc argv).

(** A run in which a checkout fails ends with [CalledProcessError] and holds
    no commit. *)
Definition guarded {A} (m : M A) : Prop :=
  ∀ w, Exists (λ e, is_checkout e = true ∧ failed e = true) (events_of m w) →
       is_called_process_error (result_of m w)
       ∧ Forall (λ e, is_commit e = false) (events_of m w).

End Script.

(** ** A small host to run the script on

    One gclient root, [/w], with the dependencies [a] and [b].  The
    revisions that DEPS pins and the ones at the tip of each remote, whether
    the root has a .gitmodules file and which checkouts fail are the
    parameters of a scenario. *)

Module Demo.

Record scenario : Type := {
  pinned : string → string;       (* gclient getdep -r <dependency> *)
  tip : string → string;          (* git rev-parse, by directory *)
  has_gitmodules : bool;
  checkout_fails : string → bool; (* by directory *)
  git_log : string;
}.

Definition answer (sc : scenario) (argv : list string) (cwd : option string)
    : Z * string :=
  let dir := default "" cwd in
  let arg (i : nat) (x : string) := String.eqb (nth i argv "") x in
  if arg 2 "root" then (0%Z, "/w" +:+ NL)
  else if arg 2 "getdep" then (0%Z, pinned sc (nth 4 argv "") +:+ NL)
  else if arg 1 "rev-parse" then (0%Z, tip sc dir +:+ NL)
  else if arg 1 "config" then (0%Z, "https://example.com" +:+ dir +:+ NL)
  else if arg 1 "log" then (0%Z, git_log sc)
  else if arg 1 "checkout" then (if checkout_fails sc dir then 1%Z else 0%Z, "")
  else (0%Z, "").

Definition host (sc : scenario) : Host := {|
  world := unit;
  spawn := λ w argv cwd, (w, answer sc argv cwd);
  isdir := λ _ d, String.eqb d "/w/a" || String.eqb d "/w/b";
  isfile := λ _ f, has_gitmodules sc && String.eqb f "/w/.gitmodules";
  getcwd := λ _, "/w";
  mktemp := λ w _, (w, "/tmp/msg");
  unlink := λ w _, w;
  executable := "python3";
  GCLIENT_PATH := "/depot_tools/gclient.py";
  path_join := λ a b, a +:+ "/" +:+ b;
  normpath := λ p, p;
|}.

Definition plain : scenario := {|
  pinned := λ d, if String.eqb d "a" then "ffff0000" else "0000ffff";
  tip := λ d, if String.eqb d "/w/a" then "11112222" else "33334444";
  has_gitmodules := false;
  checkout_fails := λ _, false;
  git_log := "2020-01-02 joe@chromium.org Fix it" +:+ NL;
|}.

(** [a] is already at the tip of its remote, [b] is not. *)
Definition stale : scenario := {|
  pinned := λ d, if String.eqb d "a" then "aaaa1111" else "0000ffff";
  tip := λ d, if String.eqb d "/w/a" then "aaaa1111" else "33334444";
  has_gitmodules := false;
  checkout_fails := λ _, false;
  git_log := "2020-01-02 joe@chromium.org Fix it" +:+ NL;
|}.

(** The root has a .gitmodules file. *)
Definition submoduled : scenario := {|
  pinned := pinned plain;
  tip := tip plain;
  has_gitmodules := true;
  checkout_fails := λ _, false;
  git_log := git_log plain;
|}.

(** The checkout of [a] fails. *)
Definition broken : scenario := {|
  pinned := pinned plain;
  tip := tip plain;
  has_gitmodules := false;
  checkout_fails := λ d, String.eqb d "/w/a";
  git_log := git_log plain;
|}.

Definition sample_log : string :=
  "2020-01-02 joe@chromium.org Fix it" +:+ NL
  +:+ "2020-01-03 ann@chromium.org More" +:+ NL.

Definition five_entries : string :=
  "2020-01-05 a@x.org five" +:+ NL +:+ "2020-01-04 b@x.org four" +:+ NL
  +:+ "2020-01-03 c@x.org three" +:+ NL +:+ "2020-01-02 d@x.org two" +:+ NL
  +:+ "2020-01-01 e@x.org one" +:+ NL.

Definition cli (paths : list string) : args := {|
  ignore_dirty_tree := false;
  reviewer := Some ["joe"; "jane@example.com"];
  bug := None;
  no_log := false;
  log_limit := 100;
  roll_to := "origin/HEAD";
  key := [];
  dep_path := paths;
|}.

End Demo.

(** ** More of the script and of its runs *)

Section Outcomes.
Context `{H : Host}.

(** [return_code(argv, cwd=cwd)]: the return code, whatever it is, the
    output being discarded.  No function of the script calls it. *)
Definition return_code (argv : list string) (cwd : option string) : M Z :=
  bind (call argv cwd) (λ r, ret r.1).

(** Every exception that a run of [m] raises satisfies [P]. *)
Definition raises {A} (P : exn → Prop) (m : M A) : Prop :=
  ∀ w e, result_of m w = Raise e → P e.

(** A run of [m] that returns has seen no command fail. *)
Definition succeeds_clean {A} (m : M A) : Prop :=
  ∀ w a, result_of m w = Ok a → Forall (λ e, failed e = false) (events_of m w).

(** A run of [m] that returns has run a commit, with success. *)
Definition commits_on_success {A} (m : M A) : Prop :=
  ∀ w a, result_of m w = Ok a →
         Exists (λ e, is_commit e = true ∧ failed e = false) (events_of m w).

(** The exceptions of class [Error], which [main] reports, and the others. *)
Definition is_error (e : exn) : Prop :=
  match e with Error _ | AlreadyRolledError _ => True | _ => False end.

Definition not_error (e : exn) : Prop :=
  match e with Error _ | AlreadyRolledError _ => False | _ => True end.

(** The commands of the first part of [main], which reads and fetches:
    gclient root and getdep, git diff, fetch, remote and rev-parse.  What is
    printed counts too; the temporary file does not. *)
Definition is_gathering (e : event) : bool :=
  match e with
  | Exec argv None _ =>
      String.eqb (nth 0 argv "") executable
      && String.eqb (nth 1 argv "") GCLIENT_PATH
      && (String.eqb (nth 2 argv "") "root" || String.eqb (nth 2 argv "") "getdep")
  | Exec argv (Some _) _ =>
      String.eqb (nth 0 argv "") "git"
      && (String.eqb (nth 1 argv "") "diff" || String.eqb (nth 1 argv "") "fetch"
          || String.eqb (nth 1 argv "") "remote"
          || String.eqb (nth 1 argv "") "rev-parse")
  | Stdout _ | Stderr _ | ParserError _ => true
  | WriteTemp _ _ | Remove _ => false
  end.

(** An error reported to the user: the line of [main]'s handler or the
    report of [parser.error]. *)
Definition is_report (e : event) : bool :=
  match e with Stderr _ | ParserError _ => true | _ => false end.

(** The commands that only read or fetch: those of the first part and the
    two of [generate_commit_message]. *)
Definition is_reading (e : event) : bool :=
  is_gathering e
  || match e with
     | Exec argv (Some _) _ =>
         String.eqb (nth 0 argv "") "git"
         && (String.eqb (nth 1 argv "") "config" || String.eqb (nth 1 argv "") "log")
     | _ => false
     end.

(** Events in two stages: reads, then nothing or gclient setdep and what
    follows it; after a setdep that fails nothing follows and [stopped]
    holds. *)
Definition staged (stopped : Prop) (ev : list event) : Prop :=
  ∃ reads tail,
    ev = reads ++ tail
    ∧ Forall (λ e, is_reading e = true) reads
    ∧ (tail = []
       ∨ ∃ args rc rest,
           tail = Exec (executable :: GCLIENT_PATH :: "setdep" :: args) None rc :: rest
           ∧ (rc ≠ 0%Z → rest = [] ∧ stopped)).

(** The end of the [try] block of [main], lines 301 to 313, with [rolls] as
    the first loop leaves it. *)
Definition main_rest (a : args) (current_dir : string)
    (reviewers : option (list string)) (rolls : dict roll) : M unit :=
  bind (for_fold (Py.sorted item_ltb (dict_items rolls)) ([], []) (log_step a))
    (λ r, let '(logs, setdep_args) := r in
          bind (gclient ("setdep" :: setdep_args))
            (λ _, finalize (gen_commit_msg logs (cmdline_of a) reviewers (bug a))
                    current_dir rolls)).

(** No [AlreadyRolledError]. *)
Definition not_already_rolled (e : exn) : Prop :=
  match e with AlreadyRolledError _ => False | _ => True end.

End Outcomes.

(** An entry of [rolls] after the first loop over [deps]: a path of [deps]
    with two different revisions. *)
Definition planned (deps : list string) (item : string * roll) : Prop :=
  item.1 ∈ deps ∧ item.2.1.1 ≠ item.2.1.2.



(** ** Hosts with one answer changed *)

Module Cases.

Definition host_with (sc : Demo.scenario)
    (override : list string → option (Z * string)) : Host := {|
  world := unit;
  spawn := λ w argv cwd, (w, default (Demo.answer sc argv cwd) (override argv));
  isdir := @isdir (Demo.host sc);
  isfile := @isfile (Demo.host sc);
  getcwd := @getcwd (Demo.host sc);
  mktemp := @mktemp (Demo.host sc);
  unlink := @unlink (Demo.host sc);
  executable := @executable (Demo.host sc);
  GCLIENT_PATH := @GCLIENT_PATH (Demo.host sc);
  path_join := @path_join (Demo.host sc);
  normpath := @normpath (Demo.host sc);
|}.

(** git diff shows a change in DEPS. *)
Definition dirty : Host :=
  host_with Demo.plain
    (λ argv, if String.eqb (nth 1 argv "") "diff"
             then Some (0%Z, "diff --git a/DEPS b/DEPS" +:+ NL) else None).

(** DEPS pins no revision: gclient getdep prints an empty line. *)
Definition unpinned : Host :=
  host_with Demo.plain
    (λ argv, if String.eqb (nth 2 argv "") "getdep"
             then Some (0%Z, NL) else None).

(** [a] and [b] are both at the tip of their remotes. *)
Definition settled : Demo.scenario := {|
  Demo.pinned := λ d, if String.eqb d "a" then "aaaa1111" else "bbbb2222";
  Demo.tip := λ d, if String.eqb d "/w/a" then "aaaa1111" else "bbbb2222";
  Demo.has_gitmodules := false;
  Demo.checkout_fails := λ _, false;
  Demo.git_log := "";
|}.

End Cases.

(** ** Reference definitions

    What the specification says in words, to compare the code with. *)

(** A reviewer without a domain gets the default one; any other reviewer
    is left as it is. *)
Definition with_default_domain (r : string) : string :=
  if Py.contains "@" r then r else r +:+ "@chromium.org".

(** Every character of a string is in a class. *)
Fixpoint str_forall (p : ascii → bool) (s : string) : bool :=
  match s with
  | "" => true
  | String c s' => p c && str_forall p s'
  end.

(** A URL on a googlesource.com host: "https://", a host name that ends
    with ".googlesource.com", then "/". *)
Definition googlesource_url (url : string) : Prop :=
  ∃ host rest,
    url = "https://" +:+ host +:+ ".googlesource.com/" +:+ rest
    ∧ Py.contains "/" host = false.

(** A URL on github.com. *)
Definition github_url (url : string) : Prop :=
  ∃ rest, url = "https://github.com/" +:+ rest.

(** A log entry holds no line break. *)
Definition no_linebreak (l : string) : Prop :=
  str_forall (λ c, negb (Py.is_linebreak c)) l = true.

(** An entry as a line of the message. *)
Definition line (l : string) : string := l +:+ NL.

(** What a checkout of an entry of [rolls] looks like in the events. *)
Definition target (r : roll) : string * option string :=
  let '(_head, roll_to, full_dir) := r in (roll_to, Some full_dir).

(** *** The patterns, in words *)

(** The texts that a pattern matches, without the engine: [pre] is matched
    when [prev] is the character before it and [post] the text after it. *)
Fixpoint lang (multiline : bool) (r : Re.regex) (prev : option ascii)
    (pre post : string) : Prop :=
  match r with
  | Re.Lit l => pre = l
  | Re.Class p => ∃ c, pre = String c "" ∧ p c = true
  | Re.Star p => str_forall p pre = true
  | Re.Plus p => pre ≠ "" ∧ str_forall p pre = true
  | Re.Cat r1 r2 =>
      ∃ a b, pre = a +:+ b
             ∧ lang multiline r1 prev a (b +:+ post)
             ∧ lang multiline r2 (Re.last_char a prev) b post
  | Re.Alt r1 r2 => lang multiline r1 prev pre post ∨ lang multiline r2 prev pre post
  | Re.Group r0 => lang multiline r0 prev pre post
  | Re.Bol => pre = "" ∧ Re.at_bol multiline prev = true
  | Re.Eol => pre = "" ∧ Re.at_eol multiline post = true
  end.

(** A continuation that succeeds or fails whatever the groups are. *)
Definition blind {A} (k : Re.cont A) : Prop :=
  ∀ prev s caps caps', is_Some (k prev s caps) → is_Some (k prev s caps').

(** A date as git prints it with --date=short. *)
Definition date_shape (d : string) : Prop :=
  ∃ y1 y2 y3 y4 m1 m2 d1 d2,
    d = String y1 (String y2 (String y3 (String y4 (String "-"
          (String m1 (String m2 (String "-" (String d1 (String d2 "")))))))))
    ∧ forallb Re.digit [y1; y2; y3; y4; m1; m2; d1; d2] = true.

(** One character or more, all of a class. *)
Definition word (p : ascii → bool) (s : string) : Prop :=
  s ≠ "" ∧ str_forall p s = true.

(** The two subjects of automatic rolls. *)
Definition roll_subject (subject : string) : Prop :=
  (∃ path old new n,
     subject = "Roll " +:+ path +:+ " " +:+ old +:+ ".." +:+ new
               +:+ " (" +:+ n +:+ " commits)"
     ∧ word (Re.not_char " ") path ∧ word Re.hex_lower old
     ∧ word Re.hex_lower new ∧ word Re.digit n)
  ∨ subject = "Roll recipe dependencies (trivial).".

(** A log line "<date> <author> <subject>" of an automatic roll. *)
Definition roll_line (l : string) : Prop :=
  ∃ date author subject,
    l = date +:+ " " +:+ author +:+ " " +:+ subject
    ∧ date_shape date ∧ word (Re.not_char " ") author ∧ roll_subject subject.

(** A log entry as git prints it with the format of line 124, and the same
    entry without the domain of the author. *)
Record entry : Type := {
  entry_date : string;
  entry_user : string;
  entry_domain : string;
  entry_subject : string;
}.

Definition printed (e : entry) : string :=
  entry_date e +:+ " " +:+ entry_user e +:+ "@" +:+ entry_domain e
    +:+ " " +:+ entry_subject e.

Definition shortened (e : entry) : string :=
  entry_date e +:+ " " +:+ entry_user e +:+ " " +:+ entry_subject e.

Definition well_formed (e : entry) : Prop :=
  date_shape (entry_date e) ∧ word (Re.not_char "@") (entry_user e)
  ∧ word (Re.not_char " ") (entry_domain e)
  ∧ str_forall (Re.not_char Py.LF) (entry_subject e) = true.

(** An entry on one line, with a subject that is not empty and does not end
    with white space. *)
Definition tidy (e : entry) : Prop :=
  no_linebreak (entry_user e) ∧ no_linebreak (entry_subject e)
  ∧ entry_subject e ≠ "" ∧ Py.rstrip (entry_subject e) = entry_subject e.

(** Two commits as git prints them when the first author has a mail address
    without "@" and its subject ends with a word that holds one. *)
Definition merged_log : string :=
  "2020-01-02 build Bump lodash@4.17.21" +:+ NL
  +:+ "2020-01-01 ann@y.org More" +:+ NL.

(** The same forms with any character for a digit: ten characters with "-"
    in the fifth and the eighth place for the date, any text that is not
    empty for the number of commits. *)
Definition date_like (d : string) : Prop :=
  ∃ y1 y2 y3 y4 m1 m2 d1 d2,
    d = String y1 (String y2 (String y3 (String y4 (String "-"
          (String m1 (String m2 (String "-" (String d1 (String d2 ""))))))))).

Definition roll_subject_like (subject : string) : Prop :=
  (∃ path old new n,
     subject = "Roll " +:+ path +:+ " " +:+ old +:+ ".." +:+ new
               +:+ " (" +:+ n +:+ " commits)"
     ∧ word (Re.not_char " ") path ∧ word Re.hex_lower old
     ∧ word Re.hex_lower new ∧ n ≠ "")
  ∨ subject = "Roll recipe dependencies (trivial).".

Definition roll_line_like (l : string) : Prop :=
  ∃ date author subject,
    l = date +:+ " " +:+ author +:+ " " +:+ subject
    ∧ date_like date ∧ word (Re.not_char " ") author ∧ roll_subject_like subject.

(** * Properties *)

Example ex_splitlines :
  Py.splitlines false ("a" +:+ NL +:+ String Py.CR (String Py.LF "b")) = ["a"; ""; "b"].
Proof. reflexivity. Qed.

Example ex_roll_subject :
  map roll_subject_match
    ["2020-01-02 bot Roll src/foo abc123..def456 (12 commits)";
     "2020-01-02 bot Roll recipe dependencies (trivial).";
     "2020-01-02 joe Roll src/foo abc123..def456 (1 commit)";
     "2020-01-02 joe Fix the frobnicator"]
  = [true; true; false; false].
Proof. reflexivity. Qed.

Example ex_strip_author_domain :
  strip_author_domain
    ("2020-01-02 joe@chromium.org Fix it" +:+ NL +:+ "2020-01-03 bot@x.y Roll a@b")
  = "2020-01-02 joe Fix it" +:+ NL +:+ "2020-01-03 bot Roll a@b".
Proof. reflexivity. Qed.

Example ex_googlesource :
  map (Re.matches false GOOGLESOURCE)
    ["https://chromium.googlesource.com/v8/v8.git";
     "https://github.com/a/b.googlesource.com/";
     "https://.googlesource.com/"; "http://a.googlesource.com/"]
  = [true; false; true; false].
Proof. reflexivity. Qed.

Example ex_get_log_url :
  get_log_url "https://github.com/foo/bar.git/" "0123456789abcdef" "fedcba9876543210"
  = Some "https://github.com/foo/bar/compare/0123456789ab...fedcba987654".
Proof. reflexivity. Qed.

Example ex_commit_message :
  commit_message "src/foo" "0123456789abcdef" "fedcba9876543210" false 1
    "https://example.com/foo.git"
    ("2020-01-02 joe@chromium.org Fix it" +:+ NL +:+
     "2020-01-02 bot@x.y Roll recipe dependencies (trivial)." +:+ NL +:+
     "2020-01-03 ann@x.y One" +:+ NL +:+ "2020-01-04 bob@x.y Two" +:+ NL)
  = "Roll src/foo/ 012345678..fedcba987 (4 commits; 1 trivial rolls)" +:+ NL +:+ NL +:+
    "$ git log 012345678..fedcba987 --date=short --no-merges --format='%ad %ae %s'" +:+ NL +:+
    "(...)" +:+ NL +:+ "2020-01-04 bob Two" +:+ NL.
Proof. vm_compute. reflexivity. Qed.

(** ** Strings *)

Section StringFacts.
Implicit Types s t u : string.

Lemma sapp_nil_r s : s +:+ "" = s.
Proof. induction s; simpl; congruence. Qed.

Lemma sapp_cons (c : ascii) s t : String c s +:+ t = String c (s +:+ t).
Proof. reflexivity. Qed.

Lemma sapp_assoc s t u : (s +:+ t) +:+ u = s +:+ t +:+ u.
Proof. induction s; simpl; congruence. Qed.

Lemma sapp_length s t :
  String.length (s +:+ t) = String.length s + String.length t.
Proof. induction s; simpl; congruence. Qed.

Lemma ascii_eqb_true (a b : ascii) : Py.ascii_eqb a b = true ↔ a = b.
Proof. apply Ascii.eqb_eq. Qed.

Lemma strip_prefix_Some p s r : Py.strip_prefix p s = Some r ↔ s = p +:+ r.
Proof.
  revert s. induction p as [|a p IH]; intros s; simpl.
  - split; congruence.
  - destruct s as [|b s]; [split; discriminate|].
    destruct (Py.ascii_eqb a b) eqn:E.
    + apply ascii_eqb_true in E as ->. rewrite IH. split; congruence.
    + split; [discriminate|]. intros [= -> _].
      unfold Py.ascii_eqb in E. by rewrite Ascii.eqb_refl in E.
Qed.

Lemma startswith_true p s : Py.startswith p s = true ↔ ∃ r, s = p +:+ r.
Proof.
  unfold Py.startswith. destruct (Py.strip_prefix p s) as [r|] eqn:E.
  - apply strip_prefix_Some in E. split; eauto.
  - split; [discriminate|]. intros [r Hr].
    apply strip_prefix_Some in Hr. congruence.
Qed.

Lemma stake_app_length s t : Py.take (String.length s) (s +:+ t) = s.
Proof. induction s; simpl; [by destruct t|congruence]. Qed.

Lemma sdrop_app_length s t : Py.drop (String.length s) (s +:+ t) = t.
Proof. induction s; simpl; [by destruct t|congruence]. Qed.

Lemma stake_sdrop n s : Py.take n s +:+ Py.drop n s = s.
Proof.
  revert s. induction n as [|n IH]; intros [|c s]; simpl; try done.
  by rewrite IH.
Qed.

Lemma stake_length n s : String.length (Py.take n s) = n `min` String.length s.
Proof.
  revert s. induction n as [|n IH]; intros [|c s]; simpl; try done.
  by rewrite IH.
Qed.

Lemma endswith_true p s : Py.endswith p s = true ↔ ∃ r, s = r +:+ p.
Proof.
  unfold Py.endswith. rewrite andb_true_iff, Nat.leb_le, String.eqb_eq. split.
  - intros [_ E]. exists (Py.take (String.length s - String.length p) s).
    rewrite <- E at 2. by rewrite stake_sdrop.
  - intros [r ->]. rewrite sapp_length. split; [lia|].
    replace (_ + _ - _) with (String.length r) by lia.
    apply sdrop_app_length.
Qed.

Lemma contains_true sub s :
  Py.contains sub s = true ↔ ∃ a b, s = a +:+ sub +:+ b.
Proof.
  induction s as [|c s IH]; simpl.
  - split.
    + destruct sub; [|discriminate]. by exists "", "".
    + intros ([|??] & b & E); destruct sub; simpl in E; done.
  - rewrite orb_true_iff, IH, startswith_true. split.
    + intros [[r ->]|(a & b & ->)]; [by exists "", r|by exists (String c a), b].
    + intros ([|c' a] & b & E); simpl in E.
      * left. eauto.
      * injection E as -> ->. right. eauto.
Qed.
End StringFacts.

Ltac str_norm :=
  repeat (progress (cbn [String.append]; rewrite ?sapp_assoc)).

(** ** Reviewers *)

Lemma default_domain_loop (pre post : list string) :
  fold_left default_domain_at (List.seq (length pre) (length post)) (pre ++ post)
  = pre ++ map with_default_domain post.
Proof.
  revert pre. induction post as [|r post IH]; intros pre; simpl; [done|].
  assert (default_domain_at (pre ++ r :: post) (length pre)
          = (pre ++ [with_default_domain r]) ++ post) as ->.
  { unfold default_domain_at, with_default_domain.
    rewrite list_lookup_middle by done.
    destruct (Py.contains "@" r); simpl.
    - by rewrite <- app_assoc.
    - rewrite insert_app_r_alt by done. rewrite Nat.sub_diag. simpl.
      by rewrite <- app_assoc. }
  replace (S (length pre)) with (length (pre ++ [with_default_domain r]))
    by (rewrite length_app; simpl; lia).
  rewrite IH. by rewrite <- app_assoc.
Qed.

Lemma split_join (c : ascii) (s : string) :
  Py.join (String c "") (Py.split c s) = s.
Proof.
  induction s as [|a s IH]; simpl; [done|].
  destruct (Py.ascii_eqb a c) eqn:E.
  - apply ascii_eqb_true in E as ->.
    destruct (Py.split c s) as [|h t] eqn:Es; simpl in *; [by subst|].
    by rewrite IH.
  - destruct (Py.split c s) as [|h t] eqn:Es; simpl in *; [by subst|].
    destruct t; simpl in *; by rewrite <- IH.
Qed.

Lemma contains_char_cons (c a : ascii) (s : string) :
  Py.ascii_eqb a c = false →
  Py.contains (String c "") (String a s) = Py.contains (String c "") s.
Proof.
  intros E. simpl. unfold Py.startswith. simpl.
  unfold Py.ascii_eqb in *. by rewrite Ascii.eqb_sym, E.
Qed.

Lemma split_no_sep (c : ascii) (s : string) :
  Forall (λ piece, Py.contains (String c "") piece = false) (Py.split c s).
Proof.
  induction s as [|a s IH]; simpl.
  - by repeat constructor.
  - destruct (Py.ascii_eqb a c) eqn:E; [by constructor|].
    destruct (Py.split c s) as [|h t].
    + repeat constructor. by rewrite contains_char_cons.
    + inversion_clear IH. constructor; [|done]. by rewrite contains_char_cons.
Qed.

Lemma split_nonempty (c : ascii) (s : string) : Py.split c s ≠ [].
Proof.
  destruct s as [|a s]; simpl; [done|].
  destruct (Py.ascii_eqb a c); [done|]. by destruct (Py.split c s).
Qed.

Lemma join_app (sep : string) (l1 l2 : list string) :
  l1 ≠ [] → l2 ≠ [] →
  Py.join sep (l1 ++ l2) = Py.join sep l1 +:+ sep +:+ Py.join sep l2.
Proof.
  intros H1 H2. induction l1 as [|x l1 IH]; [done|].
  destruct l1 as [|y l1].
  - simpl. by destruct l2.
  - change (x +:+ sep +:+ Py.join sep ((y :: l1) ++ l2)
            = (x +:+ sep +:+ Py.join sep (y :: l1)) +:+ sep +:+ Py.join sep l2).
    rewrite IH by done. by rewrite !sapp_assoc.
Qed.

Lemma flatten_reviewers_nonempty (first : string) (more : list string) :
  flatten_reviewers (first :: more) ≠ [].
Proof.
  unfold flatten_reviewers. simpl.
  pose proof (split_nonempty "," first). by destruct (Py.split "," first).
Qed.

Lemma flatten_reviewers_join (l : list string) :
  l ≠ [] → Py.join "," (flatten_reviewers l) = Py.join "," l.
Proof.
  induction l as [|x l IH]; [done|]. intros _.
  destruct l as [|y l].
  - unfold flatten_reviewers. simpl. rewrite app_nil_r. apply split_join.
  - change (flatten_reviewers (x :: y :: l))
      with (Py.split "," x ++ flatten_reviewers (y :: l)).
    rewrite join_app by auto using split_nonempty, flatten_reviewers_nonempty.
    rewrite IH by done. by rewrite (split_join "," x).
Qed.

(** C7: the reviewer arguments are cut at every comma (the pieces, joined
    by commas again, are the arguments joined by commas, and no piece holds
    a comma); a piece without "@" gets "@chromium.org" appended and any
    other piece is unchanged; the message ends with the line "R=" and the
    reviewers separated by commas, which for joe and jane@example.com is
    R=joe@chromium.org,jane@example.com. *)
Theorem reviewers_default_domain (first : string) (more : list string) :
  let pieces := flatten_reviewers (first :: more) in
  Py.join "," pieces = Py.join "," (first :: more)
  ∧ Forall (λ piece, Py.contains "," piece = false) pieces
  ∧ parse_reviewers (Some (first :: more)) = Some (map with_default_domain pieces)
  ∧ (∀ logs cmdline,
       gen_commit_msg logs cmdline (parse_reviewers (Some (first :: more))) None
       = gen_commit_msg logs cmdline None None
         +:+ "R=" +:+ Py.join "," (map with_default_domain pieces) +:+ NL)
  ∧ (∀ logs cmdline,
       gen_commit_msg logs cmdline
         (parse_reviewers (Some ["joe"; "jane@example.com"])) None
       = gen_commit_msg logs cmdline None None
         +:+ "R=joe@chromium.org,jane@example.com" +:+ NL).
Proof.
  intros pieces.
  assert (parse_reviewers (Some (first :: more))
          = Some (map with_default_domain pieces)) as Hparse.
  { unfold parse_reviewers. fold pieces.
    pose proof (default_domain_loop [] pieces) as E. simpl in E. by rewrite E. }
  split_and!.
  - by apply flatten_reviewers_join.
  - unfold pieces, flatten_reviewers. apply Forall_concat, Forall_map.
    apply Forall_forall. intros s _. apply split_no_sep.
  - done.
  - intros logs cmdline. rewrite Hparse. unfold gen_commit_msg. simpl Py.truthy.
    cbv iota. rewrite !sapp_nil_r.
    pose proof (flatten_reviewers_nonempty first more) as Hne. fold pieces in Hne.
    destruct pieces as [|p ps]; [done|]. by simpl map.
  - intros logs cmdline. unfold gen_commit_msg. simpl Py.truthy. cbv iota.
    by rewrite !sapp_nil_r.
Qed.

(** ** The header and the aggregated message *)

Lemma commit_message_parts dep head roll_to no_log limit url git_log :
  commit_message dep head roll_to no_log limit url git_log
  = header dep head roll_to (log_lines git_log) (clean_lines (log_lines git_log))
    +:+ log_section_head (get_log_url url head roll_to) head roll_to
    +:+ (if negb no_log && should_show_log url
         then trim_logs limit (clean_lines (log_lines git_log)) else "").
Proof.
  unfold commit_message. destruct (negb no_log && should_show_log url); [done|].
  by rewrite sapp_nil_r.
Qed.

Lemma clean_lines_count (lines : list string) :
  length (List.filter roll_subject_match lines) + length (clean_lines lines)
  = length lines.
Proof.
  unfold clean_lines. induction lines as [|l lines IH]; simpl; [done|].
  destruct (roll_subject_match l); simpl; lia.
Qed.

(** The message of a dependency starts with the header
    "Roll <dependency>/ <old>..<new> (<n> commit[s][; <k> trivial rolls])"
    and an empty line, where <old> and <new> are the first 9 characters of
    the two revisions, n is the number of lines of the log after the
    substitution of line 126 and k the number of them that [_ROLL_SUBJECT]
    matches; "commit" takes its "s" exactly when n > 1 and the trivial
    rolls are mentioned exactly when k is not 0. *)
Lemma header_format dep head roll_to no_log limit url git_log :
  let lines := log_lines git_log in
  let n := length lines in
  let k := length (List.filter roll_subject_match lines) in
  let short_old := Py.take 9 head in
  let short_new := Py.take 9 roll_to in
  let log_section :=
    log_section_head (get_log_url url head roll_to) head roll_to
    +:+ (if negb no_log && should_show_log url
         then trim_logs limit (clean_lines lines) else "") in
  commit_message dep head roll_to no_log limit url git_log
  = "Roll " +:+ dep +:+ "/ " +:+ short_old +:+ ".." +:+ short_new
    +:+ " (" +:+ Py.str_of_nat n +:+ " commit"
    +:+ (if decide (1 < n) then "s" else "")
    +:+ (if decide (k = 0) then ""
         else "; " +:+ Py.str_of_nat k +:+ " trivial rolls")
    +:+ ")" +:+ NL +:+ NL +:+ log_section
  ∧ n = k + length (clean_lines lines)
  ∧ (∃ rest, head = short_old +:+ rest)
  ∧ (∃ rest, roll_to = short_new +:+ rest)
  ∧ String.length short_old = 9 `min` String.length head
  ∧ String.length short_new = 9 `min` String.length roll_to.
Proof.
  intros lines n k short_old short_new log_section.
  pose proof (clean_lines_count lines) as Hk. fold n k in Hk.
  split_and!.
  - rewrite commit_message_parts. fold lines log_section. unfold header.
    fold n. replace (n - length (clean_lines lines)) with k by lia.
    unfold commit_range_for_header. fold short_old short_new.
    rewrite !sapp_assoc.
    destruct (decide (1 < n)) as [Hn|Hn].
    + apply Nat.ltb_lt in Hn as ->.
      destruct (decide (k = 0)) as [->|Hk0].
      * simpl negb. cbv iota. reflexivity.
      * apply Nat.eqb_neq in Hk0 as ->. simpl negb. cbv iota.
        rewrite !sapp_assoc. reflexivity.
    + apply Nat.ltb_nlt in Hn as ->.
      destruct (decide (k = 0)) as [->|Hk0].
      * simpl negb. cbv iota. reflexivity.
      * apply Nat.eqb_neq in Hk0 as ->. simpl negb. cbv iota.
        rewrite !sapp_assoc. reflexivity.
  - lia.
  - exists (Py.drop 9 head). symmetry. apply stake_sdrop.
  - exists (Py.drop 9 roll_to). symmetry. apply stake_sdrop.
  - apply stake_length.
  - apply stake_length.
Qed.

(** C9: the header does not always count the commits.  git log prints the
    two commits of [merged_log] on two lines; the substitution of line 126
    joins them, since its classes other than "@" and other than a space
    match a line feed too, and the header says 1 commit. *)
Theorem merged_lines_miscounted :
  Py.splitlines false (Py.rstrip merged_log)
  = ["2020-01-02 build Bump lodash@4.17.21"; "2020-01-01 ann@y.org More"]
  ∧ log_lines merged_log = ["2020-01-02 build Bump lodash ann@y.org More"]
  ∧ commit_message "a" "ffff0000" "11112222" false 100 "https://example.com/a"
      merged_log
    = "Roll a/ ffff0000..11112222 (1 commit)" +:+ NL +:+ NL
      +:+ "$ git log ffff0000..11112222 --date=short --no-merges --format='%ad %ae %s'"
      +:+ NL +:+ "2020-01-02 build Bump lodash ann@y.org More" +:+ NL.
Proof. vm_compute. split_and!; reflexivity. Qed.

(** C10: with two sections or more the commit message starts with the line
    "Rolling <N> dependencies" and an empty line, then the first section;
    with one section it starts with that section, hence with its header
    "Roll <dependency>/ " and not with a "Rolling" line. *)
Theorem gen_commit_msg_summary (cmdline : string)
    (reviewers : option (list string)) (bug : option string) :
  let tail := gen_commit_msg [] cmdline reviewers bug in
  (∀ first second more,
     gen_commit_msg (first :: second :: more) cmdline reviewers bug
     = "Rolling " +:+ Py.str_of_nat (length (first :: second :: more))
       +:+ " dependencies" +:+ NL +:+ NL
       +:+ first +:+ NL +:+ NL +:+ Py.join (NL +:+ NL) (second :: more) +:+ tail)
  ∧ (∀ only, gen_commit_msg [only] cmdline reviewers bug = only +:+ tail)
  ∧ (∀ dep head roll_to no_log limit url git_log,
       let msg := gen_commit_msg
                    [commit_message dep head roll_to no_log limit url git_log]
                    cmdline reviewers bug in
       Py.startswith ("Roll " +:+ dep +:+ "/ ") msg = true
       ∧ Py.startswith "Rolling " msg = false).
Proof.
  intros tail.
  assert (∀ only, gen_commit_msg [only] cmdline reviewers bug = only +:+ tail)
    as Hone.
  { intros only. unfold tail, gen_commit_msg.
    change (1 <? length [only]) with false.
    change (1 <? length (@nil string)) with false. cbv iota.
    change (Py.join (NL +:+ NL) [only]) with only.
    change (Py.join (NL +:+ NL) []) with "".
    rewrite !sapp_assoc. reflexivity. }
  split_and!.
  - intros first second more. unfold tail, gen_commit_msg.
    change (1 <? length (first :: second :: more)) with true.
    change (1 <? length (@nil string)) with false. cbv iota.
    change (Py.join (NL +:+ NL) (first :: second :: more))
      with (first +:+ (NL +:+ NL) +:+ Py.join (NL +:+ NL) (second :: more)).
    change (Py.join (NL +:+ NL) []) with "".
    rewrite !sapp_assoc. reflexivity.
  - done.
  - intros dep head roll_to no_log limit url git_log msg. unfold msg.
    rewrite Hone, commit_message_parts. unfold header. rewrite !sapp_assoc.
    split.
    + apply startswith_true.
      rewrite <- (sapp_assoc dep "/ "), <- (sapp_assoc "Roll " (dep +:+ "/ ")).
      eexists. reflexivity.
    + reflexivity.
Qed.

(** ** The URL of the log *)

Lemma star_is_Some {A} (p : ascii → bool) (s : string) prev caps (k : Re.cont A) :
  is_Some (Re.star p prev s caps k)
  ↔ ∃ pre post, s = pre +:+ post ∧ str_forall p pre = true
                ∧ is_Some (k (Re.last_char pre prev) post caps).
Proof.
  revert prev. induction s as [|c s IH]; intros prev; simpl.
  - split.
    + intros Hk. by exists "", "".
    + intros (pre & post & E & _ & Hk). by destruct pre, post.
  - destruct (p c) eqn:Hc.
    + transitivity (is_Some (Re.star p (Some c) s caps k) ∨ is_Some (k prev (String c s) caps)).
      { destruct (Re.star p (Some c) s caps k); [|by intuition; by destruct H0].
        split; eauto. }
      rewrite IH. split.
      * intros [(pre & post & -> & Hp & Hk)|Hk].
        -- exists (String c pre), post. simpl. by rewrite Hc.
        -- by exists "", (String c s).
      * intros ([|c' pre] & post & E & Hp & Hk); simpl in *.
        -- right. by subst.
        -- left. injection E as -> ->. apply andb_true_iff in Hp as [_ Hp]. eauto.
    + split.
      * intros Hk. by exists "", (String c s).
      * intros ([|c' pre] & post & E & Hp & Hk); simpl in *.
        -- by subst.
        -- injection E as -> ->. by rewrite Hc in Hp.
Qed.

Lemma str_forall_not_char (c : ascii) (s : string) :
  str_forall (Re.not_char c) s = negb (Py.contains (String c "") s).
Proof.
  induction s as [|a s IH]; simpl; [done|].
  unfold Py.startswith. simpl. unfold Re.not_char at 1.
  rewrite IH. unfold Py.ascii_eqb. rewrite (Ascii.eqb_sym c a).
  by destruct (Ascii.eqb a c), (Py.contains (String c "") s).
Qed.

Lemma googlesource_matches (url : string) :
  Re.matches false GOOGLESOURCE url = true ↔ googlesource_url url.
Proof.
  unfold Re.matches, Re.match_at, GOOGLESOURCE, googlesource_url. cbn [Re.seq Re.run].
  destruct (Py.strip_prefix "https://" url) as [s|] eqn:E.
  - apply strip_prefix_Some in E as ->.
    match goal with |- context [Re.star ?p ?prev ?s ?caps ?k] =>
      pose proof (star_is_Some p s prev caps k) as Hs;
      destruct (Re.star p prev s caps k) as [r|] end.
    + split; [intros _|done].
      assert (is_Some (Some r)) as Hr by done.
      apply Hs in Hr as (pre & post & -> & Hp & Hk).
      destruct (Py.strip_prefix ".googlesource.com/" post) as [rest|] eqn:E;
        [|by destruct Hk].
      apply strip_prefix_Some in E as ->. exists pre, rest. split; [done|].
      rewrite str_forall_not_char in Hp. by destruct (Py.contains "/" pre).
    + split; [done|]. intros (host & rest & E & Hh).
      apply String.app_inj in E as ->.
      assert (is_Some (@None (string * list string))) as [? [=]].
      apply Hs. exists host, (".googlesource.com/" +:+ rest). split_and!; [done| |].
      * rewrite str_forall_not_char. by rewrite Hh.
      * by rewrite (proj2 (strip_prefix_Some _ _ _) eq_refl).
  - split; [done|]. intros (host & rest & -> & _).
    by rewrite (proj2 (strip_prefix_Some _ _ _) eq_refl) in E.
Qed.

Lemma rstrip_of_split (p : ascii → bool) (s : string) :
  ∃ t, s = Py.rstrip_of p s +:+ t ∧ str_forall p t = true.
Proof.
  induction s as [|c s (t & E & Ht)]; simpl; [by exists ""|].
  destruct (Py.is_empty (Py.rstrip_of p s)) eqn:Hr, (p c) eqn:Hc; simpl.
  - exists (String c s). simpl. rewrite Hc. split; [done|].
    destruct (Py.rstrip_of p s); [|done]. simpl in E. by subst.
  - exists t. by rewrite <- E.
  - exists t. by rewrite <- E.
  - exists t. by rewrite <- E.
Qed.

Lemma rstrip_of_last (p : ascii → bool) (s r : string) (c : ascii) :
  Py.rstrip_of p s = r +:+ String c "" → p c = false.
Proof.
  revert r. induction s as [|a s IH]; intros r; simpl.
  - by destruct r.
  - destruct (Py.is_empty (Py.rstrip_of p s) && p a) eqn:E; [by destruct r|].
    destruct r as [|b r]; simpl.
    + intros [= -> Hr]. rewrite Hr in E. simpl in E. done.
    + intros [= -> Hr]. eauto.
Qed.

Lemma github_not_googlesource (url : string) :
  github_url url → ¬ googlesource_url url.
Proof.
  intros [rest ->] (host & rest' & E & Hh).
  do 8 (destruct host as [|? host]; [discriminate|];
        cbn [String.append] in E; injection E as <- E).
  revert Hh. repeat (destruct host as [|? host]; [discriminate|];
        cbn [String.append] in E; injection E as <- E); done.
Qed.

(** C8: [get_log_url] gives a URL exactly for the two known hosts, which
    exclude each other.  For a googlesource.com URL it is the URL itself
    followed by "/+log/<old>..<new>"; for a github.com URL the trailing
    slashes are removed first, then one ".git" suffix, and
    "/compare/<old>...<new>" is appended; for any other URL there is none.
    <old> and <new> are the first 12 characters of the two revisions. *)
Theorem get_log_url_cases (url head tot : string) :
  let h := Py.take 12 head in
  let t := Py.take 12 tot in
  (googlesource_url url ∧ ¬ github_url url
   ∧ get_log_url url head tot = Some (url +:+ "/+log/" +:+ h +:+ ".." +:+ t))
  ∨ (github_url url ∧ ¬ googlesource_url url
     ∧ ∃ stem slashes,
         url = stem +:+ slashes
         ∧ str_forall (Py.ascii_eqb "/") slashes = true
         ∧ Py.endswith "/" stem = false
         ∧ ((∃ repo, stem = repo +:+ ".git"
                     ∧ get_log_url url head tot
                       = Some (repo +:+ "/compare/" +:+ h +:+ "..." +:+ t))
            ∨ (Py.endswith ".git" stem = false
               ∧ get_log_url url head tot
                 = Some (stem +:+ "/compare/" +:+ h +:+ "..." +:+ t))))
  ∨ (¬ googlesource_url url ∧ ¬ github_url url
     ∧ get_log_url url head tot = None).
Proof.
  intros h t. unfold get_log_url. fold h t.
  destruct (Re.matches false GOOGLESOURCE url) eqn:Hg.
  { apply googlesource_matches in Hg. left. split_and!; [done| |done].
    intros Hh. by apply github_not_googlesource in Hh. }
  assert (¬ googlesource_url url) as Hng.
  { intros Hg'. apply googlesource_matches in Hg'. congruence. }
  destruct (Py.startswith "https://github.com/" url) eqn:Hh.
  - right; left. apply startswith_true in Hh. split_and!; [done..|].
    destruct (rstrip_of_split (Py.ascii_eqb "/") url) as (slashes & E & Hs).
    set (stem := Py.rstrip_of (Py.ascii_eqb "/") url) in *.
    exists stem, slashes. split_and!; [done..| |].
    + destruct (Py.endswith "/" stem) eqn:He; [|done].
      apply endswith_true in He as [r Hr].
      by apply rstrip_of_last in Hr.
    + destruct (Py.endswith ".git" stem) eqn:He; [|by right].
      left. apply endswith_true in He as [repo Hrepo]. exists repo.
      split; [done|]. rewrite Hrepo, sapp_length.
      replace (_ + _ - _) with (String.length repo) by (simpl; lia).
      by rewrite stake_app_length.
  - right; right. split_and!; [done| |done].
    intros Hh'. apply startswith_true in Hh'. congruence.
Qed.

Example get_log_url_github_example :
  get_log_url "https://github.com/foo/bar.git/" "0123456789abcdef" "fedcba9876543210"
  = Some "https://github.com/foo/bar/compare/0123456789ab...fedcba987654".
Proof. reflexivity. Qed.

(** ** The log section *)

Lemma should_show_log_false (url : string) :
  should_show_log url = false
  ↔ (∃ p, url = p +:+ "/v8/v8.git") ∨ (∃ p q, url = p +:+ "webrtc" +:+ q).
Proof.
  unfold should_show_log. rewrite <- endswith_true, <- contains_true.
  destruct (Py.endswith "/v8/v8.git" url), (Py.contains "webrtc" url);
    intuition congruence.
Qed.

(** C2, as stated, fails: with --no-log the message is not the header
    alone, the URL of the log and the git log command still follow it; only
    the entries of the log are left out.  The same holds for a URL that the
    exclusion rule catches. *)
Lemma no_log_keeps_url_and_command :
  let hdr := header "a" "ffff0000" "11112222" (log_lines Demo.sample_log)
               (clean_lines (log_lines Demo.sample_log)) in
  let shown := commit_message "a" "ffff0000" "11112222" false 100
                 "https://chromium.googlesource.com/a" Demo.sample_log in
  let hidden := commit_message "a" "ffff0000" "11112222" true 100
                  "https://chromium.googlesource.com/a" Demo.sample_log in
  let noisy := commit_message "v8" "ffff0000" "11112222" false 100
                 "https://chromium.googlesource.com/v8/v8.git" Demo.sample_log in
  hidden ≠ hdr
  ∧ hidden = hdr +:+ "https://chromium.googlesource.com/a/+log/ffff0000..11112222"
             +:+ NL +:+ NL
             +:+ "$ git log ffff0000..11112222 --date=short --no-merges --format='%ad %ae %s'"
             +:+ NL
  ∧ shown = hidden +:+ "2020-01-02 joe Fix it" +:+ NL +:+ "2020-01-03 ann More" +:+ NL
  ∧ noisy = "Roll v8/ ffff0000..11112222 (2 commits)" +:+ NL +:+ NL
            +:+ "https://chromium.googlesource.com/v8/v8.git/+log/ffff0000..11112222"
            +:+ NL +:+ NL
            +:+ "$ git log ffff0000..11112222 --date=short --no-merges --format='%ad %ae %s'"
            +:+ NL.
Proof. vm_compute. split_and!; [discriminate|reflexivity..]. Qed.

(** C2, amended: after the header come, always, the URL of the log when
    there is one and the git log command line, both with the range in its
    short form; the filtered entries of the log follow exactly when
    --no-log is not given and the URL neither ends with "/v8/v8.git" nor
    contains "webrtc".  The exclusion does not depend on the flag. *)
Theorem log_body_suppressed dep head roll_to no_log limit url git_log :
  let cleaned := clean_lines (log_lines git_log) in
  let range := commit_range head roll_to in
  let short := commit_range_for_header head roll_to in
  let log_url := get_log_url url head roll_to in
  let section_head :=
    Py.replace range short
      ((if Py.truthy log_url then default "" log_url +:+ NL +:+ NL else "")
       +:+ "$ git log " +:+ range +:+ " --date=short --no-merges"
       +:+ " --format='%ad %ae %s'" +:+ NL) in
  commit_message dep head roll_to no_log limit url git_log
  = header dep head roll_to (log_lines git_log) cleaned +:+ section_head
    +:+ (if negb no_log && should_show_log url then trim_logs limit cleaned else "")
  ∧ (should_show_log url = false
     ↔ (∃ p, url = p +:+ "/v8/v8.git") ∨ (∃ p q, url = p +:+ "webrtc" +:+ q))
  ∧ should_show_log "https://chromium.googlesource.com/v8/v8.git" = false.
Proof.
  intros cleaned range short log_url section_head. split_and!.
  - rewrite commit_message_parts. fold cleaned log_url. do 2 f_equal.
    unfold log_section_head, section_head, log_cmd. fold range short.
    f_equal. cbn [Py.join]. str_norm. reflexivity.
  - apply should_show_log_false.
  - reflexivity.
Qed.

(** ** The cap on the log *)

Lemma splitlines_no_linebreak (s : string) :
  Forall no_linebreak (Py.splitlines false s).
Proof.
  cut (Forall no_linebreak (Py.splitlines false s)
       ∧ ∀ c, Forall no_linebreak (Py.splitlines false (String c s))).
  { tauto. }
  induction s as [|d s [IH1 IH2]].
  - split; [constructor|]. intros c. simpl.
    destruct (Py.is_linebreak c) eqn:Hc; repeat constructor.
    unfold no_linebreak. simpl. by rewrite Hc.
  - split; [apply IH2|]. intros c.
    change (Py.splitlines false (String c (String d s))) with
      (if Py.is_linebreak c then
         if Py.ascii_eqb c Py.CR && Py.ascii_eqb d Py.LF
         then "" :: Py.splitlines false s
         else "" :: Py.splitlines false (String d s)
       else match Py.splitlines false (String d s) with
            | h :: t => String c h :: t
            | [] => [String c ""]
            end).
    destruct (Py.is_linebreak c) eqn:Hc.
    + destruct (_ && _); by constructor.
    + specialize (IH2 d). destruct (Py.splitlines false (String d s)) as [|h t].
      * repeat constructor. unfold no_linebreak. simpl. by rewrite Hc.
      * inversion_clear IH2. constructor; [|done].
        unfold no_linebreak in *. simpl. by rewrite Hc.
Qed.

Lemma splitlines_plain (k : bool) (c : ascii) (s : string) :
  Py.is_linebreak c = false →
  Py.splitlines k (String c s)
  = match Py.splitlines k s with
    | h :: t => String c h :: t
    | [] => [String c ""]
    end.
Proof. intros Hc. destruct s; simpl; by rewrite Hc. Qed.

Lemma splitlines_LF (k : bool) (s : string) :
  Py.splitlines k (String Py.LF s)
  = (if k then NL else "") :: Py.splitlines k s.
Proof. by destruct s. Qed.

Lemma splitlines_keep_line (l rest : string) :
  no_linebreak l →
  Py.splitlines true (l +:+ NL +:+ rest) = line l :: Py.splitlines true rest.
Proof.
  unfold no_linebreak, line. induction l as [|c l IH]; intros Hl.
  - apply splitlines_LF.
  - simpl in Hl. apply andb_true_iff in Hl as [Hc Hl].
    apply negb_true_iff in Hc. cbn [String.append].
    by rewrite splitlines_plain, IH.
Qed.

Lemma splitlines_keep_join (ls : list string) :
  ls ≠ [] → Forall no_linebreak ls →
  Py.splitlines true (Py.join NL ls +:+ NL) = map line ls.
Proof.
  intros Hne Hls. induction Hls as [|l ls Hl Hls IH]; [done|].
  destruct ls as [|l' ls].
  - cbn [Py.join map]. rewrite <- (sapp_nil_r NL) at 1.
    by rewrite splitlines_keep_line.
  - change (Py.join NL (l :: l' :: ls)) with (l +:+ NL +:+ Py.join NL (l' :: ls)).
    rewrite !sapp_assoc, splitlines_keep_line by done.
    by rewrite IH.
Qed.

Lemma join_lines (ls : list string) :
  ls ≠ [] → Py.join "" (map line ls) = Py.join NL ls +:+ NL.
Proof.
  intros Hne. induction ls as [|l ls IH]; [done|].
  destruct ls as [|l' ls]; [done|].
  change (line l +:+ "" +:+ Py.join "" (map line (l' :: ls))
          = (l +:+ NL +:+ Py.join NL (l' :: ls)) +:+ NL).
  rewrite IH by done. unfold line. by rewrite !sapp_assoc.
Qed.

Lemma floordiv_neg_half (n : Z) : Py.floordiv (- n) 2 = (- (n - n / 2))%Z.
Proof. unfold Py.floordiv. Z.to_euclidean_division_equations. lia. Qed.

Lemma trim_logs_short (limit : Z) (entries : list string) :
  (Z.of_nat (length entries) ≤ limit)%Z →
  trim_logs limit entries = Py.join NL entries +:+ NL.
Proof.
  intros Hle. unfold trim_logs.
  by destruct (Z.ltb_spec limit (Z.of_nat (length entries))); [lia|].
Qed.

Lemma trim_logs_long (limit : Z) (entries : list string) :
  (1 ≤ limit)%Z → (limit < Z.of_nat (length entries))%Z →
  Forall no_linebreak entries →
  trim_logs limit entries
  = Py.join NL (take (Z.to_nat (limit / 2)) entries ++ ["(...)"]
                ++ drop (length entries - Z.to_nat (limit - limit / 2)) entries)
    +:+ NL.
Proof.
  intros H1 Hlt Hnb. unfold trim_logs.
  destruct (Z.ltb_spec limit (Z.of_nat (length entries))); [|lia].
  assert (entries ≠ []) as Hne by (intros ->; simpl in *; lia).
  rewrite splitlines_keep_join by done.
  unfold Py.slice_to, Py.slice_from. rewrite floordiv_neg_half, length_map.
  unfold Py.floordiv.
  assert (0 ≤ limit / 2 ∧ limit / 2 < limit)%Z as [??]
    by (Z.to_euclidean_division_equations; lia).
  destruct (Z.ltb_spec (limit / 2) 0); [lia|].
  destruct (Z.ltb_spec (- (limit - limit / 2)) 0); [|lia].
  rewrite <- join_lines by (by intros [_ [=]]%app_eq_nil).
  rewrite !map_app, firstn_map, skipn_map. repeat f_equal. lia.
Qed.

Lemma clean_lines_no_linebreak (git_log : string) :
  Forall no_linebreak (clean_lines (log_lines git_log)).
Proof.
  unfold clean_lines, log_lines.
  pose proof (splitlines_no_linebreak (strip_author_domain (Py.rstrip git_log))) as Hs.
  induction Hs as [|l ls Hl Hls IH]; simpl; [constructor|].
  destruct (negb (roll_subject_match l)); [by constructor|done].
Qed.

(** C1: for a cap N >= 1 on a log that is shown, with L entries left
    after the filter.  If L > N the body is the first N/2 entries, one line
    "(...)" and the last N - N/2 entries, N entries in all (the odd one of
    an odd cap is in the tail).  If L <= N the body is all the entries and
    no "(...)" line. *)
Theorem log_limit_honoured dep head roll_to limit url git_log :
  (1 ≤ limit)%Z → should_show_log url = true →
  let entries := clean_lines (log_lines git_log) in
  let L := length entries in
  let first_half := Z.to_nat (limit / 2) in
  let last_half := Z.to_nat (limit - limit / 2) in
  let lead := header dep head roll_to (log_lines git_log) entries
              +:+ log_section_head (get_log_url url head roll_to) head roll_to in
  let kept := take first_half entries ++ ["(...)"] ++ drop (L - last_half) entries in
  ((limit < Z.of_nat L)%Z →
     commit_message dep head roll_to false limit url git_log
     = lead +:+ Py.join NL kept +:+ NL
     ∧ length (take first_half entries) = first_half
     ∧ length (drop (L - last_half) entries) = last_half
     ∧ Z.of_nat (first_half + last_half) = limit)
  ∧ ((Z.of_nat L ≤ limit)%Z →
       commit_message dep head roll_to false limit url git_log
       = lead +:+ Py.join NL entries +:+ NL).
Proof.
  intros Hlimit Hshow entries L first_half last_half lead kept.
  assert (0 ≤ limit / 2 ∧ limit / 2 < limit)%Z as [??]
    by (Z.to_euclidean_division_equations; lia).
  assert (commit_message dep head roll_to false limit url git_log
          = lead +:+ trim_logs limit entries) as ->.
  { rewrite commit_message_parts, Hshow. unfold lead. by rewrite sapp_assoc. }
  split.
  - intros Hlong. split_and!.
    + f_equal. apply trim_logs_long; [done..|apply clean_lines_no_linebreak].
    + rewrite length_take. unfold first_half, L in *. lia.
    + rewrite length_drop. unfold last_half, L in *. lia.
    + unfold first_half, last_half. lia.
  - intros Hshort. f_equal. by apply trim_logs_short.
Qed.

(** With a cap of 3 on five entries: one entry, the mark, two entries. *)
Lemma log_limit_honoured_odd_cap :
  commit_message "a" "ffff0000" "11112222" false 3 "https://example.com/a" Demo.five_entries
  = "Roll a/ ffff0000..11112222 (5 commits)" +:+ NL +:+ NL
    +:+ "$ git log ffff0000..11112222 --date=short --no-merges --format='%ad %ae %s'"
    +:+ NL
    +:+ "2020-01-05 a five" +:+ NL +:+ "(...)" +:+ NL
    +:+ "2020-01-02 d two" +:+ NL +:+ "2020-01-01 e one" +:+ NL.
Proof.
  destruct (log_limit_honoured "a" "ffff0000" "11112222" 3 "https://example.com/a"
              Demo.five_entries ltac:(lia) eq_refl) as [Hlong _].
  destruct Hlong as [-> _]; [by vm_compute|]. vm_compute. reflexivity.
Defined.

(** ** The order of [sorted] *)

Section SortedFacts.
Context {A : Type} (ltb : A → A → bool).
Hypothesis ltb_asym : ∀ x y, ltb x y = true → ltb y x = false.

Let not_after (x y : A) : Prop := ltb y x = false.

Lemma insert_sorted_perm (x : A) (l : list A) :
  Py.insert_sorted ltb x l ≡ₚ x :: l.
Proof.
  induction l as [|y l IH]; simpl; [done|].
  destruct (ltb y x); [|done]. rewrite IH. apply Permutation_swap.
Qed.

Lemma sorted_perm (l : list A) : Py.sorted ltb l ≡ₚ l.
Proof.
  induction l as [|x l IH]; simpl; [done|].
  by rewrite insert_sorted_perm, IH.
Qed.

Lemma insert_sorted_Sorted (x : A) (l : list A) :
  Sorted not_after l → Sorted not_after (Py.insert_sorted ltb x l).
Proof using ltb_asym.
  induction 1 as [|y l Hl IH Hy]; simpl; [by repeat constructor|].
  destruct (ltb y x) eqn:E.
  - constructor; [done|].
    destruct Hy as [|z l Hz]; simpl.
    + constructor. by apply ltb_asym.
    + destruct (ltb z x); constructor; [done|]. by apply ltb_asym.
  - by repeat constructor.
Qed.

Lemma sorted_Sorted (l : list A) : Sorted not_after (Py.sorted ltb l).
Proof using ltb_asym.
  induction l; simpl; [constructor|]. by apply insert_sorted_Sorted.
Qed.
End SortedFacts.

Lemma str_ltb_asym (x y : string) : Py.str_ltb x y = true → Py.str_ltb y x = false.
Proof.
  unfold Py.str_ltb, String.ltb. rewrite (String.compare_antisym x y).
  by destruct (String.compare y x).
Qed.

Lemma pair_ltb_asym {A B} (eqa lta : A → A → bool) (ltb : B → B → bool) :
  (∀ x y, eqa x y = eqa y x) →
  (∀ x y, lta x y = true → lta y x = false) →
  (∀ x y, ltb x y = true → ltb y x = false) →
  ∀ x y, Py.pair_ltb eqa lta ltb x y = true → Py.pair_ltb eqa lta ltb y x = false.
Proof.
  intros Heq Ha Hb x y. unfold Py.pair_ltb. rewrite (Heq y.1 x.1).
  destruct (eqa x.1 y.1); auto.
Qed.

Lemma roll_ltb_asym (x y : roll) : roll_ltb x y = true → roll_ltb y x = false.
Proof.
  apply pair_ltb_asym; [|apply pair_ltb_asym|]; auto using str_ltb_asym, String.eqb_sym.
  intros ??. unfold pair_eqb. by rewrite (String.eqb_sym x0.1), (String.eqb_sym x0.2).
Qed.

(** ** Runs of the script *)

Section Runs.
Context `{H : Host}.

(** C3: in a workspace with submodules (a .gitmodules file at the gclient
    root) [calculate_roll] does not give the revision of the submodule:
    the call of [get_submodule_rev] reads the unbound name
    [submodule_path] and the function ends with a NameError, before any
    git command. *)
Theorem calculate_roll_submoduled full_dir dependency roll_to w w' ev :
  is_submoduled w = (Ok true, w', ev) →
  calculate_roll full_dir dependency roll_to w
  = (Raise (NameError "submodule_path"), w', ev).
Proof.
  intros Hsub. unfold calculate_roll, bind. rewrite Hsub. cbn.
  by rewrite app_nil_r.
Qed.

Lemma sorted_singleton {A} (ltb : A → A → bool) (x : A) :
  Py.sorted ltb [x] = [x].
Proof. reflexivity. Qed.

Lemma checkouts_app (ev1 ev2 : list event) :
  checkouts (ev1 ++ ev2) = checkouts ev1 ++ checkouts ev2.
Proof. apply omap_app. Qed.

Lemma checkouts_cons (e : event) (ev : list event) :
  checkouts (e :: ev)
  = match checkout_of e with Some c => c :: checkouts ev | None => checkouts ev end.
Proof. reflexivity. Qed.

(** One checkout: the command, its event, and how it ends. *)
Lemma checkout_run (r : roll) (w : world) :
  ∃ w' rc,
    let argv := ["git"; "checkout"; "--quiet"; r.1.2] in
    checkout r w
    = (if (rc =? 0)%Z then Ok tt else Raise (CalledProcessError rc argv),
       w', [Exec argv (Some r.2) rc]).
Proof.
  destruct r as [[hd rt] dir]. unfold checkout, check_call, bind, call. simpl.
  destruct (spawn w _ _) as [w' [rc out]]. exists w', rc.
  destruct (rc =? 0)%Z; reflexivity.
Qed.

Lemma for_each_checkout (plan : list roll) (w : world) :
  let run := for_each plan checkout w in
  Forall (λ e, is_commit e = false) run.2
  ∧ ((run.1.1 = Ok tt ∧ Forall (λ e, failed e = false) run.2
      ∧ checkouts run.2 = map target plan)
     ∨ (is_called_process_error run.1.1
        ∧ checkouts run.2 `prefix_of` map target plan)).
Proof.
  revert w. induction plan as [|r plan IH]; intros w; simpl.
  { split; [constructor|]. left. by repeat split. }
  destruct (checkout_run r w) as (w' & rc & E). simpl in E.
  unfold bind. rewrite E.
  assert ((r.1.2, Some r.2) = target r) as Ht by (by destruct r as [[??]?]).
  destruct (Z.eqb_spec rc 0) as [Hrc|Hrc].
  - specialize (IH w'). destruct (for_each plan checkout w') as [[res w''] ev].
    simpl in *. destruct IH as [Hc IH]. split; [by constructor|].
    rewrite Ht. destruct IH as [(-> & Hf & ->)|[Hcpe Hpre]].
    + left. split_and!; [done| |done]. constructor; [|done].
      simpl. by rewrite Hrc.
    + right. split; [done|]. by apply prefix_cons.
  - simpl. split; [by repeat constructor|]. right. split; [by eexists _, _|].
    rewrite Ht. apply prefix_cons, prefix_nil.
Qed.

(** [finalize], cut at its checkouts: two lines of output, the checkouts,
    then what follows them, which holds no checkout and is empty when a
    checkout raised. *)
Lemma finalize_run (commit_msg current_dir : string) (rolls : dict roll) (w : world) :
  let plan := Py.sorted roll_ltb (dict_values rolls) in
  let loop := for_each plan checkout w in
  ∃ out1 out2 post,
    events_of (finalize commit_msg current_dir rolls) w
    = [Stdout out1; Stdout out2] ++ loop.2 ++ post
    ∧ checkouts post = []
    ∧ Forall (λ e, is_checkout e = false) post
    ∧ match loop.1.1 with
      | Ok _ => True
      | Raise e =>
          post = [] ∧ result_of (finalize commit_msg current_dir rolls) w = Raise e
      end.
Proof.
  intros plan loop. unfold events_of, result_of.
  destruct (finalize commit_msg current_dir rolls w) as [[res w'] evs] eqn:E.
  revert E. unfold finalize.
  unfold bind at 1, print at 1, emit at 1. cbn beta iota.
  unfold bind at 1, print at 1, emit at 1. cbn beta iota.
  unfold bind at 1. fold plan. fold loop.
  destruct loop as [[[[]|e] w1] ev]; cbn [fst snd].
  2:{ intros [= <- <- <-]. eexists _, _, []. by rewrite app_nil_r. }
  cbv beta iota delta [bind check_call call ret raise].
  destruct (spawn w1 _ _) as [w2 [rc out]]. cbn beta iota.
  destruct (rc =? 0)%Z; cbn beta iota.
  2:{ intros [= <- <- <-]. eexists _, _, _.
      split; [reflexivity|]. by repeat constructor. }
  destruct (mktemp w2 commit_msg) as [w3 name]. cbn beta iota.
  destruct (spawn w3 _ _) as [w4 [rc' out']]. cbn beta iota.
  destruct (rc' =? 0)%Z; cbn beta iota.
  - intros [= <- <- <-]. eexists _, _, _.
    split; [reflexivity|]. by repeat constructor.
  - intros [= <- <- <-]. eexists _, _, _.
    split; [reflexivity|]. by repeat constructor.
Qed.

(** C4, amended: [finalize] checks the revisions out in the order of the
    entries (current revision, target revision, directory) of the plan,
    sorted as tuples, not in the order of the paths: the checkouts done
    are the first ones of that list, all of it when [finalize] ends
    normally, and the list is the plan's entries put in order. *)
Theorem checkout_order (commit_msg current_dir : string) (rolls : dict roll)
    (w : world) :
  let plan := Py.sorted roll_ltb (dict_values rolls) in
  let done := checkouts (events_of (finalize commit_msg current_dir rolls) w) in
  done `prefix_of` map target plan
  ∧ (result_of (finalize commit_msg current_dir rolls) w = Ok tt
     → done = map target plan)
  ∧ Sorted (λ x y, roll_ltb y x = false) plan
  ∧ plan ≡ₚ dict_values rolls.
Proof.
  intros plan done.
  destruct (finalize_run commit_msg current_dir rolls w)
    as (out1 & out2 & post & Hev & Hpost & _ & Hres).
  destruct (for_each_checkout plan w) as [_ Hloop]. fold plan in Hev, Hres.
  assert (done = checkouts (for_each plan checkout w).2) as Hdone.
  { unfold done. rewrite Hev, !checkouts_app, Hpost, app_nil_r. reflexivity. }
  split_and!.
  - rewrite Hdone. destruct Hloop as [(_ & _ & ->)|[_ Hpre]]; done.
  - intros Hok. rewrite Hdone. destruct Hloop as [(_ & _ & ->)|[Hcpe _]]; [done|].
    destruct Hcpe as (rc & argv & Hcpe). rewrite Hcpe in Hres.
    destruct Hres as [_ Hres]. congruence.
  - apply sorted_Sorted, roll_ltb_asym.
  - apply sorted_perm.
Qed.

Lemma finalize_guarded (commit_msg current_dir : string) (rolls : dict roll) :
  guarded (finalize commit_msg current_dir rolls).
Proof.
  intros w Hex.
  destruct (finalize_run commit_msg current_dir rolls w)
    as (out1 & out2 & post & Hev & _ & Hpost & Hres).
  set (plan := Py.sorted roll_ltb (dict_values rolls)) in *.
  destruct (for_each_checkout plan w) as [Hnc Hloop].
  rewrite Hev in Hex. rewrite Hev.
  destruct Hloop as [(Hok & Hnf & _)|[Hcpe _]].
  - exfalso. rewrite !Exists_app in Hex. destruct Hex as [Hex|[Hex|Hex]].
    + apply Exists_exists in Hex as (e & He & Hc & _).
      apply elem_of_cons in He as [->|He]; [done|].
      apply elem_of_cons in He as [->|He]; [done|]. by apply elem_of_nil in He.
    + apply Exists_exists in Hex as (e & He & _ & Hf).
      rewrite Forall_forall in Hnf. by rewrite Hnf in Hf.
    + apply Exists_exists in Hex as (e & He & Hc & _).
      rewrite Forall_forall in Hpost. by rewrite Hpost in Hc.
  - pose proof Hcpe as (rc & argv & Hr). rewrite Hr in Hres.
    destruct Hres as [-> Hres]. rewrite Hres. split; [by eexists _, _|].
    rewrite app_nil_r. by repeat constructor.
Qed.

(** *** Runs that neither check out nor commit *)

Lemma emits_ret {A} P (a : A) : emits P (ret a).
Proof. intros w. constructor. Qed.

Lemma emits_raise {A} P e : emits P (raise (A:=A) e).
Proof. intros w. constructor. Qed.

Lemma emits_ask {A} P (f : world → A) : emits P (ask f).
Proof. intros w. constructor. Qed.

Lemma emits_emit P e : P e → emits P (emit e).
Proof. intros He w. by repeat constructor. Qed.

Lemma emits_bind {A B} P (m : M A) (f : A → M B) :
  emits P m → (∀ a, emits P (f a)) → emits P (bind m f).
Proof.
  intros Hm Hf w. specialize (Hm w). unfold events_of, bind in *.
  destruct (m w) as [[[a|e] w1] ev1]; [|done].
  specialize (Hf a w1). unfold events_of in Hf.
  destruct (f a w1) as [[r w2] ev2]. by apply Forall_app.
Qed.

Lemma emits_call P argv cwd :
  (∀ rc, P (Exec argv cwd rc)) → emits P (call argv cwd).
Proof.
  intros HP w. unfold events_of, call.
  destruct (spawn w argv cwd) as [w' [rc out]]. by repeat constructor.
Qed.

Lemma emits_check_output P argv cwd :
  (∀ rc, P (Exec argv cwd rc)) → emits P (check_output argv cwd).
Proof.
  intros HP. apply emits_bind; [by apply emits_call|]. intros [rc out].
  destruct (rc =? 0)%Z; [apply emits_ret|apply emits_raise].
Qed.

Lemma emits_check_call P argv cwd :
  (∀ rc, P (Exec argv cwd rc)) → emits P (check_call argv cwd).
Proof.
  intros HP. apply emits_bind; [by apply emits_call|]. intros [rc out].
  destruct (rc =? 0)%Z; [apply emits_ret|apply emits_raise].
Qed.

Lemma emits_for_fold {A S} P (l : list A) (s : S) (body : S → A → M S) :
  (∀ s x, emits P (body s x)) → emits P (for_fold l s body).
Proof.
  intros Hb. revert s. induction l as [|x l IH]; intros s; simpl.
  - apply emits_ret.
  - by apply emits_bind.
Qed.

Lemma quiet_print text : quiet (Stdout text).
Proof. done. Qed.

Ltac quiet_exec :=
  intros; unfold quiet, is_checkout, is_commit, argv_is;
  split; cbn; rewrite ?andb_false_r; reflexivity.

Ltac emits_quiet :=
  repeat first
    [ apply emits_ret | apply emits_raise | apply emits_ask
    | apply emits_emit; done
    | apply emits_check_output; quiet_exec
    | apply emits_check_call; quiet_exec
    | apply emits_bind; [|intros ?]
    | match goal with
      | |- emits _ (if ?c then _ else _) => destruct c
      | |- emits _ (let '(_, _) := ?r in _) => destruct r
      end ].

Lemma gclient_quiet (args : list string) :
  String.eqb (nth 0 args "") "--quiet" = false → emits quiet (gclient args).
Proof.
  intros Ha. unfold gclient. apply emits_bind; [|intros; apply emits_ret].
  apply emits_check_output. intros rc.
  unfold quiet, is_checkout, is_commit, argv_is.
  destruct args as [|arg args]; cbn in Ha |- *;
    split; rewrite ?Ha, ?andb_false_r; reflexivity.
Qed.

Lemma is_pristine_quiet root : emits quiet (is_pristine root).
Proof. unfold is_pristine. emits_quiet. Qed.

Lemma check_clean_quiet a current_dir : emits quiet (check_clean a current_dir).
Proof.
  unfold check_clean. destruct (negb _); [|apply emits_ret].
  apply emits_bind; [apply is_pristine_quiet|]. intros. emits_quiet.
Qed.

Lemma find_dir_quiet root current_dir dependency :
  emits quiet (find_dir root current_dir dependency).
Proof. unfold find_dir, print. emits_quiet. Qed.

Lemma calculate_roll_quiet full_dir dependency roll_to :
  emits quiet (calculate_roll full_dir dependency roll_to).
Proof.
  unfold calculate_roll, is_submoduled, get_submodule_rev, unbound_name.
  apply emits_bind.
  { apply emits_bind; [by apply gclient_quiet|]. intros. apply emits_ask. }
  intros submoduled. apply emits_bind.
  { destruct submoduled; [emits_quiet|by apply gclient_quiet]. }
  intros. emits_quiet.
Qed.

Lemma roll_step_quiet a root current_dir nb rolls dependency :
  emits quiet (roll_step a root current_dir nb rolls dependency).
Proof.
  unfold roll_step. apply emits_bind; [apply find_dir_quiet|]. intros.
  apply emits_bind; [apply calculate_roll_quiet|]. intros [hd rt].
  unfold record_roll, print. emits_quiet.
Qed.

Lemma log_step_quiet a acc item : emits quiet (log_step a acc item).
Proof.
  destruct acc as [logs setdep_args], item as [dependency [[hd rt] dir]].
  unfold log_step, generate_commit_message, log_cmd. emits_quiet.
Qed.

Lemma guarded_bind_quiet {A B} (m : M A) (f : A → M B) :
  emits quiet m → (∀ a, guarded (f a)) → guarded (bind m f).
Proof.
  intros Hm Hf w. specialize (Hm w). unfold events_of, result_of, bind in *.
  destruct (m w) as [[[a|e] w1] ev1]; simpl in *.
  - specialize (Hf a w1). unfold events_of, result_of in Hf.
    destruct (f a w1) as [[r w2] ev2]. simpl in *.
    rewrite Exists_app. intros [Hex|Hex].
    + apply Exists_exists in Hex as (e & He & Hc & _).
      rewrite Forall_forall in Hm. destruct (Hm e He). congruence.
    + destruct (Hf Hex) as [Hr Hnc]. split; [done|].
      apply Forall_app. split; [|done].
      eapply Forall_impl; [done|]. by intros e [_ ?].
  - intros Hex. apply Exists_exists in Hex as (e' & He & Hc & _).
    rewrite Forall_forall in Hm. destruct (Hm e' He). congruence.
Qed.

Lemma main_try_guarded a root current_dir reviewers :
  guarded (main_try a root current_dir reviewers).
Proof.
  unfold main_try.
  apply guarded_bind_quiet; [apply check_clean_quiet|]. intros _.
  apply guarded_bind_quiet.
  { apply emits_for_fold. intros. apply roll_step_quiet. }
  intros rolls. apply guarded_bind_quiet.
  { apply emits_for_fold. intros. apply log_step_quiet. }
  intros [logs setdep_args].
  apply guarded_bind_quiet; [by apply gclient_quiet|]. intros _.
  apply finalize_guarded.
Qed.

Lemma quiet_not_failed_checkout (ev : list event) :
  Forall quiet ev → ¬ Exists (λ e, is_checkout e = true ∧ failed e = true) ev.
Proof.
  rewrite Forall_forall, Exists_exists. intros Hq (e & He & Hc & _).
  destruct (Hq e He). congruence.
Qed.

Lemma quiet_not_commit (ev : list event) :
  Forall quiet ev → Forall (λ e, is_commit e = false) ev.
Proof. intros Hq. eapply Forall_impl; [done|]. by intros e [_ ?]. Qed.

Lemma main_epilogue_quiet reviewers : emits quiet (main_epilogue reviewers).
Proof.
  unfold main_epilogue, print.
  destruct reviewers as [[|??]|]; emits_quiet.
Qed.

Lemma main_failed_checkout (a : args) (w : world) :
  Exists (λ e, is_checkout e = true ∧ failed e = true) (events_of (main a) w) →
  result_of (main a) w = Ok 1%Z
  ∧ Forall (λ e, is_commit e = false) (events_of (main a) w).
Proof.
  unfold events_of, result_of.
  destruct (main a w) as [[res w'] evs] eqn:E. simpl. revert E. unfold main.
  destruct (_ && _).
  { intros [= <- <- <-] Hex. exfalso. revert Hex.
    apply quiet_not_failed_checkout. by repeat constructor. }
  destruct (_ && _).
  { intros [= <- <- <-] Hex. exfalso. revert Hex.
    apply quiet_not_failed_checkout. by repeat constructor. }
  pose proof (gclient_quiet ["root"] eq_refl w) as Hroot.
  unfold events_of in Hroot. unfold bind at 1.
  destruct (gclient ["root"] w) as [[[root|e] w0] ev0]; simpl in Hroot.
  2:{ intros [= <- <- <-] Hex. exfalso. revert Hex.
      by apply quiet_not_failed_checkout. }
  unfold bind at 1, ask at 1. cbn beta iota.
  unfold bind at 1, try_except, bind at 1.
  pose proof (main_try_guarded a root (getcwd w0)
                (parse_reviewers (reviewer a)) w0) as Htry.
  unfold events_of, result_of in Htry.
  destruct (main_try a root (getcwd w0) (parse_reviewers (reviewer a)) w0)
    as [[[[]|e] wt] evt]; simpl in Htry.
  - (* the try block went through: no checkout failed *)
    pose proof (main_epilogue_quiet (parse_reviewers (reviewer a)) wt) as Hep.
    unfold events_of in Hep. simpl.
    destruct (main_epilogue (parse_reviewers (reviewer a)) wt) as [[r w2] ev2].
    simpl in *. intros [= <- <- <-] Hex. exfalso.
    rewrite !Exists_app in Hex. destruct Hex as [Hex|[[Hex|Hex]|Hex]].
    + revert Hex. by apply quiet_not_failed_checkout.
    + destruct (Htry Hex) as [(? & ? & ?) _]. done.
    + by apply Exists_nil in Hex.
    + revert Hex. by apply quiet_not_failed_checkout.
  - (* the try block raised *)
    destruct e as [msg|msg|rc argv|name]; simpl; intros [= <- <- <-] Hex.
    + exfalso.
      rewrite !Exists_app in Hex. destruct Hex as [Hex|[[Hex|Hex]|Hex]].
      * revert Hex. by apply quiet_not_failed_checkout.
      * destruct (Htry Hex) as [(? & ? & ?) _]. done.
      * revert Hex. apply quiet_not_failed_checkout. by repeat constructor.
      * by apply Exists_nil in Hex.
    + exfalso.
      rewrite !Exists_app in Hex. destruct Hex as [Hex|[[Hex|Hex]|Hex]].
      * revert Hex. by apply quiet_not_failed_checkout.
      * destruct (Htry Hex) as [(? & ? & ?) _]. done.
      * revert Hex. apply quiet_not_failed_checkout. by repeat constructor.
      * by apply Exists_nil in Hex.
    + split; [done|]. rewrite !app_nil_r in Hex |- *.
      apply Exists_app in Hex as [Hex|Hex].
      { exfalso. revert Hex. by apply quiet_not_failed_checkout. }
      destruct (Htry Hex) as [_ Hnc].
      apply Forall_app. auto using quiet_not_commit.
    + exfalso.
      rewrite !Exists_app in Hex. destruct Hex as [Hex|[Hex|Hex]].
      * revert Hex. by apply quiet_not_failed_checkout.
      * destruct (Htry Hex) as [(? & ? & ?) _]. done.
      * by apply Exists_nil in Hex.
Qed.

Lemma finalize_commit_after_checkouts commit_msg current_dir rolls w :
  let ev := events_of (finalize commit_msg current_dir rolls) w in
  Exists (λ e, is_commit e = true) ev →
  checkouts ev = map target (Py.sorted roll_ltb (dict_values rolls))
  ∧ Forall (λ e, is_checkout e = true → failed e = false) ev.
Proof.
  intros ev Hex. unfold ev in *.
  destruct (finalize_run commit_msg current_dir rolls w)
    as (out1 & out2 & post & Hev & Hco & Hpost & Hres).
  set (plan := Py.sorted roll_ltb (dict_values rolls)) in *.
  destruct (for_each_checkout plan w) as [Hnc Hloop].
  rewrite Hev in Hex. rewrite Hev.
  destruct Hloop as [(Hok & Hnf & Hplan)|[(rc & argv & Hr) _]].
  - split.
    + by rewrite !checkouts_app, Hco, Hplan, app_nil_r.
    + repeat apply Forall_app_2.
      * by repeat constructor.
      * eapply Forall_impl; [done|]. auto.
      * eapply Forall_impl; [done|]. intros e He. by rewrite He.
  - exfalso. rewrite Hr in Hres. destruct Hres as [-> _].
    rewrite app_nil_r, Exists_app in Hex. destruct Hex as [Hex|Hex].
    + apply Exists_exists in Hex as (e & He & Hc).
      apply elem_of_cons in He as [->|He]; [done|].
      apply elem_of_cons in He as [->|He]; [done|]. by apply elem_of_nil in He.
    + apply Exists_exists in Hex as (e & He & Hc).
      rewrite Forall_forall in Hnc. by rewrite Hnc in Hc.
Qed.

(** C6: if a checkout of [finalize] returns a code other than 0, [main]
    returns 1 and its run holds no commit.  Said the other way round: when
    [finalize] runs the commit, it has checked out every entry of the plan
    and no checkout has failed. *)
Theorem failed_checkout_aborts :
  (∀ a w,
     Exists (λ e, is_checkout e = true ∧ failed e = true) (events_of (main a) w) →
     result_of (main a) w = Ok 1%Z
     ∧ Forall (λ e, is_commit e = false) (events_of (main a) w))
  ∧ (∀ commit_msg current_dir rolls w,
       let ev := events_of (finalize commit_msg current_dir rolls) w in
       Exists (λ e, is_commit e = true) ev →
       checkouts ev = map target (Py.sorted roll_ltb (dict_values rolls))
       ∧ Forall (λ e, is_checkout e = true → failed e = false) ev).
Proof.
  split.
  - apply main_failed_checkout.
  - apply finalize_commit_after_checkouts.
Qed.
End Runs.

(** ** Runs on the small host *)

(** In a workspace with a .gitmodules file the resolver raises. *)
Lemma calculate_roll_submoduled_demo :
  calculate_roll (H := Demo.host Demo.submoduled) "/w/a" "a" "origin/HEAD" tt
  = (Raise (NameError "submodule_path"), tt,
     [Exec ["python3"; "/depot_tools/gclient.py"; "root"] None 0]).
Proof.
  apply (calculate_roll_submoduled (H := Demo.host Demo.submoduled)).
  reflexivity.
Defined.

Example main_submoduled_demo :
  result_of (main (H := Demo.host Demo.submoduled) (Demo.cli ["a"])) tt
  = Raise (NameError "submodule_path").
Proof. vm_compute. reflexivity. Qed.

(** The checkout of [a] fails after that of [b]: exit code 1, no commit. *)
Lemma failed_checkout_aborts_demo :
  result_of (main (H := Demo.host Demo.broken) (Demo.cli ["a"; "b"])) tt = Ok 1%Z
  ∧ Forall (λ e, is_commit e = false)
      (events_of (main (H := Demo.host Demo.broken) (Demo.cli ["a"; "b"])) tt).
Proof.
  apply (proj1 (failed_checkout_aborts (H := Demo.host Demo.broken))).
  apply Exists_exists.
  exists (Exec ["git"; "checkout"; "--quiet"; "11112222"] (Some "/w/a") 1).
  split; [|done]. vm_compute. repeat constructor.
Defined.

(** C4, as stated, fails: [b] is checked out before [a], because its
    current revision 0000ffff comes before ffff0000. *)
Lemma checkouts_not_in_path_order :
  let rolls : dict roll :=
    [("a", ("ffff0000", "11112222", "/w/a")); ("b", ("0000ffff", "33334444", "/w/b"))] in
  let by_path := map (λ item, target item.2) (Py.sorted item_ltb (dict_items rolls)) in
  let done := checkouts (events_of (finalize (H := Demo.host Demo.plain)
                                      "Roll" "/w" rolls) tt) in
  by_path = [("11112222", Some "/w/a"); ("33334444", Some "/w/b")]
  ∧ done = [("33334444", Some "/w/b"); ("11112222", Some "/w/a")]
  ∧ done ≠ by_path
  ∧ checkouts (events_of (main (H := Demo.host Demo.plain) (Demo.cli ["a"; "b"])) tt)
    = done.
Proof. vm_compute. split_and!; [reflexivity..|discriminate|reflexivity]. Qed.

(** ** More runs: outcomes, errors, the plan and the messages *)

Section OutcomeFacts.
Context `{H : Host}.

Lemma run_eta {A} (m : M A) (w : world) :
  m w = (result_of m w, (m w).1.2, events_of m w).
Proof. unfold result_of, events_of. by destruct (m w) as [[??]?]. Qed.

(** The result and the events of a [bind]. *)
Lemma bind_run {A B} (m : M A) (f : A → M B) (w : world) :
  match result_of m w with
  | Ok a =>
      result_of (bind m f) w = result_of (f a) (m w).1.2
      ∧ events_of (bind m f) w = events_of m w ++ events_of (f a) (m w).1.2
  | Raise e =>
      result_of (bind m f) w = Raise e
      ∧ events_of (bind m f) w = events_of m w
  end.
Proof.
  unfold result_of, events_of, bind.
  destruct (m w) as [[[a|e] w1] ev1]; simpl; [|done].
  by destruct (f a w1) as [[r w2] ev2].
Qed.

Lemma raises_ret {A} P (a : A) : raises P (ret a).
Proof. by intros w e. Qed.

Lemma raises_raise {A} (P : exn → Prop) e : P e → raises P (raise (A:=A) e).
Proof. intros HP w e' [= <-]. done. Qed.

Lemma raises_ask {A} P (f : world → A) : raises P (ask f).
Proof. by intros w e. Qed.

Lemma raises_emit P e : raises P (emit e).
Proof. by intros w e'. Qed.

Lemma raises_bind {A B} P (m : M A) (f : A → M B) :
  raises P m → (∀ a, raises P (f a)) → raises P (bind m f).
Proof.
  intros Hm Hf w e. pose proof (bind_run m f w) as Hb.
  destruct (result_of m w) as [a|e'] eqn:E.
  - destruct Hb as [-> _]. apply Hf.
  - destruct Hb as [-> _]. intros [= <-]. by apply (Hm w).
Qed.

Lemma raises_check_output P argv cwd :
  (∀ rc, P (CalledProcessError rc argv)) → raises P (check_output argv cwd).
Proof.
  intros HP w e. unfold result_of, check_output, bind, call.
  destruct (spawn w argv cwd) as [w' [rc out]]. simpl.
  destruct (rc =? 0)%Z; simpl; [done|]. intros [= <-]. apply HP.
Qed.

Lemma raises_check_call P argv cwd :
  (∀ rc, P (CalledProcessError rc argv)) → raises P (check_call argv cwd).
Proof.
  intros HP w e. unfold result_of, check_call, bind, call.
  destruct (spawn w argv cwd) as [w' [rc out]]. simpl.
  destruct (rc =? 0)%Z; simpl; [done|]. intros [= <-]. apply HP.
Qed.

Lemma raises_for_fold {A S} P (l : list A) (s : S) (body : S → A → M S) :
  (∀ s x, raises P (body s x)) → raises P (for_fold l s body).
Proof.
  intros Hb. revert s. induction l as [|x l IH]; intros s; simpl.
  - apply raises_ret.
  - by apply raises_bind.
Qed.

Lemma raises_for_each {A} P (l : list A) (body : A → M unit) :
  (∀ x, raises P (body x)) → raises P (for_each l body).
Proof.
  intros Hb. induction l as [|x l IH]; simpl.
  - apply raises_ret.
  - by apply raises_bind.
Qed.

Ltac raises_not_error :=
  repeat first
    [ apply raises_ret | apply raises_ask | apply raises_emit
    | apply raises_raise; exact I
    | apply raises_check_output; intros; exact I
    | apply raises_check_call; intros; exact I
    | apply raises_bind; [|intros ?]
    | match goal with
      | |- raises _ (if ?c then _ else _) => destruct c
      | |- raises _ (let '(_, _) := ?r in _) => destruct r
      end ].

Lemma gclient_not_error args : raises not_error (gclient args).
Proof. unfold gclient. raises_not_error. Qed.

Lemma generate_commit_message_not_error full_dir dependency head roll_to no_log limit :
  raises not_error (generate_commit_message full_dir dependency head roll_to no_log limit).
Proof. unfold generate_commit_message. raises_not_error. Qed.

Lemma log_step_not_error a acc item : raises not_error (log_step a acc item).
Proof.
  destruct acc as [logs setdep_args], item as [dependency [[hd rt] dir]].
  unfold log_step. apply raises_bind; [apply generate_commit_message_not_error|].
  intros. apply raises_ret.
Qed.

Lemma finalize_not_error commit_msg current_dir rolls :
  raises not_error (finalize commit_msg current_dir rolls).
Proof.
  unfold finalize, print.
  apply raises_bind; [apply raises_emit|]. intros _.
  apply raises_bind; [apply raises_emit|]. intros _.
  apply raises_bind.
  { apply raises_for_each. intros [[hd rt] dir]. unfold checkout.
    apply raises_check_call. by intros. }
  intros _. apply raises_bind; [apply raises_check_call; by intros|]. intros _.
  apply raises_bind.
  { intros w e. unfold result_of. by destruct (mktemp w commit_msg). }
  intros name. apply raises_bind; [apply raises_check_call; by intros|].
  intros _ w e. done.
Qed.

(** *** What the first part of [main] runs *)

Lemma emits_for_each {A} P (l : list A) (body : A → M unit) :
  (∀ x, emits P (body x)) → emits P (for_each l body).
Proof.
  intros Hb. induction l as [|x l IH]; simpl.
  - apply emits_ret.
  - by apply emits_bind.
Qed.

Lemma emits_unbound {A B} P name (f : A → M B) :
  emits P (bind (unbound_name name) f).
Proof. intros w. constructor. Qed.

Ltac gathering_exec :=
  intros; cbn; rewrite ?String.eqb_refl; reflexivity.

Ltac emits_with tac :=
  repeat first
    [ apply emits_ret | apply emits_raise | apply emits_ask
    | apply emits_emit; reflexivity
    | apply emits_unbound
    | apply emits_check_output; tac
    | apply emits_check_call; tac
    | apply emits_bind; [|intros ?]
    | match goal with
      | |- emits _ (if ?c then _ else _) => destruct c
      | |- emits _ (let '(_, _) := ?r in _) => destruct r
      end ].

Lemma check_clean_gathering a current_dir :
  emits (λ e, is_gathering e = true) (check_clean a current_dir).
Proof. unfold check_clean, is_pristine. emits_with gathering_exec. Qed.

Lemma roll_step_gathering a root current_dir nb rolls dependency :
  emits (λ e, is_gathering e = true) (roll_step a root current_dir nb rolls dependency).
Proof.
  unfold roll_step, find_dir, calculate_roll, is_submoduled, gclient,
    record_roll, print.
  emits_with gathering_exec.
Qed.

Lemma main_try_error_gathering a root current_dir reviewers w e :
  result_of (main_try a root current_dir reviewers) w = Raise e → is_error e →
  Forall (λ e, is_gathering e = true)
    (events_of (main_try a root current_dir reviewers) w).
Proof.
  unfold main_try. intros Hres He.
  match goal with |- context [bind ?m ?f] =>
    pose proof (bind_run m f w) as Hb; pose proof (check_clean_gathering a current_dir w) as Hc
  end.
  destruct (result_of (check_clean a current_dir) w) as [[]|e1].
  2:{ destruct Hb as [_ ->]. done. }
  destruct Hb as [Hr ->]. rewrite Hr in Hres. clear Hr.
  apply Forall_app. split; [done|].
  set (w1 := (check_clean a current_dir w).1.2) in *.
  match goal with |- context [bind ?m ?f] =>
    pose proof (bind_run m f w1) as Hb;
    pose proof (emits_for_fold (λ e, is_gathering e = true) (dependencies_of a) []
                  (roll_step a root current_dir (length (dependencies_of a)))
                  (roll_step_gathering a root current_dir _) w1) as Hl
  end.
  destruct (result_of (for_fold _ _ _) w1) as [rolls|e1].
  2:{ destruct Hb as [_ ->]. done. }
  exfalso. destruct Hb as [Hr _]. rewrite Hr in Hres.
  revert Hres. generalize ((for_fold (dependencies_of a) []
    (roll_step a root current_dir (length (dependencies_of a))) w1).1.2).
  intros w2 Hres.
  assert (not_error e); [|by destruct e].
  revert Hres. apply raises_bind.
  { apply raises_for_fold. intros. apply log_step_not_error. }
  intros [logs setdep_args].
  apply raises_bind; [apply gclient_not_error|]. intros _.
  apply finalize_not_error.
Qed.

(** *** Where the reports come from *)

Ltac silent_exec := intros; reflexivity.

Lemma finalize_silent commit_msg current_dir rolls :
  emits (λ e, is_report e = false) (finalize commit_msg current_dir rolls).
Proof.
  unfold finalize, print.
  apply emits_bind; [by apply emits_emit|]. intros _.
  apply emits_bind; [by apply emits_emit|]. intros _.
  apply emits_bind.
  { apply emits_for_each. intros [[hd rt] dir]. unfold checkout.
    by apply emits_check_call. }
  intros _. apply emits_bind; [by apply emits_check_call|]. intros _.
  apply emits_bind.
  { intros w. unfold events_of. destruct (mktemp w commit_msg).
    by repeat constructor. }
  intros name. apply emits_bind; [by apply emits_check_call|].
  intros _ w. by repeat constructor.
Qed.

Lemma main_try_silent a root current_dir reviewers :
  emits (λ e, is_report e = false) (main_try a root current_dir reviewers).
Proof.
  unfold main_try.
  apply emits_bind.
  { unfold check_clean, is_pristine. emits_with silent_exec. }
  intros _. apply emits_bind.
  { apply emits_for_fold. intros.
    unfold roll_step, find_dir, calculate_roll, is_submoduled, gclient,
      record_roll, print.
    emits_with silent_exec. }
  intros rolls. apply emits_bind.
  { apply emits_for_fold. intros [logs setdep_args] [dependency [[hd rt] dir]].
    unfold log_step, generate_commit_message. emits_with silent_exec. }
  intros [logs setdep_args]. apply emits_bind.
  { unfold gclient. emits_with silent_exec. }
  intros _. apply finalize_silent.
Qed.

Lemma main_epilogue_silent reviewers :
  emits (λ e, is_report e = false) (main_epilogue reviewers).
Proof.
  unfold main_epilogue, print. destruct reviewers as [[|??]|]; emits_with silent_exec.
Qed.

Lemma no_report (ev : list event) :
  Forall (λ e, is_report e = false) ev → ¬ Exists (λ e, is_report e = true) ev.
Proof.
  rewrite Forall_forall, Exists_exists. intros Hs (e & He & Hr).
  by rewrite (Hs e He) in Hr.
Qed.

(** X2: a run of [main] that reports an error (a line on stderr from the
    handler of [Error], or a parser error) returns 1 or 2 and has run
    nothing but commands of the first part: gclient root and getdep,
    git diff, fetch, remote and rev-parse.  No setdep, checkout, add or
    commit has run and no temporary file is written. *)
Theorem reports_before_changes (a : args) (w : world) :
  Exists (λ e, is_report e = true) (events_of (main a) w) →
  Forall (λ e, is_gathering e = true) (events_of (main a) w)
  ∧ (result_of (main a) w = Ok 1%Z ∨ result_of (main a) w = Ok 2%Z).
Proof.
  unfold events_of, result_of.
  destruct (main a w) as [[res w'] evs] eqn:E. simpl. revert E. unfold main.
  destruct (_ && _).
  { intros [= <- <- <-] _. split; [by repeat constructor|by right]. }
  destruct (_ && _).
  { intros [= <- <- <-] _. split; [by repeat constructor|by right]. }
  assert (emits (λ e, is_report e = false) (gclient ["root"])) as Hsil.
  { unfold gclient. emits_with silent_exec. }
  assert (emits (λ e, is_gathering e = true) (gclient ["root"])) as Hgat.
  { unfold gclient. emits_with gathering_exec. }
  specialize (Hsil w). specialize (Hgat w). unfold events_of in Hsil, Hgat.
  unfold bind at 1.
  destruct (gclient ["root"] w) as [[[root|e] w0] ev0]; simpl in Hsil, Hgat.
  2:{ intros [= <- <- <-] Hex. by apply no_report in Hex. }
  unfold bind at 1, ask at 1. cbn beta iota.
  unfold bind at 1, try_except, bind at 1.
  pose proof (main_try_silent a root (getcwd w0) (parse_reviewers (reviewer a)) w0)
    as Htry.
  pose proof (main_try_error_gathering a root (getcwd w0)
                (parse_reviewers (reviewer a)) w0) as Herr.
  unfold events_of, result_of in Htry, Herr.
  destruct (main_try a root (getcwd w0) (parse_reviewers (reviewer a)) w0)
    as [[[[]|e] wt] evt]; simpl in Htry, Herr.
  - pose proof (main_epilogue_silent (parse_reviewers (reviewer a)) wt) as Hep.
    unfold events_of in Hep. simpl.
    destruct (main_epilogue (parse_reviewers (reviewer a)) wt) as [[r w2] ev2].
    simpl in *. intros [= <- <- <-] Hex. exfalso. revert Hex. apply no_report.
    rewrite app_nil_r. by repeat apply Forall_app_2.
  - destruct e as [msg|msg|rc argv|name]; simpl; intros [= <- <- <-] Hex.
    + split; [|by left]. rewrite app_nil_r.
      repeat apply Forall_app_2;
        first [done | by eapply Herr | by repeat constructor].
    + split; [|by right]. rewrite app_nil_r.
      repeat apply Forall_app_2;
        first [done | by eapply Herr | by repeat constructor].
    + exfalso. revert Hex. apply no_report. rewrite !app_nil_r.
      by apply Forall_app_2.
    + exfalso. revert Hex. apply no_report. rewrite !app_nil_r.
      by apply Forall_app_2.
Qed.

(** *** What [finalize] does after the checkouts *)

(** X8: how [finalize] ends, after the two prints and the checkouts.  When
    it returns, the checkouts, git add DEPS and git commit have succeeded
    and the temporary file that held the message is removed.  When it
    raises CalledProcessError, either a checkout failed and nothing else
    ran, or git add DEPS failed and nothing else ran, or git commit failed
    after the message was written to a temporary file, which is then left
    in place. *)
Theorem finalize_outcomes (commit_msg current_dir : string) (rolls : dict roll)
    (w : world) :
  let plan := Py.sorted roll_ltb (dict_values rolls) in
  let res := result_of (finalize commit_msg current_dir rolls) w in
  let ev := events_of (finalize commit_msg current_dir rolls) w in
  let loop := result_of (for_each plan checkout) w in
  let add := ["git"; "add"; "DEPS"] in
  let commit name := ["git"; "commit"; "--quiet"; "--file"; name] in
  let shown :=
    Py.join NL (map (λ i, "    " +:+ i) (Py.splitlines false commit_msg)) in
  let pre := [Stdout ("Commit message:" +:+ NL); Stdout (shown +:+ NL)]
             ++ events_of (for_each plan checkout) w in
  (res = Ok tt →
   loop = Ok tt
   ∧ ∃ name, ev = pre ++ [Exec add (Some current_dir) 0;
                          WriteTemp name commit_msg;
                          Exec (commit name) (Some current_dir) 0;
                          Remove name])
  ∧ (∀ rc argv,
       res = Raise (CalledProcessError rc argv) →
       (loop = Raise (CalledProcessError rc argv) ∧ ev = pre)
       ∨ (loop = Ok tt ∧ rc ≠ 0%Z ∧ argv = add
          ∧ ev = pre ++ [Exec add (Some current_dir) rc])
       ∨ (loop = Ok tt ∧ rc ≠ 0%Z
          ∧ ∃ name, argv = commit name
                    ∧ ev = pre ++ [Exec add (Some current_dir) 0;
                                   WriteTemp name commit_msg;
                                   Exec (commit name) (Some current_dir) rc])).
Proof.
  intros plan res ev loop add commit shown pre.
  unfold pre, res, ev, loop, events_of, result_of.
  destruct (finalize commit_msg current_dir rolls w) as [[r w'] evs] eqn:E.
  revert E. unfold finalize.
  unfold bind at 1, print at 1, emit at 1. cbn beta iota.
  unfold bind at 1, print at 1, emit at 1. cbn beta iota.
  unfold bind at 1. fold plan shown.
  destruct (for_each plan checkout w) as [[[[]|e] w1] ev1]; cbn [fst snd] in *.
  2:{ intros [= <- <- <-]. split; [done|]. intros rc argv [= ->]. by left. }
  cbv beta iota delta [bind check_call call ret raise].
  destruct (spawn w1 _ _) as [w2 [rc out]]. cbn beta iota.
  destruct (Z.eqb_spec rc 0) as [->|Hrc]; cbn beta iota.
  2:{ intros [= <- <- <-]. split; [done|]. intros rc' argv' [= <- <-].
      right; left. split_and!; [done..|]. by rewrite <- app_assoc. }
  destruct (mktemp w2 commit_msg) as [w3 name]. cbn beta iota.
  destruct (spawn w3 _ _) as [w4 [rc' out']]. cbn beta iota.
  destruct (Z.eqb_spec rc' 0) as [->|Hrc']; cbn beta iota.
  - intros [= <- <- <-]. split; [|done]. intros _. split; [done|].
    exists name. by rewrite <- app_assoc.
  - intros [= <- <- <-]. split; [done|]. intros rc'' argv'' [= <- <-].
    do 2 right. split_and!; [done..|]. exists name.
    split; [done|]. by rewrite <- app_assoc.
Qed.

(** *** Runs that return *)

Lemma sc_ret {A} (a : A) : succeeds_clean (ret a).
Proof. intros w b _. constructor. Qed.

Lemma sc_raise {A} e : succeeds_clean (raise (A:=A) e).
Proof. by intros w b. Qed.

Lemma sc_ask {A} (f : world → A) : succeeds_clean (ask f).
Proof. intros w b _. constructor. Qed.

Lemma sc_emit e : failed e = false → succeeds_clean (emit e).
Proof. intros He w b _. by repeat constructor. Qed.

Lemma sc_bind {A B} (m : M A) (f : A → M B) :
  succeeds_clean m → (∀ a, succeeds_clean (f a)) → succeeds_clean (bind m f).
Proof.
  intros Hm Hf w b. pose proof (bind_run m f w) as Hb.
  destruct (result_of m w) as [a|e] eqn:E.
  - destruct Hb as [-> ->]. intros Hok.
    apply Forall_app_2; [by eapply Hm|by eapply Hf].
  - destruct Hb as [-> _]. done.
Qed.

Lemma sc_check_output argv cwd : succeeds_clean (check_output argv cwd).
Proof.
  intros w b. unfold result_of, events_of, check_output, bind, call.
  destruct (spawn w argv cwd) as [w' [rc out]]. simpl.
  destruct (rc =? 0)%Z eqn:E; simpl; [|done]. intros _.
  repeat constructor. simpl. by rewrite E.
Qed.

Lemma sc_check_call argv cwd : succeeds_clean (check_call argv cwd).
Proof.
  intros w b. unfold result_of, events_of, check_call, bind, call.
  destruct (spawn w argv cwd) as [w' [rc out]]. simpl.
  destruct (rc =? 0)%Z eqn:E; simpl; [|done]. intros _.
  repeat constructor. simpl. by rewrite E.
Qed.

Lemma sc_for_fold {A S} (l : list A) (s : S) (body : S → A → M S) :
  (∀ s x, succeeds_clean (body s x)) → succeeds_clean (for_fold l s body).
Proof.
  intros Hb. revert s. induction l as [|x l IH]; intros s; simpl.
  - apply sc_ret.
  - by apply sc_bind.
Qed.

Lemma sc_for_each {A} (l : list A) (body : A → M unit) :
  (∀ x, succeeds_clean (body x)) → succeeds_clean (for_each l body).
Proof.
  intros Hb. induction l as [|x l IH]; simpl.
  - apply sc_ret.
  - by apply sc_bind.
Qed.

Ltac sc_auto :=
  repeat first
    [ apply sc_ret | apply sc_raise | apply sc_ask
    | apply sc_emit; reflexivity
    | apply sc_check_output | apply sc_check_call
    | apply sc_bind; [|intros ?]
    | match goal with
      | |- succeeds_clean (if ?c then _ else _) => destruct c
      | |- succeeds_clean (let '(_, _) := ?r in _) => destruct r
      end ].

Lemma finalize_sc commit_msg current_dir rolls :
  succeeds_clean (finalize commit_msg current_dir rolls).
Proof.
  unfold finalize, print.
  apply sc_bind; [by apply sc_emit|]. intros _.
  apply sc_bind; [by apply sc_emit|]. intros _.
  apply sc_bind.
  { apply sc_for_each. intros [[hd rt] dir]. apply sc_check_call. }
  intros _. apply sc_bind; [apply sc_check_call|]. intros _.
  apply sc_bind.
  { intros w b _. unfold events_of. destruct (mktemp w commit_msg).
    by repeat constructor. }
  intros name. apply sc_bind; [apply sc_check_call|].
  intros _ w b _. by repeat constructor.
Qed.

Lemma main_try_sc a root current_dir reviewers :
  succeeds_clean (main_try a root current_dir reviewers).
Proof.
  unfold main_try.
  apply sc_bind.
  { unfold check_clean, is_pristine. sc_auto. }
  intros _. apply sc_bind.
  { apply sc_for_fold. intros.
    unfold roll_step, find_dir, calculate_roll, is_submoduled, gclient,
      get_submodule_rev, unbound_name, record_roll, print.
    sc_auto. }
  intros rolls. apply sc_bind.
  { apply sc_for_fold. intros [logs setdep_args] [dependency [[hd rt] dir]].
    unfold log_step, generate_commit_message. sc_auto. }
  intros [logs setdep_args]. apply sc_bind.
  { unfold gclient. sc_auto. }
  intros _. apply finalize_sc.
Qed.

Lemma commits_bind {A B} (m : M A) (f : A → M B) :
  (∀ a, commits_on_success (f a)) → commits_on_success (bind m f).
Proof.
  intros Hf w b. pose proof (bind_run m f w) as Hb.
  destruct (result_of m w) as [a|e] eqn:E.
  - destruct Hb as [-> ->]. intros Hok. apply Exists_app. right. by eapply Hf.
  - destruct Hb as [-> _]. done.
Qed.

Lemma commits_check_call argv cwd :
  is_commit (Exec argv cwd 0) = true → commits_on_success (check_call argv cwd).
Proof.
  intros Hc w [].
  unfold result_of, events_of, check_call, bind, call, ret, raise.
  destruct (spawn w argv cwd) as [w' [rc out]]. cbn.
  destruct (Z.eqb_spec rc 0) as [->|Hrc]; cbn; [|done].
  intros _. by repeat constructor.
Qed.

Lemma commits_bind_l {A B} (m : M A) (f : A → M B) :
  commits_on_success m → commits_on_success (bind m f).
Proof.
  intros Hm w b. pose proof (bind_run m f w) as Hb.
  destruct (result_of m w) as [a|e] eqn:E.
  - destruct Hb as [-> ->]. intros Hok. apply Exists_app. left. by eapply Hm.
  - destruct Hb as [-> _]. done.
Qed.

Lemma finalize_commits commit_msg current_dir rolls :
  commits_on_success (finalize commit_msg current_dir rolls).
Proof.
  unfold finalize. do 5 (apply commits_bind; intros ?).
  apply commits_bind_l. by apply commits_check_call.
Qed.

Lemma main_try_commits a root current_dir reviewers :
  commits_on_success (main_try a root current_dir reviewers).
Proof.
  unfold main_try. apply commits_bind. intros _.
  apply commits_bind. intros rolls. apply commits_bind.
  intros [logs setdep_args]. apply commits_bind. intros _.
  apply finalize_commits.
Qed.

Lemma main_epilogue_run reviewers w :
  result_of (main_epilogue reviewers) w = Ok 0%Z
  ∧ Forall (λ e, failed e = false) (events_of (main_epilogue reviewers) w).
Proof. destruct reviewers as [[|??]|]; split; by repeat constructor. Qed.

Lemma gclient_root_run w :
  match result_of (gclient ["root"]) w with
  | Ok _ => Forall (λ e, failed e = false) (events_of (gclient ["root"]) w)
  | Raise e =>
      ∃ rc, rc ≠ 0%Z
            ∧ e = CalledProcessError rc [executable; GCLIENT_PATH; "root"]
            ∧ events_of (gclient ["root"]) w
              = [Exec [executable; GCLIENT_PATH; "root"] None rc]
  end.
Proof.
  unfold result_of, events_of, gclient, check_output, bind, call. simpl.
  destruct (spawn w _ _) as [w' [rc out]]. simpl.
  destruct (Z.eqb_spec rc 0) as [->|Hrc]; simpl.
  - by repeat constructor.
  - by exists rc.
Qed.

(** X1: what a run of [main] ends with.  If it returns, the exit code is
    0, 1 or 2, and with exit code 0 no command of the run has failed and
    git commit has run with success.  If it raises, the exception is
    neither [Error] nor [AlreadyRolledError], which the handler turns into
    exit codes, and a CalledProcessError is that of the first command,
    gclient root, which runs before the try block and is then the only
    event. *)
Theorem main_outcomes (a : args) (w : world) :
  match result_of (main a) w with
  | Ok code =>
      (code = 0 ∨ code = 1 ∨ code = 2)%Z
      ∧ (code = 0%Z →
         Forall (λ e, failed e = false) (events_of (main a) w)
         ∧ Exists (λ e, is_commit e = true ∧ failed e = false) (events_of (main a) w))
  | Raise e =>
      not_error e
      ∧ ∀ rc argv,
          e = CalledProcessError rc argv →
          rc ≠ 0%Z ∧ argv = [executable; GCLIENT_PATH; "root"]
          ∧ events_of (main a) w = [Exec argv None rc]
  end.
Proof.
  unfold events_of, result_of.
  destruct (main a w) as [[res w'] evs] eqn:E. simpl. revert E. unfold main.
  destruct (_ && _).
  { intros [= <- <- <-]. split; [auto|done]. }
  destruct (_ && _).
  { intros [= <- <- <-]. split; [auto|done]. }
  pose proof (gclient_root_run w) as Hroot.
  unfold events_of, result_of in Hroot. unfold bind at 1.
  destruct (gclient ["root"] w) as [[[root|e] w0] ev0]; simpl in Hroot.
  2:{ intros [= <- <- <-]. destruct Hroot as (rc & Hrc & -> & ->).
      split; [done|]. by intros rc' argv' [= <- <-]. }
  unfold bind at 1, ask at 1. cbn beta iota.
  unfold bind at 1, try_except, bind at 1.
  pose proof (main_try_sc a root (getcwd w0) (parse_reviewers (reviewer a)) w0)
    as Hsc.
  pose proof (main_try_commits a root (getcwd w0) (parse_reviewers (reviewer a)) w0)
    as Hco.
  unfold events_of, result_of in Hsc, Hco.
  destruct (main_try a root (getcwd w0) (parse_reviewers (reviewer a)) w0)
    as [[[[]|e] wt] evt]; simpl in Hsc, Hco.
  - pose proof (main_epilogue_run (parse_reviewers (reviewer a)) wt) as [Hr Hep].
    unfold events_of, result_of in Hr, Hep. simpl.
    destruct (main_epilogue (parse_reviewers (reviewer a)) wt) as [[r w2] ev2].
    simpl in *. subst r. intros [= <- <- <-]. split; [auto|]. intros _.
    rewrite app_nil_r. split.
    + repeat apply Forall_app_2; eauto.
    + apply Exists_app. right. apply Exists_app. left. eauto.
  - destruct e as [msg|msg|rc argv|name]; simpl; intros [= <- <- <-].
    + split; [auto|done].
    + split; [auto|done].
    + split; [auto|done].
    + split; [done|]. by intros.
Qed.

(** *** The errors of the first part *)

Lemma no_parser_error (a : args) :
  (length (dep_path a) ≤ 1)%nat ∨ (roll_to a = "origin/HEAD" ∧ key a = []) →
  (1 <? length (dep_path a))%nat && negb (String.eqb (roll_to a) "origin/HEAD")
  = false
  ∧ (1 <? length (dep_path a))%nat && negb (nil_or_none (key a)) = false.
Proof.
  intros [Hone|[-> ->]].
  - by destruct (Nat.ltb_spec 1 (length (dep_path a))); [lia|].
  - by rewrite !andb_false_r.
Qed.

(** X3: without --ignore-dirty-tree, when [is_pristine] answers False for
    the current directory, [main] runs nothing more: it writes
    'error: Ensure <dir> is clean first (no non-merged commits).' to stderr
    and returns 1.  The test itself is one git diff, or two when the first
    one passes. *)
Theorem dirty_tree_stops a w root w0 ev0 w1 ev1 :
  let diff := ["git"; "diff"; "--ignore-submodules"; "origin/main"] in
  let cwd := getcwd w0 in
  (length (dep_path a) ≤ 1)%nat ∨ (roll_to a = "origin/HEAD" ∧ key a = []) →
  ignore_dirty_tree a = false →
  gclient ["root"] w = (Ok root, w0, ev0) →
  is_pristine cwd w0 = (Ok false, w1, ev1) →
  main a w
  = (Ok 1%Z, w1,
     ev0 ++ ev1 ++ [Stderr ("error: Ensure " +:+ cwd
                            +:+ " is clean first (no non-merged commits)." +:+ NL)])
  ∧ (ev1 = [Exec diff (Some cwd) 0]
     ∨ ev1 = [Exec diff (Some cwd) 0; Exec (diff ++ ["--cached"]) (Some cwd) 0]).
Proof.
  intros diff cwd Hcli Hdirty Hroot Hpristine. split.
  - destruct (no_parser_error a Hcli) as [E1 E2].
    unfold main. rewrite E1, E2.
    unfold bind at 1. rewrite Hroot. cbn beta iota.
    unfold bind at 1, ask at 1. cbn beta iota.
    unfold bind at 1, try_except, bind at 1, main_try, bind at 1, check_clean.
    rewrite Hdirty. cbn [negb]. unfold bind at 1. fold cwd.
    rewrite Hpristine. cbn.
    by rewrite ?app_nil_r, <- ?app_assoc, ?sapp_assoc.
  - revert Hpristine.
    unfold is_pristine, bind at 1, check_output at 1, bind at 1, call.
    fold diff. destruct (spawn w0 diff (Some cwd)) as [w2 [rc out]].
    destruct (Z.eqb_spec rc 0) as [->|Hrc]; cbn; [|done].
    destruct (Py.is_empty (Py.strip out)); cbn.
    + unfold check_output, bind at 1, bind at 1, call.
      destruct (spawn w2 _ _) as [w3 [rc' out']].
      destruct (Z.eqb_spec rc' 0) as [->|Hrc']; cbn; [|done].
      intros [= _ _ <-]. by right.
    + intros [= _ <-]. by left.
Qed.

(** X4: in a root without .gitmodules, when gclient getdep prints nothing
    but white space for the dependency, [calculate_roll] raises
    Error '<dependency> is unpinned.' and no git command runs in the
    directory of the dependency. *)
Theorem unpinned_dependency full_dir dependency roll_to w w1 ev1 w2 out :
  let getdep := [executable; GCLIENT_PATH; "getdep"; "-r"; dependency] in
  is_submoduled w = (Ok false, w1, ev1) →
  spawn w1 getdep None = (w2, (0%Z, out)) →
  Py.is_empty (Py.strip out) = true →
  calculate_roll full_dir dependency roll_to w
  = (Raise (Error (dependency +:+ " is unpinned.")), w2,
     ev1 ++ [Exec getdep None 0]).
Proof.
  intros getdep Hsub Hget Hout.
  unfold calculate_roll, bind at 1. rewrite Hsub. cbn beta iota.
  unfold bind at 1, gclient, bind at 1, check_output, bind at 1, call.
  cbn [app]. fold getdep. rewrite Hget. cbn. rewrite Hout. cbn.
  by rewrite ?app_nil_r.
Qed.

(** X5: the directory of a dependency (lines 283 to 289) is looked for
    under the gclient root first, then under the current directory.  The
    search runs no command and only prints; what it returns is an existing
    directory, the one under the current directory only when there is none
    under the root; it raises Error 'Directory not found: ...' exactly when
    neither exists. *)
Theorem find_dir_outcomes root current_dir dependency w :
  let in_root := normpath (path_join root dependency) in
  let in_cwd := normpath (path_join current_dir dependency) in
  (find_dir root current_dir dependency w).1.2 = w
  ∧ Forall (λ e, ∃ text, e = Stdout text)
      (events_of (find_dir root current_dir dependency) w)
  ∧ match result_of (find_dir root current_dir dependency) w with
    | Ok dir =>
        isdir w dir = true
        ∧ (dir = in_root ∨ (isdir w in_root = false ∧ dir = in_cwd))
    | Raise e =>
        isdir w in_root = false ∧ isdir w in_cwd = false
        ∧ e = Error ("Directory not found: " +:+ dependency
                     +:+ " (" +:+ in_cwd +:+ ")")
    end.
Proof.
  intros in_root in_cwd.
  unfold events_of, result_of, find_dir, bind, ask, print, emit, ret, raise.
  fold in_root in_cwd. cbn.
  destruct (isdir w in_root) eqn:E1; cbn.
  { split_and!; [done|constructor|done|by left]. }
  destruct (isdir w in_cwd) eqn:E2; cbn.
  - split_and!; [done|repeat constructor; by eexists|done|by right].
  - split_and!; [done|repeat constructor; by eexists|done..].
Qed.

(** *** The plan *)

Lemma dict_set_keys {V} (d : dict V) (k : string) (v : V) :
  map fst (dict_set d k v)
  = if decide (k ∈ map fst d) then map fst d else map fst d ++ [k].
Proof.
  induction d as [|[k' v'] d IH]; simpl; [done|].
  destruct (String.eqb_spec k' k) as [->|Hne]; simpl.
  - rewrite decide_True; [done|]. apply elem_of_cons. by left.
  - rewrite IH. destruct (decide (k ∈ map fst d)) as [Hin|Hout].
    + rewrite decide_True; [done|]. apply elem_of_cons. by right.
    + rewrite decide_False; [done|]. intros [?|?]%elem_of_cons; congruence.
Qed.

Lemma dict_set_NoDup {V} (d : dict V) (k : string) (v : V) :
  NoDup (map fst d) → NoDup (map fst (dict_set d k v)).
Proof.
  intros Hd. rewrite dict_set_keys. destruct (decide _); [done|].
  apply NoDup_app. split_and!; [done| |apply NoDup_singleton].
  intros x Hx ->%list_elem_of_singleton. done.
Qed.

Lemma dict_set_Forall {V} (P : string * V → Prop) (d : dict V) k v :
  Forall P d → P (k, v) → Forall P (dict_set d k v).
Proof.
  intros Hd Hk. induction Hd as [|[k' v'] d Hx Hd IH]; simpl.
  - by repeat constructor.
  - destruct (String.eqb_spec k' k) as [->|Hne]; by constructor.
Qed.

Lemma roll_step_result a root current_dir nb rolls dependency w rolls' w' ev :
  roll_step a root current_dir nb rolls dependency w = (Ok rolls', w', ev) →
  rolls' = rolls
  ∨ ∃ head roll_to dir,
      head ≠ roll_to ∧ rolls' = dict_set rolls dependency (head, roll_to, dir).
Proof.
  unfold roll_step, bind at 1.
  destruct (find_dir root current_dir dependency w) as [[[dir|e] w1] ev1];
    [|done].
  unfold bind at 1.
  destruct (calculate_roll dir dependency (roll_to a) w1)
    as [[[[hd rt]|e] w2] ev2]; [|done].
  unfold record_roll. destruct (String.eqb_spec rt hd) as [->|Hne].
  - destruct (nb =? 1); cbn; [done|]. intros [= <- _ _]. by left.
  - cbn. intros [= <- _ _]. right. exists hd, rt, dir. split; [congruence|done].
Qed.

Lemma gather_invariant a root current_dir nb (seen deps : list string) rolls0 w
    rolls w' ev :
  for_fold deps rolls0 (roll_step a root current_dir nb) w = (Ok rolls, w', ev) →
  NoDup (map fst rolls0) → Forall (planned seen) rolls0 →
  NoDup (map fst rolls) ∧ Forall (planned (seen ++ deps)) rolls.
Proof.
  revert seen rolls0 w ev.
  induction deps as [|dep deps IH]; intros seen rolls0 w ev; simpl.
  - intros [= <- _ _] Hnd Hpl. by rewrite app_nil_r.
  - unfold bind at 1.
    destruct (roll_step a root current_dir nb rolls0 dep w)
      as [[[rolls1|e] w1] ev1] eqn:Hstep; [|done].
    destruct (for_fold deps rolls1 (roll_step a root current_dir nb) w1)
      as [[r w2] ev2] eqn:Hrest.
    intros [= -> -> _] Hnd Hpl.
    rewrite (cons_middle dep seen deps), app_assoc.
    apply (IH (seen ++ [dep]) rolls1 w1 ev2 Hrest).
    + apply roll_step_result in Hstep as [->|(hd & rt & dir & _ & ->)];
        [done|by apply dict_set_NoDup].
    + assert (Forall (planned (seen ++ [dep])) rolls0) as Hpl'.
      { eapply Forall_impl; [done|]. intros item [Hin Hne]. split; [|done].
        apply elem_of_app. by left. }
      apply roll_step_result in Hstep as [->|(hd & rt & dir & Hne & ->)];
        [done|]. apply dict_set_Forall; [done|]. split; [|done].
      apply elem_of_app. right. by apply list_elem_of_singleton.
Qed.

(** X6: when the first loop of [main] completes, [rolls] has one entry at
    most per path, every path is one of the dependencies and the two
    revisions of every entry differ. *)
Theorem gathered_plan a root current_dir nb deps w rolls w' ev :
  for_fold deps [] (roll_step a root current_dir nb) w = (Ok rolls, w', ev) →
  NoDup (map fst rolls)
  ∧ Forall (λ item, item.1 ∈ deps ∧ item.2.1.1 ≠ item.2.1.2) rolls.
Proof.
  intros Hrun.
  apply (gather_invariant a root current_dir nb [] deps [] w rolls w' ev Hrun);
    constructor.
Qed.

(** *** The messages, in the order of the paths *)






(** *** Reads first *)

Lemma gathering_reading {A} (m : M A) :
  emits (λ e, is_gathering e = true) m → emits (λ e, is_reading e = true) m.
Proof.
  intros Hm w. eapply Forall_impl; [apply Hm|]. intros e He.
  unfold is_reading. by rewrite He.
Qed.

Lemma log_step_reading a acc item :
  emits (λ e, is_reading e = true) (log_step a acc item).
Proof.
  destruct acc as [logs setdep_args], item as [dep [[hd rt] dir]].
  unfold log_step, generate_commit_message. emits_with gathering_exec.
Qed.

Lemma staged_reads stopped (ev : list event) :
  Forall (λ e, is_reading e = true) ev → staged stopped ev.
Proof. intros Hev. exists ev, []. rewrite app_nil_r. auto. Qed.

Lemma staged_app stopped (ev1 ev2 : list event) :
  Forall (λ e, is_reading e = true) ev1 → staged stopped ev2 →
  staged stopped (ev1 ++ ev2).
Proof.
  intros H1 (reads & tail & -> & Hr & Ht). exists (ev1 ++ reads), tail.
  split_and!; [by rewrite app_assoc|by apply Forall_app_2|done].
Qed.

Lemma staged_bind {A B} (P : result B → Prop) (m : M A) (f : A → M B) w :
  emits (λ e, is_reading e = true) m →
  (∀ a w', staged (P (result_of (f a) w')) (events_of (f a) w')) →
  staged (P (result_of (bind m f) w)) (events_of (bind m f) w).
Proof.
  intros Hm Hf. pose proof (bind_run m f w) as Hb. specialize (Hm w).
  destruct (result_of m w) as [a|e].
  - destruct Hb as [-> ->]. by apply staged_app.
  - destruct Hb as [_ ->]. by apply staged_reads.
Qed.

Lemma gclient_run args w :
  ∃ rc, events_of (gclient args) w = [Exec (executable :: GCLIENT_PATH :: args) None rc]
        ∧ (rc ≠ 0%Z → is_called_process_error (result_of (gclient args) w)).
Proof.
  unfold result_of, events_of, gclient, check_output, bind, call. cbn [app].
  destruct (spawn w _ None) as [w' [rc out]]. cbn.
  exists rc. destruct (Z.eqb_spec rc 0) as [->|Hrc]; cbn.
  - done.
  - split; [done|]. intros _. by eexists _, _.
Qed.

Lemma setdep_staged {B} args (f : string → M B) w :
  staged (is_called_process_error (result_of (bind (gclient ("setdep" :: args)) f) w))
    (events_of (bind (gclient ("setdep" :: args)) f) w).
Proof.
  pose proof (bind_run (gclient ("setdep" :: args)) f w) as Hb.
  destruct (gclient_run ("setdep" :: args) w) as (rc & Hev & Hrc).
  exists []. cbn [app]. eexists. split_and!; [done|constructor|]. right.
  destruct (result_of (gclient ("setdep" :: args)) w) as [out|e].
  - destruct Hb as [_ ->]. rewrite Hev. cbn [app]. eexists _, _, _.
    split; [done|]. intros Hne. by destruct (Hrc Hne) as (? & ? & ?).
  - destruct Hb as [-> ->]. rewrite Hev. eexists _, _, _.
    split; [done|]. intros Hne. split; [done|].
    destruct (Hrc Hne) as (rc' & argv & [= ->]). by eexists _, _.
Qed.

Lemma staged_then (P Q : Prop) (ev ev' : list event) :
  staged P ev → Forall (λ e, is_reading e = true) ev' →
  (P → ev' = [] ∧ Q) → staged Q (ev ++ ev').
Proof.
  intros (reads & tail & -> & Hr & [->|(args & rc & rest & -> & Hrc)]) Hev' HPQ.
  - rewrite app_nil_r. apply staged_reads. by apply Forall_app_2.
  - exists reads. eexists. split_and!; [by rewrite <- app_assoc|done|].
    right. exists args, rc, (rest ++ ev'). split; [done|]. intros Hne.
    destruct (Hrc Hne) as [-> HP]. by destruct (HPQ HP) as [-> HQ].
Qed.

Lemma main_try_staged a root current_dir reviewers w :
  staged (is_called_process_error (result_of (main_try a root current_dir reviewers) w))
    (events_of (main_try a root current_dir reviewers) w).
Proof.
  unfold main_try.
  apply (staged_bind is_called_process_error).
  { apply gathering_reading, check_clean_gathering. }
  intros _ w1. apply (staged_bind is_called_process_error).
  { apply gathering_reading, emits_for_fold. intros. apply roll_step_gathering. }
  intros rolls w2. apply (staged_bind is_called_process_error).
  { apply emits_for_fold. intros. apply log_step_reading. }
  intros [logs setdep_args] w3. apply setdep_staged.
Qed.

(** X14: the events of every run of [main] come in two stages.  First
    reads only: gclient root and getdep, git diff, fetch, remote, rev-parse,
    config and log, and what is printed.  Then either nothing, or
    gclient setdep followed by the rest of the run; when that setdep fails
    nothing follows it and [main] returns 1.  So no checkout, add or commit
    and no temporary file comes before gclient setdep. *)
Theorem setdep_before_changes (a : args) (w : world) :
  staged (result_of (main a) w = Ok 1%Z) (events_of (main a) w).
Proof.
  unfold events_of, result_of.
  destruct (main a w) as [[res w'] evs] eqn:E. simpl. revert E. unfold main.
  destruct (_ && _).
  { intros [= <- <- <-]. apply staged_reads. by repeat constructor. }
  destruct (_ && _).
  { intros [= <- <- <-]. apply staged_reads. by repeat constructor. }
  assert (emits (λ e, is_reading e = true) (gclient ["root"])) as Hroot.
  { apply gathering_reading. unfold gclient. emits_with gathering_exec. }
  specialize (Hroot w). unfold events_of in Hroot. unfold bind at 1.
  destruct (gclient ["root"] w) as [[[root|e] w0] ev0]; simpl in Hroot.
  2:{ intros [= <- <- <-]. by apply staged_reads. }
  unfold bind at 1, ask at 1. cbn beta iota.
  unfold bind at 1, try_except, bind at 1.
  pose proof (main_try_staged a root (getcwd w0) (parse_reviewers (reviewer a)) w0)
    as Htry.
  unfold events_of, result_of in Htry.
  destruct (main_try a root (getcwd w0) (parse_reviewers (reviewer a)) w0)
    as [[[[]|e] wt] evt]; simpl in Htry.
  - assert (emits (λ e, is_reading e = true)
              (main_epilogue (parse_reviewers (reviewer a)))) as Hep.
    { destruct (parse_reviewers (reviewer a)) as [[|??]|];
        unfold main_epilogue, print; emits_with gathering_exec. }
    specialize (Hep wt). unfold events_of in Hep. simpl.
    destruct (main_epilogue (parse_reviewers (reviewer a)) wt) as [[r w2] ev2].
    simpl in *. intros [= <- <- <-]. rewrite !app_nil_r.
    apply staged_app; [done|]. eapply staged_then; [exact Htry|done|].
    by intros (? & ? & ?).
  - destruct e as [msg|msg|rc argv|name]; simpl; intros [= <- <- <-];
      rewrite ?app_nil_r; (apply staged_app; [done|]).
    + eapply staged_then; [exact Htry|by repeat constructor|]. by intros (? & ? & ?).
    + eapply staged_then; [exact Htry|by repeat constructor|]. by intros (? & ? & ?).
    + rewrite <- (app_nil_r evt). eapply staged_then; [exact Htry|constructor|done].
    + rewrite <- (app_nil_r evt). eapply staged_then; [exact Htry|constructor|].
      by intros (? & ? & ?).
Qed.

(** *** An empty plan *)

Lemma finalize_empty_plan (commit_msg current_dir : string) (w : world) :
  ∃ out1 out2 rc rest,
    events_of (finalize commit_msg current_dir []) w
    = [Stdout out1; Stdout out2; Exec ["git"; "add"; "DEPS"] (Some current_dir) rc]
      ++ rest
    ∧ checkouts rest = [].
Proof.
  unfold events_of.
  destruct (finalize commit_msg current_dir [] w) as [[res w'] evs] eqn:E.
  revert E. unfold finalize.
  change (Py.sorted roll_ltb (dict_values [])) with (@nil roll). cbn [for_each].
  cbv beta iota delta [bind check_call call ret raise print emit].
  destruct (spawn w _ _) as [w2 [rc out]]. cbn beta iota.
  destruct (rc =? 0)%Z; cbn beta iota.
  2:{ intros [= <- <- <-]. by eexists _, _, _, []. }
  destruct (mktemp w2 commit_msg) as [w3 name]. cbn beta iota.
  destruct (spawn w3 _ _) as [w4 [rc' out']]. cbn beta iota.
  destruct (rc' =? 0)%Z; cbn beta iota; intros [= <- <- <-];
    eexists _, _, _, _; (split; [reflexivity|done]).
Qed.

(** X15: an empty plan does not stop [main].  When the tree is clean and
    the first loop ends with no entry in [rolls] (every dependency of two or
    more is at its target), gclient setdep runs without any '-r' argument
    and, if it succeeds, [finalize] goes on with a message that starts with
    an empty line and 'Created with:': no checkout runs, git add DEPS
    does. *)
Theorem empty_plan_still_commits a root current_dir reviewers w w1 ev1 w2 ev2 w3 out :
  let setdep := [executable; GCLIENT_PATH; "setdep"] in
  let msg := gen_commit_msg [] (cmdline_of a) reviewers (bug a) in
  let nb := length (dependencies_of a) in
  check_clean a current_dir w = (Ok tt, w1, ev1) →
  for_fold (dependencies_of a) [] (roll_step a root current_dir nb) w1
  = (Ok [], w2, ev2) →
  spawn w2 setdep None = (w3, (0%Z, out)) →
  result_of (main_try a root current_dir reviewers) w
  = result_of (finalize msg current_dir []) w3
  ∧ events_of (main_try a root current_dir reviewers) w
    = ev1 ++ ev2 ++ [Exec setdep None 0] ++ events_of (finalize msg current_dir []) w3
  ∧ Py.startswith (NL +:+ "Created with:" +:+ NL +:+ "  " +:+ cmdline_of a +:+ NL) msg
    = true
  ∧ checkouts (events_of (finalize msg current_dir []) w3) = []
  ∧ ∃ rc, Exec ["git"; "add"; "DEPS"] (Some current_dir) rc
          ∈ events_of (finalize msg current_dir []) w3.
Proof.
  intros setdep msg nb Hclean Hloop Hsetdep.
  assert (main_try a root current_dir reviewers w
          = let run := finalize msg current_dir [] w3 in
            (run.1.1, run.1.2, ev1 ++ ev2 ++ [Exec setdep None 0] ++ run.2)) as Hrun.
  { unfold main_try. unfold bind at 1. rewrite Hclean. cbn beta iota.
    unfold bind at 1. fold nb. rewrite Hloop. cbn beta iota.
    change (Py.sorted item_ltb (dict_items [])) with (@nil (string * roll)).
    cbn [for_fold]. unfold bind at 1, ret at 1. cbn beta iota. fold msg.
    generalize (finalize msg current_dir []). intros fin.
    unfold bind at 1, gclient, bind at 1, check_output, bind at 1, call.
    cbn [app]. fold setdep. rewrite Hsetdep. cbn.
    destruct (fin w3) as [[r w4] ev4]. cbn.
    by rewrite ?app_nil_r, <- ?app_assoc. }
  destruct (finalize_empty_plan msg current_dir w3)
    as (out1 & out2 & rc & rest & Hfin & Hrest).
  split_and!.
  - unfold result_of. by rewrite Hrun.
  - unfold events_of at 1. by rewrite Hrun.
  - apply startswith_true. unfold msg, gen_commit_msg.
    change (1 <? length (@nil string)) with false. cbv iota.
    change (Py.join (NL +:+ NL) []) with "". change ("" +:+ "") with "".
    eexists. rewrite !sapp_assoc. change ("" +:+ ?x) with x. reflexivity.
  - rewrite Hfin. unfold checkouts in *. by rewrite omap_app, Hrest.
  - exists rc. rewrite Hfin. cbn [app]. by repeat constructor.
Qed.

(** *** A dependency that is at its target *)

Lemma main_try_rest a root current_dir reviewers :
  main_try a root current_dir reviewers
  = bind (check_clean a current_dir)
      (λ _, bind (for_fold (dependencies_of a) []
                    (roll_step a root current_dir (length (dependencies_of a))))
              (main_rest a current_dir reviewers)).
Proof. reflexivity. Qed.

Lemma bind_assoc_run {A B C} (m : M A) (f : A → M B) (g : B → M C) (w : world) :
  bind (bind m f) g w = bind m (λ x, bind (f x) g) w.
Proof.
  unfold bind. destruct (m w) as [[[a|e] w1] ev1]; [|done].
  destruct (f a w1) as [[[b|e] w2] ev2]; [|done].
  destruct (g b w2) as [[r w3] ev3]. by rewrite app_assoc.
Qed.

Lemma bind_ext_run {A B} (m : M A) (f g : A → M B) (w : world) :
  (∀ a w', f a w' = g a w') → bind m f w = bind m g w.
Proof.
  intros Hfg. unfold bind. destruct (m w) as [[[a|e] w1] ev1]; [|done].
  by rewrite Hfg.
Qed.

Lemma bind_run_eq {A B} (m m' : M A) (f : A → M B) (w : world) :
  m w = m' w → bind m f w = bind m' f w.
Proof. intros Hm. unfold bind. by rewrite Hm. Qed.

Lemma for_fold_app {A S} (l1 l2 : list A) (s : S) (body : S → A → M S) (w : world) :
  for_fold (l1 ++ l2) s body w
  = bind (for_fold l1 s body) (λ s', for_fold l2 s' body) w.
Proof.
  revert s w. induction l1 as [|x l1 IH]; intros s w; cbn [app for_fold].
  - unfold bind, ret. cbn beta iota. destruct (for_fold l2 s body w) as [[??]?]. reflexivity.
  - rewrite bind_assoc_run. apply bind_ext_run. intros s' w'. apply IH.
Qed.

Lemma dependencies_count (a : args) :
  length (dependencies_of a) = length (dep_path a).
Proof.
  unfold dependencies_of.
  by rewrite (Permutation_length (sorted_perm Py.str_ltb _)), length_map.
Qed.

Lemma skip_step a root current_dir nb rolls dependency w dir w1 ev1 rev w2 ev2 :
  nb ≠ 1 →
  find_dir root current_dir dependency w = (Ok dir, w1, ev1) →
  calculate_roll dir dependency (roll_to a) w1 = (Ok (rev, rev), w2, ev2) →
  roll_step a root current_dir nb rolls dependency w
  = (Ok rolls, w2,
     ev1 ++ ev2
     ++ [Stdout (dependency +:+ ": Already at latest commit " +:+ rev +:+ NL)]).
Proof.
  intros Hnb Hdir Hroll.
  unfold roll_step. unfold bind at 1. rewrite Hdir. cbn beta iota.
  unfold bind at 1. rewrite Hroll. cbn beta iota.
  unfold record_roll. rewrite String.eqb_refl.
  apply Nat.eqb_neq in Hnb. rewrite Hnb. cbn.
  by rewrite <- ?app_assoc, ?sapp_assoc.
Qed.

Lemma not_error_not_already {A} (m : M A) :
  raises not_error m → raises not_already_rolled m.
Proof. intros Hm w e He. specialize (Hm w e He). by destruct e. Qed.

Lemma roll_step_not_already a root current_dir nb rolls dependency :
  nb ≠ 1 →
  raises not_already_rolled (roll_step a root current_dir nb rolls dependency).
Proof.
  intros Hnb. apply Nat.eqb_neq in Hnb.
  unfold roll_step, find_dir, calculate_roll, is_submoduled, gclient,
    get_submodule_rev, unbound_name, record_roll, print.
  rewrite Hnb. raises_not_error.
Qed.

Lemma main_try_not_already a root current_dir reviewers :
  (1 < length (dep_path a))%nat →
  raises not_already_rolled (main_try a root current_dir reviewers).
Proof.
  intros Hseveral. rewrite main_try_rest. apply raises_bind.
  { unfold check_clean, is_pristine. raises_not_error. }
  intros _. apply raises_bind.
  { apply raises_for_fold. intros rolls d. apply roll_step_not_already.
    rewrite dependencies_count. lia. }
  intros rolls. apply not_error_not_already. unfold main_rest.
  apply raises_bind.
  { apply raises_for_fold. intros. apply log_step_not_error. }
  intros [logs setdep_args].
  apply raises_bind; [apply gclient_not_error|]. intros _.
  apply finalize_not_error.
Qed.

(** C5: when the two revisions of a dependency are equal.  If it is
    the only path given, [main] writes "error: No revision to roll!" to
    the standard error and returns 2, the handler of AlreadyRolledError.
    If more than one path was given, the try block of [main] prints a note
    for that dependency, leaves the plan as it is and goes on with the
    dependencies after it and with the rest of the block; [main] does not
    return 2 then and AlreadyRolledError is not raised. *)
Theorem already_at_target :
  (∀ a d w root w0 ev0 w1 ev1 dir w2 ev2 rev w3 ev3,
     dep_path a = [d] →
     gclient ["root"] w = (Ok root, w0, ev0) →
     check_clean a (getcwd w0) w0 = (Ok tt, w1, ev1) →
     find_dir root (getcwd w0) (normalized d) w1 = (Ok dir, w2, ev2) →
     calculate_roll dir (normalized d) (roll_to a) w2 = (Ok (rev, rev), w3, ev3) →
     main_try a root (getcwd w0) (parse_reviewers (reviewer a)) w0
     = (Raise (AlreadyRolledError "No revision to roll!"), w3, ev1 ++ ev2 ++ ev3)
     ∧ main a w
       = (Ok 2%Z, w3,
          ev0 ++ ev1 ++ ev2 ++ ev3
          ++ [Stderr ("error: No revision to roll!" +:+ NL)]))
  ∧ (∀ a root current_dir reviewers w w0 ev0 before d after rolls w1 ev1
       dir w2 ev2 rev w3 ev3,
       (1 < length (dep_path a))%nat →
       dependencies_of a = before ++ d :: after →
       let step := roll_step a root current_dir (length (dependencies_of a)) in
       check_clean a current_dir w = (Ok tt, w0, ev0) →
       for_fold before [] step w0 = (Ok rolls, w1, ev1) →
       find_dir root current_dir d w1 = (Ok dir, w2, ev2) →
       calculate_roll dir d (roll_to a) w2 = (Ok (rev, rev), w3, ev3) →
       let note := Stdout (d +:+ ": Already at latest commit " +:+ rev +:+ NL) in
       let run := bind (for_fold after rolls step)
                    (main_rest a current_dir reviewers) w3 in
       main_try a root current_dir reviewers w
       = (run.1.1, run.1.2, ev0 ++ ev1 ++ ev2 ++ ev3 ++ [note] ++ run.2))
  ∧ (∀ a w,
       (1 < length (dep_path a))%nat →
       roll_to a = "origin/HEAD" → key a = [] →
       result_of (main a) w ≠ Ok 2%Z
       ∧ ∀ root current_dir reviewers w' msg,
           result_of (main_try a root current_dir reviewers) w'
           ≠ Raise (AlreadyRolledError msg)).
Proof.
  split_and!.
  - intros a d w root w0 ev0 w1 ev1 dir w2 ev2 rev w3 ev3 Hd Hroot Hclean Hdir Hroll.
    assert (main_try a root (getcwd w0) (parse_reviewers (reviewer a)) w0
            = (Raise (AlreadyRolledError "No revision to roll!"), w3,
               ev1 ++ ev2 ++ ev3)) as Htry.
    { unfold main_try, bind at 1. rewrite Hclean. cbn beta iota zeta.
      unfold dependencies_of. rewrite Hd. cbn [map]. rewrite sorted_singleton.
      cbn [length for_fold].
      unfold bind at 1, bind at 1, roll_step, bind at 1. rewrite Hdir.
      cbn beta iota. unfold bind at 1. rewrite Hroll. cbn beta iota.
      unfold record_roll. rewrite String.eqb_refl. cbn.
      by rewrite ?app_nil_r. }
    split; [done|].
    unfold main. rewrite Hd. cbn [length Nat.ltb Nat.leb andb].
    unfold bind at 1. rewrite Hroot. cbn beta iota.
    unfold bind at 1, ask at 1. cbn beta iota.
    unfold bind at 1, try_except, bind at 1. rewrite Htry. cbn.
    by rewrite ?app_nil_r, <- ?app_assoc.
  - intros a root current_dir reviewers w w0 ev0 before d after rolls w1 ev1
      dir w2 ev2 rev w3 ev3 Hseveral Hdeps step Hclean Hbefore Hdir Hroll note run.
    assert (step rolls d w1 = (Ok rolls, w3, ev2 ++ ev3 ++ [note])) as Hstep.
    { unfold step. eapply skip_step; [|exact Hdir|exact Hroll].
      rewrite dependencies_count. lia. }
    assert (bind (for_fold (dependencies_of a) [] step)
              (main_rest a current_dir reviewers) w0
            = (run.1.1, run.1.2, ev1 ++ ev2 ++ ev3 ++ [note] ++ run.2)) as Hloop.
    { rewrite Hdeps.
      rewrite (bind_run_eq _ _ _ _ (for_fold_app before (d :: after) [] step w0)).
      rewrite bind_assoc_run. unfold bind at 1. rewrite Hbefore. cbn beta iota.
      cbn [for_fold]. rewrite bind_assoc_run. unfold bind at 1. rewrite Hstep.
      cbn beta iota. fold run. destruct run as [[r w'] ev'].
      cbn [fst snd]. by rewrite <- !app_assoc. }
    rewrite main_try_rest. fold step. unfold bind at 1. rewrite Hclean.
    cbn beta iota. rewrite Hloop. reflexivity.
  - intros a w Hseveral Hto Hkey. split.
    2:{ intros root current_dir reviewers w' msg Hres.
        by apply (main_try_not_already a root current_dir reviewers Hseveral w') in Hres. }
    unfold result_of.
    destruct (main a w) as [[res w'] evs] eqn:E. simpl. revert E. unfold main.
    rewrite Hto, Hkey. cbn [nil_or_none negb]. rewrite String.eqb_refl.
    cbn [negb]. rewrite !andb_false_r. unfold bind at 1.
    destruct (gclient ["root"] w) as [[[root|e] w0] ev0].
    2:{ by intros [= <- _ _]. }
    unfold bind at 1, ask at 1. cbn beta iota.
    unfold bind at 1, try_except, bind at 1.
    pose proof (main_try_not_already a root (getcwd w0) (parse_reviewers (reviewer a))
                  Hseveral w0) as Hnot.
    unfold result_of in Hnot.
    destruct (main_try a root (getcwd w0) (parse_reviewers (reviewer a)) w0)
      as [[[[]|e] wt] evt]; simpl in Hnot.
    + pose proof (main_epilogue_run (parse_reviewers (reviewer a)) wt) as [Hr _].
      unfold result_of in Hr. simpl.
      destruct (main_epilogue (parse_reviewers (reviewer a)) wt) as [[r w2] ev2].
      simpl in *. subst r. by intros [= <- _ _].
    + specialize (Hnot e eq_refl).
      destruct e as [msg|msg|rc argv|name]; simpl; try done; by intros [= <- _ _].
Qed.

End OutcomeFacts.

(** *** Paths *)

Lemma contains_char_app (c : ascii) (s t : string) :
  Py.contains (String c "") (s +:+ t)
  = Py.contains (String c "") s || Py.contains (String c "") t.
Proof.
  induction s as [|a s IH]; cbn [String.append].
  - done.
  - change (Py.contains (String c "") (String a (s +:+ t)))
      with (Py.startswith (String c "") (String a (s +:+ t))
            || Py.contains (String c "") (s +:+ t)).
    change (Py.contains (String c "") (String a s))
      with (Py.startswith (String c "") (String a s)
            || Py.contains (String c "") s).
    rewrite IH, orb_assoc. f_equal.
    unfold Py.startswith. simpl. by destruct (Py.ascii_eqb c a).
Qed.

Lemma replace_char_gone (c : ascii) (new s : string) :
  Py.contains (String c "") new = false →
  Py.contains (String c "") (Py.replace (String c "") new s) = false.
Proof.
  intros Hnew. unfold Py.replace.
  induction s as [|a s IH]; [done|].
  cbn [Py.replace_from]. unfold Py.startswith at 1. cbn [Py.strip_prefix].
  destruct (Py.ascii_eqb c a) eqn:E.
  - cbn. by rewrite contains_char_app, Hnew, IH.
  - rewrite contains_char_cons; [done|].
    unfold Py.ascii_eqb in *. by rewrite Ascii.eqb_sym.
Qed.

Lemma replace_absent (old new s : string) :
  old ≠ "" → Py.contains old s = false → Py.replace old new s = s.
Proof.
  intros Hne. unfold Py.replace. destruct old as [|o old]; [done|]. clear Hne.
  induction s as [|a s IH]; [done|].
  cbn [Py.contains Py.replace_from]. intros [Hs Hc]%orb_false_iff.
  rewrite Hs. by rewrite IH.
Qed.

Lemma rstrip_of_contains (p : ascii → bool) (c : ascii) (s : string) :
  Py.contains (String c "") s = false →
  Py.contains (String c "") (Py.rstrip_of p s) = false.
Proof.
  destruct (rstrip_of_split p s) as (t & E & _). rewrite E at 1.
  rewrite contains_char_app. by intros [? _]%orb_false_iff.
Qed.

Lemma rstrip_of_fixed (p : ascii → bool) (s : string) :
  (∀ r c, s = r +:+ String c "" → p c = false) → Py.rstrip_of p s = s.
Proof.
  induction s as [|a s IH]; [done|]. intros Hlast. cbn [Py.rstrip_of].
  rewrite IH.
  - destruct s as [|b s]; [|done]. cbn. by rewrite (Hlast "" a eq_refl).
  - intros r c ->. by apply (Hlast (String a r) c).
Qed.

Lemma rstrip_of_idemp (p : ascii → bool) (s : string) :
  Py.rstrip_of p (Py.rstrip_of p s) = Py.rstrip_of p s.
Proof. apply rstrip_of_fixed. intros r c. apply rstrip_of_last. Qed.

Lemma normalized_clean (d : string) :
  Py.contains "\" (normalized d) = false ∧ Py.endswith "/" (normalized d) = false.
Proof.
  split.
  - unfold normalized. apply rstrip_of_contains. by apply replace_char_gone.
  - destruct (Py.endswith "/" (normalized d)) eqn:E; [|done].
    apply endswith_true in E as [r Hr]. unfold normalized in Hr.
    by apply rstrip_of_last in Hr.
Qed.

Lemma normalized_fixed (d : string) :
  Py.contains "\" d = false → Py.endswith "/" d = false → normalized d = d.
Proof.
  intros Hb Hs. unfold normalized. rewrite replace_absent by done.
  apply rstrip_of_fixed. intros r c ->.
  destruct (Py.ascii_eqb "/" c) eqn:E; [|done].
  apply ascii_eqb_true in E as <-.
  by rewrite (proj2 (endswith_true "/" (r +:+ "/")) (ex_intro _ r eq_refl)) in Hs.
Qed.

(** X9: the dependencies (line 272) are the paths of the command line, each
    with '/' for every backslash and without '/' at its end, in sorted
    order; normalising such a path again changes nothing. *)
Theorem dependencies_normalized (a : args) :
  dependencies_of a ≡ₚ map normalized (dep_path a)
  ∧ Sorted (λ x y, Py.str_ltb y x = false) (dependencies_of a)
  ∧ Forall (λ d, Py.contains "\" d = false ∧ Py.endswith "/" d = false
                 ∧ normalized d = d)
      (dependencies_of a).
Proof.
  unfold dependencies_of. split_and!.
  - apply sorted_perm.
  - apply sorted_Sorted, str_ltb_asym.
  - rewrite (sorted_perm Py.str_ltb). apply Forall_map, Forall_forall.
    intros d _. destruct (normalized_clean d) as [Hb Hs].
    split_and!; [done..|]. by apply normalized_fixed.
Qed.

(** *** A cap that is not positive, an empty log *)

Lemma trim_logs_not_positive (limit : Z) (entries : list string) :
  (limit ≤ 0)%Z → entries ≠ [] → Forall no_linebreak entries →
  trim_logs limit entries
  = Py.join NL ((if (limit =? 0)%Z then []
                 else take (length entries - Z.to_nat (- limit - (- limit) / 2)) entries)
                ++ ["(...)"] ++ drop (Z.to_nat ((- limit) / 2)) entries)
    +:+ NL.
Proof.
  intros Hle Hne Hnb. unfold trim_logs.
  assert (0 < length entries)%nat by (destruct entries; [done|simpl; lia]).
  destruct (Z.ltb_spec limit (Z.of_nat (length entries))); [|lia].
  rewrite splitlines_keep_join by done.
  unfold Py.slice_to, Py.slice_from. rewrite length_map.
  unfold Py.floordiv.
  assert (0 ≤ (- limit) / 2)%Z by (Z.to_euclidean_division_equations; lia).
  destruct (Z.ltb_spec ((- limit) / 2) 0); [lia|].
  rewrite <- join_lines by (by destruct (_ =? _)%Z; intros [_ [=]]%app_eq_nil).
  rewrite !map_app, skipn_map. f_equal. f_equal.
  destruct (Z.eqb_spec limit 0) as [->|Hnz]; [done|].
  pose proof (floordiv_neg_half (- limit)) as E.
  rewrite Z.opp_involutive in E. unfold Py.floordiv in E. rewrite E.
  assert (0 < - limit - (- limit) / 2)%Z
    by (Z.to_euclidean_division_equations; lia).
  destruct (Z.ltb_spec (- (- limit - - limit / 2)) 0); [|lia].
  rewrite firstn_map. f_equal. f_equal. lia.
Qed.

(** X10: a cap N <= 0 on a shown log of L >= 1 entries does not shorten it
    as a positive cap does.  The body is a head, the line '(...)' and a
    tail: the head is empty when N = 0 and else holds all the entries but
    the last |N| - |N|/2 ones, the tail holds the entries from index |N|/2
    on.  With N = 0 this is the mark followed by the whole log, and for
    -L <= N <= 0 the body has more lines than the log has entries. *)
Theorem log_limit_not_positive dep head roll_to limit url git_log :
  (limit ≤ 0)%Z → should_show_log url = true →
  let entries := clean_lines (log_lines git_log) in
  let L := length entries in
  (1 ≤ L)%nat →
  let lead := header dep head roll_to (log_lines git_log) entries
              +:+ log_section_head (get_log_url url head roll_to) head roll_to in
  let cut := Z.to_nat (- limit - (- limit) / 2) in
  let kept := (if (limit =? 0)%Z then [] else take (L - cut) entries)
              ++ ["(...)"] ++ drop (Z.to_nat ((- limit) / 2)) entries in
  commit_message dep head roll_to false limit url git_log
  = lead +:+ Py.join NL kept +:+ NL
  ∧ ((- Z.of_nat L ≤ limit)%Z → (L < length kept)%nat)
  ∧ (limit = 0%Z → kept = "(...)" :: entries).
Proof.
  intros Hlimit Hshow entries L HL lead cut kept.
  assert (0 ≤ (- limit) / 2 ∧ (- limit) / 2 ≤ - limit)%Z as [??]
    by (Z.to_euclidean_division_equations; lia).
  split_and!.
  - rewrite commit_message_parts, Hshow. unfold lead. rewrite sapp_assoc.
    cbn [negb andb]. do 2 f_equal.
    apply trim_logs_not_positive; [done| |apply clean_lines_no_linebreak].
    intros E. unfold L, entries in HL. rewrite E in HL. simpl in HL. lia.
  - intros Hlow. unfold kept. rewrite !length_app, length_drop. cbn [length].
    destruct (Z.eqb_spec limit 0) as [->|Hnz]; cbn [length].
    + fold L. lia.
    + rewrite length_take. fold L. unfold cut. lia.
  - intros ->. done.
Qed.

(** X11: when git log prints nothing, or white space only, and the cap is
    not negative, the message is the header with '(0 commit)', the URL and
    command lines and, if the log is shown, one empty line. *)
Theorem empty_log_message dep head roll_to no_log limit url git_log :
  Py.rstrip git_log = "" → (0 ≤ limit)%Z →
  commit_message dep head roll_to no_log limit url git_log
  = "Roll " +:+ dep +:+ "/ " +:+ commit_range_for_header head roll_to
    +:+ " (0 commit)" +:+ NL +:+ NL
    +:+ log_section_head (get_log_url url head roll_to) head roll_to
    +:+ (if negb no_log && should_show_log url then NL else "").
Proof.
  intros Hblank Hlimit. unfold commit_message, log_lines. rewrite Hblank.
  change (Py.splitlines false (strip_author_domain "")) with (@nil string).
  cbn [clean_lines filter]. unfold header. cbn [length Nat.sub Nat.ltb Nat.leb Nat.eqb negb].
  change (Py.str_of_nat 0) with "0".
  rewrite trim_logs_short by (simpl; lia).
  destruct (negb no_log && should_show_log url); cbn [Py.join];
    rewrite ?sapp_nil_r, ?sapp_assoc; reflexivity.
Qed.

(** ** The two patterns of the log *)

Lemma sapp_inv_head (a b c : string) : a +:+ b = a +:+ c → b = c.
Proof. induction a as [|x a IH]; simpl; [done|]. intros [= ?]. auto. Qed.

Lemma last_char_app (a b : string) (prev : option ascii) :
  Re.last_char (a +:+ b) prev = Re.last_char b (Re.last_char a prev).
Proof. revert prev. induction a as [|c a IH]; intros prev; simpl; auto. Qed.

Lemma run_is_Some {A} (ml : bool) (r : Re.regex) :
  ∀ prev s caps (k : Re.cont A), blind k →
    is_Some (Re.run ml r prev s caps k)
    ↔ ∃ pre post, s = pre +:+ post ∧ lang ml r prev pre post
                  ∧ is_Some (k (Re.last_char pre prev) post caps).
Proof.
  induction r as [l|p|p|p|r1 IH1 r2 IH2|r1 IH1 r2 IH2|r0 IH| |];
    intros prev s caps k Hk; cbn [Re.run lang].
  - destruct (Py.strip_prefix l s) as [s'|] eqn:E.
    + apply strip_prefix_Some in E as ->. split.
      * intros Hs. by exists l, s'.
      * intros (pre & post & E & -> & Hs).
        apply sapp_inv_head in E as <-. done.
    + split; [by intros []|]. intros (pre & post & -> & -> & _).
      assert (Py.strip_prefix l (l +:+ post) = Some post) as E'
        by by apply strip_prefix_Some.
      congruence.
  - destruct s as [|c s].
    + split; [by intros []|]. by intros (pre & post & E & (c & -> & _) & _).
    + destruct (p c) eqn:Hc.
      * split.
        -- intros Hs. exists (String c ""), s. split_and!; [done|by exists c|done].
        -- intros (pre & post & E & (c' & -> & _) & Hs).
           by injection E as <- <-.
      * split; [by intros []|].
        intros (pre & post & E & (c' & -> & Hc') & _). injection E as <- _.
        congruence.
  - apply star_is_Some.
  - destruct s as [|c s].
    + split; [by intros []|]. intros (pre & post & E & [Hne _] & _).
      by destruct pre.
    + destruct (p c) eqn:Hc.
      * rewrite star_is_Some. split.
        -- intros (pre & post & -> & Hp & Hs). exists (String c pre), post.
           split_and!; [done..| |done]. simpl. by rewrite Hc.
        -- intros ([|c' pre] & post & E & [Hne Hp] & Hs); [done|].
           injection E as <- ->. simpl in Hp.
           apply andb_true_iff in Hp as [_ Hp]. by exists pre, post.
      * split; [by intros []|].
        intros ([|c' pre] & post & E & [Hne Hp] & _); [done|].
        injection E as <- _. simpl in Hp. by rewrite Hc in Hp.
  - assert (blind (λ prev' s' caps', Re.run ml r2 prev' s' caps' k)) as Hk2.
    { intros prev' s' c c'. rewrite !IH2 by done.
      intros (pre & post & E & Hl & Hs). exists pre, post. eauto. }
    rewrite IH1 by done. split.
    + intros (a & rest & -> & Ha & Hs). apply IH2 in Hs; [|done].
      destruct Hs as (b & post & -> & Hb & Hs).
      exists (a +:+ b), post. rewrite last_char_app.
      split_and!; [by rewrite sapp_assoc| |done]. by exists a, b.
    + intros (pre & post & -> & (a & b & -> & Ha & Hb) & Hs).
      exists a, (b +:+ post). split_and!; [by rewrite sapp_assoc|done|].
      apply IH2; [done|]. exists b, post. by rewrite last_char_app in Hs.
  - transitivity (is_Some (Re.run ml r1 prev s caps k)
                  ∨ is_Some (Re.run ml r2 prev s caps k)).
    { destruct (Re.run ml r1 prev s caps k) as [x|].
      - split; eauto.
      - split; [by right|]. by intros [[? [=]]|?]. }
    rewrite IH1, IH2 by done. split.
    + intros [(pre & post & ?)|(pre & post & ?)]; exists pre, post; intuition.
    + intros (pre & post & E & [H1|H2] & Hs); [left|right]; by exists pre, post.
  - rewrite IH.
    + split; intros (pre & post & E & Hl & Hs); exists pre, post;
        split_and!; try done; by eapply Hk.
    + intros prev' s' c c'. apply Hk.
  - destruct (Re.at_bol ml prev).
    + split.
      * intros Hs. by exists "", s.
      * by intros (pre & post & -> & [-> _] & Hs).
    + split; [by intros []|]. by intros (pre & post & _ & [_ ?] & _).
  - destruct (Re.at_eol ml s) eqn:E.
    + split.
      * intros Hs. by exists "", s.
      * by intros (pre & post & -> & [-> _] & Hs).
    + split; [by intros []|]. intros (pre & post & -> & [-> E'] & _).
      simpl in E. congruence.
Qed.

Lemma matches_lang (ml : bool) (r : Re.regex) (s : string) :
  Re.matches ml r s = true ↔ ∃ pre post, s = pre +:+ post ∧ lang ml r None pre post.
Proof.
  unfold Re.matches, Re.match_at.
  transitivity (is_Some (Re.run ml r None s [] (λ _ s' caps, Some (s', caps)))).
  { destruct (Re.run _ _ _ _ _ _); split; done. }
  rewrite run_is_Some by (by intros ????).
  split; intros (pre & post & ?); exists pre, post; intuition.
Qed.

Lemma at_eol_line (post : string) :
  Re.at_eol false post = true ↔ post = "" ∨ post = NL.
Proof.
  destruct post as [|c [|d post]]; simpl.
  - intuition.
  - rewrite andb_true_r. split.
    + intros ->%ascii_eqb_true. by right.
    + intros [[=]|[= ->]]. by apply ascii_eqb_true.
  - rewrite andb_false_r. split; [done|]. by intros [[=]|[=]].
Qed.

Ltac break_ex :=
  repeat match goal with
         | H : ∃ _, _ |- _ => destruct H as [? H]
         | H : _ ∧ _ |- _ => destruct H as [? ?]
         end.

Ltac lang_step :=
  first [ reflexivity | assumption
        | eexists _, _; split; [reflexivity|split]
        | eexists; split; [reflexivity|]
        | split ].

Lemma roll_subject_lang (l : string) :
  roll_subject_match l = true ↔ ∃ l0, roll_line l0 ∧ (l = l0 ∨ l = l0 +:+ NL).
Proof.
  unfold roll_subject_match. rewrite matches_lang.
  unfold _ROLL_SUBJECT, Re.date_space. cbn [Re.seq lang]. split.
  - intros (pre & post & -> & H). break_ex. subst.
    match goal with
    | |- context [(_ +:+ ?date +:+ ?author +:+ " " +:+ ?subject +:+ "") +:+ post] =>
        assert (roll_line (date +:+ author +:+ " " +:+ subject)) as Hline
    end.
    { eexists (String _ (String _ (String _ (String _ (String "-"
                 (String _ (String _ (String "-" (String _ (String _ "")))))))))),
              _, _.
      split_and!.
      - cbn [String.append]. reflexivity.
      - eexists _, _, _, _, _, _, _, _. split; [reflexivity|].
        cbn [forallb].
        by repeat match goal with H : Re.digit _ = true |- _ => rewrite H; clear H end.
      - done.
      - match goal with H : _ ∨ _ |- _ => destruct H as [H|H] end; [left|by right].
        break_ex. subst. eexists _, _, _, _. by split_and!. }
    eexists. split; [exact Hline|].
    match goal with H : Re.at_eol _ _ = true |- _ =>
      apply at_eol_line in H as [->| ->] end; [left|right];
      by rewrite ?sapp_nil_r, ?sapp_assoc.
  - intros (l0 & Hline & Hl).
    assert (∃ post, Re.at_eol false post = true ∧ l = l0 +:+ post)
      as (post & Hpost & ->).
    { destruct Hl as [->| ->]; [exists ""|exists NL]; by rewrite ?sapp_nil_r. }
    destruct Hline as (date & author & subject & -> & Hdate & [Ha1 Ha2] & Hsub).
    destruct Hdate as (y1 & y2 & y3 & y4 & m1 & m2 & d1 & d2 & -> & Hd).
    cbn [forallb] in Hd. do 8 (apply andb_true_iff in Hd as [? Hd]).
    exists ("" +:+ (String y1 "" +:+ String y2 "" +:+ String y3 "" +:+ String y4 ""
                    +:+ "-" +:+ String m1 "" +:+ String m2 "" +:+ "-"
                    +:+ String d1 "" +:+ String d2 "" +:+ " ")
               +:+ author +:+ " " +:+ subject +:+ ""), post.
    split.
    { cbn [String.append]. by rewrite ?sapp_nil_r, ?sapp_assoc. }
    repeat lang_step.
    destruct Hsub as [(path & old & new & n & -> & [??] & [??] & [??] & [??])| ->];
      [left; repeat lang_step|by right].
Qed.

Lemma str_forall_app (p : ascii → bool) (a b : string) :
  str_forall p (a +:+ b) = str_forall p a && str_forall p b.
Proof. induction a as [|c a IH]; simpl; [done|]. by rewrite IH, andb_assoc. Qed.

Lemma roll_line_is_like (l : string) : roll_line l → roll_line_like l.
Proof.
  intros (date & author & subject & -> & Hdate & Hauthor & Hsubject).
  exists date, author, subject. split_and!; [done| |done|].
  - destruct Hdate as (y1 & y2 & y3 & y4 & m1 & m2 & d1 & d2 & -> & _).
    by exists y1, y2, y3, y4, m1, m2, d1, d2.
  - destruct Hsubject as [(path & old & new & n & -> & ? & ? & ? & [? _])| ->];
      [left|by right]. by exists path, old, new, n.
Qed.

(** X13: [_ROLL_SUBJECT] and the lines of automatic rolls.  A line
    '<date> <author> <subject>', with one line feed after it or none, is
    matched when the date has the form dddd-dd-dd, the author holds no
    space and the subject is either
    'Roll <path> <old>..<new> (<n> commits)' (a path without space, two
    revisions in lower-case hexadecimal, a number in digits, none of them
    empty) or 'Roll recipe dependencies (trivial).'.  A line that is matched
    has this form at least with any character in the place of a digit.  So
    an entry of the log of the first form is not kept for the message, and
    an entry that has not even the second form is kept. *)
Theorem trivial_rolls_filtered :
  (∀ l0 l, roll_line l0 → l = l0 ∨ l = l0 +:+ NL → roll_subject_match l = true)
  ∧ (∀ l, roll_subject_match l = true →
          ∃ l0, roll_line_like l0 ∧ (l = l0 ∨ l = l0 +:+ NL))
  ∧ (∀ git_log l,
       l ∈ log_lines git_log →
       (roll_line l → l ∉ clean_lines (log_lines git_log))
       ∧ (¬ roll_line_like l → l ∈ clean_lines (log_lines git_log))).
Proof.
  split_and!.
  - intros l0 l Hline Hl. apply roll_subject_lang. eauto.
  - intros l (l0 & Hline & Hl)%roll_subject_lang.
    exists l0. split; [by apply roll_line_is_like|done].
  - intros git_log l Hin. unfold clean_lines.
    rewrite !list_elem_of_In, filter_In, negb_true_iff, <- !list_elem_of_In.
    split.
    + intros Hline [_ Hl].
      assert (roll_subject_match l = true) as Hm; [|congruence].
      apply roll_subject_lang. exists l. auto.
    + intros Hnot. split; [done|].
      destruct (roll_subject_match l) eqn:Hm; [|done]. exfalso. apply Hnot.
      apply roll_subject_lang in Hm as (l0 & Hline & [->| ->]);
        [by apply roll_line_is_like|].
      pose proof (splitlines_no_linebreak (strip_author_domain (Py.rstrip git_log)))
        as Hnb.
      rewrite Forall_forall in Hnb. apply Hnb in Hin. unfold no_linebreak in Hin.
      rewrite str_forall_app, andb_true_iff in Hin. by destruct Hin as [_ [=]].
Qed.

Lemma star_exact {A} (p : ascii → bool) (a rest : string) prev caps
    (k : Re.cont A) (r : A) :
  str_forall p a = true →
  (∀ c t, rest = String c t → p c = false) →
  k (Re.last_char a prev) rest caps = Some r →
  Re.star p prev (a +:+ rest) caps k = Some r.
Proof.
  intros Ha Hstop. revert prev. induction a as [|x a IH]; intros prev Hk.
  - cbn [String.append]. destruct rest as [|c t]; [done|].
    cbn [Re.star]. by rewrite (Hstop c t eq_refl).
  - simpl in Ha. apply andb_true_iff in Ha as [Hx Ha].
    cbn [String.append Re.star]. rewrite Hx. by rewrite (IH Ha (Some x) Hk).
Qed.

Lemma plus_exact {A} (p : ascii → bool) (a rest : string) prev caps
    (k : Re.cont A) (r : A) :
  a ≠ "" → str_forall p a = true →
  (∀ c t, rest = String c t → p c = false) →
  k (Re.last_char a prev) rest caps = Some r →
  Re.run true (Re.Plus p) prev (a +:+ rest) caps k = Some r.
Proof.
  intros Hne Ha Hstop Hk. destruct a as [|x a]; [done|].
  simpl in Ha. apply andb_true_iff in Ha as [Hx Ha].
  cbn [String.append Re.run]. rewrite Hx. by apply star_exact.
Qed.

Lemma run_lit {A} ml (l s : string) prev caps (k : Re.cont A) :
  Re.run ml (Re.Lit l) prev (l +:+ s) caps k = k (Re.last_char l prev) s caps.
Proof.
  cbn [Re.run].
  by rewrite (proj2 (strip_prefix_Some l (l +:+ s) s) eq_refl).
Qed.

Lemma run_date_space {A} ml (d s : string) prev caps (k : Re.cont A) :
  date_shape d →
  Re.run ml Re.date_space prev (d +:+ " " +:+ s) caps k = k (Some " "%char) s caps.
Proof.
  intros (y1 & y2 & y3 & y4 & m1 & m2 & d1 & d2 & -> & Hd).
  cbn [forallb] in Hd. do 8 (apply andb_true_iff in Hd as [? Hd]).
  unfold Re.date_space. cbn [Re.seq Re.run String.append Py.strip_prefix].
  repeat first
    [ match goal with H : Re.digit _ = true |- _ => rewrite H; clear H end
    | progress change (Py.ascii_eqb "-" "-") with true
    | progress change (Py.ascii_eqb " " " ") with true
    | progress cbn [Re.last_char] ].
  reflexivity.
Qed.

Lemma take_prefix (a t s : string) :
  s = a +:+ t → Py.take (String.length s - String.length t) s = a.
Proof.
  intros ->. rewrite sapp_length, Nat.add_sub. apply stake_app_length.
Qed.

Lemma run_cat {A} ml r1 r2 prev s caps (k : Re.cont A) :
  Re.run ml (Re.Cat r1 r2) prev s caps k
  = Re.run ml r1 prev s caps (λ prev' s' caps', Re.run ml r2 prev' s' caps' k).
Proof. reflexivity. Qed.

Lemma run_group {A} ml r0 prev s caps (k : Re.cont A) :
  Re.run ml (Re.Group r0) prev s caps k
  = Re.run ml r0 prev s caps
      (λ prev' s' caps',
         k prev' s' (caps' ++ [Py.take (String.length s - String.length s') s])).
Proof. reflexivity. Qed.

Lemma run_bol {A} ml prev s caps (k : Re.cont A) :
  Re.at_bol ml prev = true → Re.run ml Re.Bol prev s caps k = k prev s caps.
Proof. intros Hb. cbn [Re.run]. by rewrite Hb. Qed.

Lemma run_eol {A} ml prev s caps (k : Re.cont A) :
  Re.at_eol ml s = true → Re.run ml Re.Eol prev s caps k = k prev s caps.
Proof. intros He. cbn [Re.run]. by rewrite He. Qed.

Lemma run_star {A} ml p prev s caps (k : Re.cont A) :
  Re.run ml (Re.Star p) prev s caps k = Re.star p prev s caps k.
Proof. reflexivity. Qed.

Lemma last_char_not (p : ascii → bool) (s : string) (c0 : ascii) :
  str_forall p s = true → p c0 = true →
  ∃ c, Re.last_char s (Some c0) = Some c ∧ p c = true.
Proof.
  revert c0. induction s as [|x s IH]; intros c0 Hs Hc; simpl in *; [eauto|].
  apply andb_true_iff in Hs as [Hx Hs]. eauto.
Qed.

Lemma match_author_domain (e : entry) (prev : option ascii) (rest : string) :
  well_formed e → Re.at_bol true prev = true →
  rest = "" ∨ (∃ t, rest = String Py.LF t) →
  Re.match_at true AUTHOR_DOMAIN prev (printed e +:+ rest)
  = Some (rest, [entry_date e +:+ " " +:+ entry_user e; " " +:+ entry_subject e]).
Proof.
  intros (Hdate & [Hu1 Hu2] & [Hd1 Hd2] & Hsubj) Hbol Hrest.
  unfold printed. rewrite !sapp_assoc.
  unfold Re.match_at, AUTHOR_DOMAIN. cbn [Re.seq].
  rewrite run_cat, run_bol by done.
  rewrite run_cat, run_group, run_cat, run_date_space by done.
  apply plus_exact; [done..| |].
  { by intros c t [= <- _]. }
  rewrite run_cat, run_lit, run_cat.
  apply plus_exact; [done..| |].
  { by intros c t [= <- _]. }
  rewrite run_cat, run_group, run_cat, run_lit.
  rewrite run_star. apply star_exact; [done| |].
  { destruct Hrest as [->|[t ->]]; [done|]. by intros c t' [= <- _]. }
  rewrite run_eol by (by destruct Hrest as [->|[t ->]]).
  cbn [app]. repeat f_equal.
  - apply take_prefix. by rewrite !sapp_assoc.
  - apply take_prefix. by rewrite !sapp_assoc.
Qed.

Lemma sub_from_skip ml r repl (a rest : string) prev :
  Re.sub_from ml r repl (String.length a) prev (a +:+ rest)
  = Re.sub_from ml r repl 0 (Re.last_char a prev) rest.
Proof.
  revert prev. induction a as [|c a IH]; intros prev; cbn [String.append].
  - by destruct rest.
  - cbn [String.length Re.sub_from Re.last_char]. apply IH.
Qed.

Lemma sub_from_match ml r repl prev c s rest caps n :
  Re.match_at ml r prev (String c s) = Some (rest, caps) →
  String.length (String c s) - String.length rest = S n →
  Re.sub_from ml r repl 0 prev (String c s)
  = repl caps +:+ Re.sub_from ml r repl n (Some c) s.
Proof. intros Hm Hn. cbn [Re.sub_from]. by rewrite Hm, Hn. Qed.

Lemma sub_from_nomatch ml r repl prev c s :
  Re.match_at ml r prev (String c s) = None →
  Re.sub_from ml r repl 0 prev (String c s)
  = String c (Re.sub_from ml r repl 0 (Some c) s).
Proof. intros Hm. cbn [Re.sub_from]. by rewrite Hm. Qed.

Lemma author_domain_needs_bol prev s :
  Re.at_bol true prev = false → Re.match_at true AUTHOR_DOMAIN prev s = None.
Proof.
  intros Hb. unfold Re.match_at, AUTHOR_DOMAIN. cbn [Re.seq].
  rewrite run_cat. cbn [Re.run]. by rewrite Hb.
Qed.

Lemma sub_entry (e : entry) (prev : option ascii) (rest : string) :
  well_formed e → Re.at_bol true prev = true →
  let go := Re.sub_from true AUTHOR_DOMAIN (λ caps, Py.join "" (List.firstn 2 caps)) in
  go 0 prev (printed e) = shortened e
  ∧ ∀ t, go 0 prev (printed e +:+ String Py.LF t)
         = shortened e +:+ String Py.LF (go 0 (Some Py.LF) t).
Proof.
  intros Hwf Hbol go.
  assert (∃ c s, printed e = String c s) as (c & s & Eprinted).
  { destruct Hwf as [(y1 & ? & ? & ? & ? & ? & ? & ? & E & _) _].
    unfold printed. rewrite E. cbn [String.append]. eauto. }
  assert (∀ rest, rest = "" ∨ (∃ t, rest = String Py.LF t) →
            go 0 prev (printed e +:+ rest)
            = shortened e +:+ go 0 (Re.last_char (printed e) prev) rest) as Hstep.
  { intros rest' Hrest. pose proof (match_author_domain e prev rest' Hwf Hbol Hrest) as Hm.
    rewrite Eprinted in Hm |- *. cbn [String.append] in Hm |- *.
    unfold go. erewrite sub_from_match; [|exact Hm|].
    - rewrite sub_from_skip. cbn [firstn Py.join Re.last_char].
      unfold shortened. by rewrite !sapp_assoc.
    - cbn [String.length]. rewrite sapp_length. lia. }
  split.
  - rewrite <- (sapp_nil_r (printed e)) at 1. rewrite Hstep by (by left).
    unfold go. cbn [Re.sub_from]. by rewrite sapp_nil_r.
  - intros t. rewrite Hstep by (right; by exists t). f_equal.
    unfold go. rewrite sub_from_nomatch; [done|].
    apply author_domain_needs_bol.
    unfold printed. rewrite !last_char_app.
    destruct Hwf as (_ & _ & _ & Hsubj).
    destruct (last_char_not (Re.not_char Py.LF) (entry_subject e) " " Hsubj eq_refl)
      as (x & Hx & Hnot).
    cbn [Re.last_char] in Hx |- *. rewrite Hx. cbn [Re.at_bol andb].
    unfold Re.not_char in Hnot. by apply negb_true_iff in Hnot.
Qed.

Lemma sub_entries (es : list entry) (prev : option ascii) :
  Forall well_formed es → Re.at_bol true prev = true →
  Re.sub_from true AUTHOR_DOMAIN (λ caps, Py.join "" (List.firstn 2 caps)) 0 prev
    (Py.join NL (map printed es))
  = Py.join NL (map shortened es).
Proof.
  intros Hes. revert prev. induction Hes as [|e es He Hes IH]; intros prev Hbol.
  - done.
  - destruct (sub_entry e prev "" He Hbol) as [Hlast Hmore].
    destruct es as [|e' es]; [exact Hlast|].
    cbn [map] in *.
    change (Py.join NL (printed e :: printed e' :: map printed es))
      with (printed e +:+ NL +:+ Py.join NL (printed e' :: map printed es)).
    change (Py.join NL (shortened e :: shortened e' :: map shortened es))
      with (shortened e +:+ NL +:+ Py.join NL (shortened e' :: map shortened es)).
    change (NL +:+ ?x) with (String Py.LF x).
    rewrite Hmore. do 2 f_equal. by apply IH.
Qed.

(** X12: the substitution of line 126 on a log whose lines are
    '<date> <user>@<domain> <subject>', with a date of the form dddd-dd-dd,
    a user without '@', a domain without space (both non-empty) and a
    subject without line feed: every line loses '@<domain>' and nothing
    else changes. *)
Theorem author_domains_removed (es : list entry) :
  Forall well_formed es →
  strip_author_domain (Py.join NL (map printed es)) = Py.join NL (map shortened es).
Proof. intros Hes. by apply sub_entries. Qed.

(** *** The entries of a log and their number *)

Lemma rstrip_of_all (p : ascii → bool) (t : string) :
  str_forall p t = true → Py.rstrip_of p t = "".
Proof.
  induction t as [|c t IH]; [done|]. simpl. intros [Hc Ht]%andb_true_iff.
  by rewrite IH, Hc.
Qed.

Lemma rstrip_of_app (p : ascii → bool) (s t : string) :
  str_forall p t = true → Py.rstrip_of p (s +:+ t) = Py.rstrip_of p s.
Proof.
  intros Ht. induction s as [|c s IH]; cbn [String.append].
  - by apply rstrip_of_all.
  - cbn [Py.rstrip_of]. by rewrite IH.
Qed.

Lemma rstrip_of_app_fixed (p : ascii → bool) (s t : string) :
  t ≠ "" → Py.rstrip_of p t = t → Py.rstrip_of p (s +:+ t) = s +:+ t.
Proof.
  intros Hne Ht. induction s as [|c s IH]; cbn [String.append]; [done|].
  cbn [Py.rstrip_of]. rewrite IH.
  destruct (s +:+ t) eqn:E; [|done]. by destruct s, t.
Qed.

Lemma splitlines_drop_line (l rest : string) :
  no_linebreak l →
  Py.splitlines false (l +:+ NL +:+ rest) = l :: Py.splitlines false rest.
Proof.
  unfold no_linebreak. induction l as [|c l IH]; intros Hl.
  - apply splitlines_LF.
  - simpl in Hl. apply andb_true_iff in Hl as [Hc Hl].
    apply negb_true_iff in Hc. cbn [String.append].
    by rewrite splitlines_plain, IH.
Qed.

Lemma splitlines_one (l : string) :
  l ≠ "" → no_linebreak l → Py.splitlines false l = [l].
Proof.
  unfold no_linebreak. induction l as [|c l IH]; intros Hne Hl; [done|].
  simpl in Hl. apply andb_true_iff in Hl as [Hc Hl]. apply negb_true_iff in Hc.
  rewrite splitlines_plain by done. destruct l as [|d l]; [done|].
  by rewrite IH.
Qed.

Lemma splitlines_join (ls : list string) :
  Forall (λ l, l ≠ "" ∧ no_linebreak l) ls →
  Py.splitlines false (Py.join NL ls) = ls.
Proof.
  induction 1 as [|l ls [Hne Hl] Hls IH]; [done|].
  destruct ls as [|l' ls].
  - by apply splitlines_one.
  - change (Py.join NL (l :: l' :: ls)) with (l +:+ NL +:+ Py.join NL (l' :: ls)).
    by rewrite splitlines_drop_line, IH.
Qed.

Lemma digit_no_linebreak (c : ascii) :
  Re.digit c = true → Py.is_linebreak c = false.
Proof. by destruct c as [[] [] [] [] [] [] [] []]. Qed.

Lemma date_no_linebreak (d : string) : date_shape d → no_linebreak d.
Proof.
  intros (y1 & y2 & y3 & y4 & m1 & m2 & d1 & d2 & -> & Hd).
  cbn [forallb] in Hd. do 8 (apply andb_true_iff in Hd as [? Hd]).
  unfold no_linebreak. cbn [str_forall].
  rewrite (digit_no_linebreak y1), (digit_no_linebreak y2), (digit_no_linebreak y3),
    (digit_no_linebreak y4), (digit_no_linebreak m1), (digit_no_linebreak m2),
    (digit_no_linebreak d1), (digit_no_linebreak d2) by done.
  reflexivity.
Qed.

Lemma no_linebreak_app (a b : string) :
  no_linebreak a → no_linebreak b → no_linebreak (a +:+ b).
Proof. unfold no_linebreak. rewrite str_forall_app. by intros -> ->. Qed.

Lemma shortened_line (e : entry) :
  well_formed e → tidy e → shortened e ≠ "" ∧ no_linebreak (shortened e).
Proof.
  intros (Hdate & _) (Hu & Hs & _). split.
  - destruct Hdate as (y1 & ? & ? & ? & ? & ? & ? & ? & E & _).
    unfold shortened. by rewrite E.
  - unfold shortened.
    repeat apply no_linebreak_app; try done. by apply date_no_linebreak.
Qed.

Lemma printed_log_end (es : list entry) :
  es ≠ [] →
  ∃ x e, e ∈ es ∧ Py.join NL (map printed es) = x +:+ entry_subject e.
Proof.
  induction es as [|e es IH]; [done|]. intros _. destruct es as [|e' es].
  - exists (entry_date e +:+ " " +:+ entry_user e +:+ "@" +:+ entry_domain e +:+ " "), e.
    split; [by left|]. cbn [map Py.join]. unfold printed. by rewrite !sapp_assoc.
  - destruct IH as (x & e0 & Hin & E); [done|].
    exists (printed e +:+ NL +:+ x), e0. split; [by right|].
    change (Py.join NL (map printed (e :: e' :: es)))
      with (printed e +:+ NL +:+ Py.join NL (map printed (e' :: es))).
    rewrite E. by rewrite !sapp_assoc.
Qed.

Lemma log_lines_printed (es : list entry) :
  Forall well_formed es → Forall tidy es →
  log_lines (Py.join NL (map printed es) +:+ NL) = map shortened es.
Proof.
  intros Hwf Htidy. unfold log_lines.
  assert (Py.rstrip (Py.join NL (map printed es) +:+ NL)
          = Py.join NL (map printed es)) as ->.
  { unfold Py.rstrip. rewrite rstrip_of_app by done.
    destruct es as [|e es]; [done|].
    destruct (printed_log_end (e :: es)) as (x & e0 & Hin & ->); [done|].
    rewrite Forall_forall in Htidy. destruct (Htidy e0 Hin) as (_ & _ & Hne & Hfix).
    by apply rstrip_of_app_fixed. }
  unfold strip_author_domain, Re.sub. rewrite sub_entries by done.
  apply splitlines_join. apply Forall_map.
  rewrite Forall_forall in Hwf, Htidy |- *. intros e He.
  apply shortened_line; auto.
Qed.

(** X16: for a log as git prints it, one line
    '<date> <user>@<domain> <subject>' per commit, with entries that are
    well formed and tidy, the entries of the message are these lines
    without their domains, one per commit, and the header counts them: n
    is the number of commits and k the number of them that are trivial
    rolls. *)
Theorem header_counts_commits dep head roll_to no_log limit url (es : list entry) :
  Forall well_formed es → Forall tidy es →
  let git_log := Py.join NL (map printed es) +:+ NL in
  let n := length es in
  let k := length (List.filter roll_subject_match (map shortened es)) in
  let log_section :=
    log_section_head (get_log_url url head roll_to) head roll_to
    +:+ (if negb no_log && should_show_log url
         then trim_logs limit (clean_lines (map shortened es)) else "") in
  log_lines git_log = map shortened es
  ∧ commit_message dep head roll_to no_log limit url git_log
    = "Roll " +:+ dep +:+ "/ " +:+ Py.take 9 head +:+ ".." +:+ Py.take 9 roll_to
      +:+ " (" +:+ Py.str_of_nat n +:+ " commit"
      +:+ (if decide (1 < n) then "s" else "")
      +:+ (if decide (k = 0) then ""
           else "; " +:+ Py.str_of_nat k +:+ " trivial rolls")
      +:+ ")" +:+ NL +:+ NL +:+ log_section
  ∧ n = k + length (clean_lines (map shortened es)).
Proof.
  intros Hwf Htidy git_log n k log_section.
  pose proof (log_lines_printed es Hwf Htidy) as Hlines. fold git_log in Hlines.
  destruct (header_format dep head roll_to no_log limit url git_log)
    as (Hmsg & Hcount & _).
  rewrite Hlines, length_map in Hmsg, Hcount. by split_and!.
Qed.

(** *** Runs on the small hosts *)

(** Rolling [a] when it is at the tip already: the report and exit code 2,
    after commands of the first part only. *)
Lemma reports_before_changes_demo :
  let run := @main (Demo.host Demo.stale) (Demo.cli ["a"]) in
  Forall (λ e, @is_gathering (Demo.host Demo.stale) e = true) (events_of run tt)
  ∧ (result_of run tt = Ok 1%Z ∨ result_of run tt = Ok 2%Z).
Proof.
  intros run.
  apply (reports_before_changes (H:=Demo.host Demo.stale) (Demo.cli ["a"]) tt).
  vm_compute. repeat first [by apply Exists_cons_hd | apply Exists_cons_tl].
Defined.

(** A change in DEPS: one git diff, the report, exit code 1. *)
Lemma dirty_tree_stops_demo :
  let diff := ["git"; "diff"; "--ignore-submodules"; "origin/main"] in
  let root := Exec ["python3"; "/depot_tools/gclient.py"; "root"] None 0 in
  @main Cases.dirty (Demo.cli ["a"]) tt
  = (Ok 1%Z, tt,
     [root] ++ [Exec diff (Some "/w") 0]
     ++ [Stderr ("error: Ensure /w is clean first (no non-merged commits)." +:+ NL)])
  ∧ ([Exec diff (Some "/w") 0] = [Exec diff (Some "/w") 0]
     ∨ [Exec diff (Some "/w") 0]
       = [Exec diff (Some "/w") 0; Exec (diff ++ ["--cached"]) (Some "/w") 0]).
Proof.
  intros diff root.
  apply (dirty_tree_stops (H:=Cases.dirty) (Demo.cli ["a"]) tt "/w" tt [root] tt
           [Exec diff (Some "/w") 0]).
  - left. simpl. lia.
  - reflexivity.
  - reflexivity.
  - reflexivity.
Defined.

(** No revision in DEPS for [a]. *)
Lemma unpinned_dependency_demo :
  @calculate_roll Cases.unpinned "/w/a" "a" "origin/HEAD" tt
  = (Raise (Error "a is unpinned."), tt,
     [Exec ["python3"; "/depot_tools/gclient.py"; "root"] None 0;
      Exec ["python3"; "/depot_tools/gclient.py"; "getdep"; "-r"; "a"] None 0]).
Proof.
  apply (unpinned_dependency (H:=Cases.unpinned) "/w/a" "a" "origin/HEAD" tt tt
           [Exec ["python3"; "/depot_tools/gclient.py"; "root"] None 0] tt NL);
    reflexivity.
Defined.

(** The plan for [a] and [b], of which [a] is at the tip already. *)
Lemma gathered_plan_demo :
  let rolls := [("b", ("0000ffff", "33334444", "/w/b"))] in
  NoDup (map fst rolls)
  ∧ Forall (λ item : string * roll, item.1 ∈ ["a"; "b"] ∧ item.2.1.1 ≠ item.2.1.2)
      rolls.
Proof.
  intros rolls.
  eapply (gathered_plan (H:=Demo.host Demo.stale) (Demo.cli ["a"; "b"]) "/w" "/w" 2
            ["a"; "b"] tt rolls tt).
  reflexivity.
Defined.


(** A cap of 0 on five entries: the mark, then the five entries. *)
Lemma log_limit_not_positive_zero :
  commit_message "a" "ffff0000" "11112222" false 0 "https://example.com/a" Demo.five_entries
  = "Roll a/ ffff0000..11112222 (5 commits)" +:+ NL +:+ NL
    +:+ "$ git log ffff0000..11112222 --date=short --no-merges --format='%ad %ae %s'"
    +:+ NL +:+ "(...)" +:+ NL
    +:+ "2020-01-05 a five" +:+ NL +:+ "2020-01-04 b four" +:+ NL
    +:+ "2020-01-03 c three" +:+ NL +:+ "2020-01-02 d two" +:+ NL
    +:+ "2020-01-01 e one" +:+ NL.
Proof.
  destruct (log_limit_not_positive "a" "ffff0000" "11112222" 0 "https://example.com/a"
              Demo.five_entries ltac:(lia) eq_refl) as [-> _]; [vm_compute; lia|].
  vm_compute. reflexivity.
Defined.

(** git log prints nothing. *)
Lemma empty_log_message_demo :
  commit_message "a" "ffff0000" "11112222" false 100 "https://example.com/a" NL
  = "Roll a/ ffff0000..11112222 (0 commit)" +:+ NL +:+ NL
    +:+ "$ git log ffff0000..11112222 --date=short --no-merges --format='%ad %ae %s'"
    +:+ NL +:+ NL.
Proof.
  rewrite (empty_log_message "a" "ffff0000" "11112222" false 100
             "https://example.com/a" NL eq_refl ltac:(lia)).
  vm_compute. reflexivity.
Defined.

(** Nothing to roll for [a] and [b]: there is a commit all the same. *)
Lemma empty_plan_still_commits_demo :
  let a := Demo.cli ["a"; "b"] in
  let reviewers := parse_reviewers (reviewer a) in
  let msg := gen_commit_msg [] (cmdline_of a) reviewers (bug a) in
  result_of (main_try (H := Demo.host Cases.settled) a "/w" "/w" reviewers) tt
  = result_of (finalize (H := Demo.host Cases.settled) msg "/w" []) tt
  ∧ result_of (main (H := Demo.host Cases.settled) a) tt = Ok 0%Z.
Proof.
  intros a reviewers msg. split.
  - refine (proj1 (empty_plan_still_commits (H := Demo.host Cases.settled)
                     a "/w" "/w" reviewers tt tt _ tt _ tt "" _ _ _)); reflexivity.
  - vm_compute. reflexivity.
Defined.

(** Two entries of a log. *)
Lemma author_domains_removed_demo :
  strip_author_domain
    ("2020-01-02 joe@chromium.org Fix it" +:+ NL +:+ "2020-01-03 ann@chromium.org More")
  = "2020-01-02 joe Fix it" +:+ NL +:+ "2020-01-03 ann More".
Proof.
  apply (author_domains_removed
           [ {| entry_date := "2020-01-02"; entry_user := "joe"; entry_domain := "chromium.org";
                entry_subject := "Fix it" |};
             {| entry_date := "2020-01-03"; entry_user := "ann"; entry_domain := "chromium.org";
                entry_subject := "More" |} ]).
  repeat constructor; try done; by do 8 eexists.
Defined.

(** Alone, a dependency that is at its target makes [main] return 2.  With
    [b] beside it, [a] is skipped with a note, the run goes on with [b] and
    [main] returns 0. *)
Lemma already_at_target_demo :
  let a2 := Demo.cli ["a"; "b"] in
  let reviewers := parse_reviewers (reviewer a2) in
  let note := Stdout ("a: Already at latest commit aaaa1111" +:+ NL) in
  result_of (main (H := Demo.host Demo.stale) (Demo.cli ["a"])) tt = Ok 2%Z
  ∧ (result_of (main_try (H := Demo.host Demo.stale) a2 "/w" "/w" reviewers) tt = Ok tt
     ∧ note ∈ events_of (main_try (H := Demo.host Demo.stale) a2 "/w" "/w" reviewers) tt)
  ∧ result_of (main (H := Demo.host Demo.stale) a2) tt ≠ Ok 2%Z.
Proof.
  intros a2 reviewers note.
  pose proof (already_at_target (H := Demo.host Demo.stale)) as (Hone & Hskip & Hnever).
  split_and!.
  - unfold result_of.
    erewrite (proj2 (Hone (Demo.cli ["a"]) "a" tt _ _ _ _ _ _ _ _ _ _ _
                       eq_refl eq_refl eq_refl eq_refl eq_refl)); reflexivity.
  - unfold result_of.
    erewrite (Hskip a2 "/w" "/w" reviewers tt tt _ [] "a" ["b"] [] tt _ _ tt _
                "aaaa1111" tt _); [|simpl; lia|reflexivity..].
    vm_compute. reflexivity.
  - unfold events_of.
    erewrite (Hskip a2 "/w" "/w" reviewers tt tt _ [] "a" ["b"] [] tt _ _ tt _
                "aaaa1111" tt _); [|simpl; lia|reflexivity..].
    vm_compute. apply (proj2 (list_elem_of_In _ _)). simpl. tauto.
  - apply (Hnever a2 tt); [simpl; lia|reflexivity..].
Defined.

(** Two commits, one of them a trivial roll. *)
Lemma header_counts_commits_demo :
  commit_message "a" "ffff0000" "11112222" false 100 "https://example.com/a"
    ("2020-01-02 joe@chromium.org Fix it" +:+ NL
     +:+ "2020-01-03 bot@x.y Roll recipe dependencies (trivial)." +:+ NL)
  = "Roll a/ ffff0000..11112222 (2 commits; 1 trivial rolls)" +:+ NL +:+ NL
    +:+ "$ git log ffff0000..11112222 --date=short --no-merges --format='%ad %ae %s'"
    +:+ NL +:+ "2020-01-02 joe Fix it" +:+ NL.
Proof.
  pose proof (header_counts_commits "a" "ffff0000" "11112222" false 100
                "https://example.com/a"
                [ {| entry_date := "2020-01-02"; entry_user := "joe";
                     entry_domain := "chromium.org"; entry_subject := "Fix it" |};
                  {| entry_date := "2020-01-03"; entry_user := "bot";
                     entry_domain := "x.y";
                     entry_subject := "Roll recipe dependencies (trivial)." |} ])
    as Hthm.
  destruct Hthm as (_ & Hmsg & _).
  - repeat constructor; try done; by do 8 eexists.
  - by repeat constructor.
  - etransitivity; [exact Hmsg|]. vm_compute. reflexivity.
Defined.
